(** * bbgo: the cross-exchange maker strategy, the sequence cursor of the
      coinbase stream and the binance futures batch-order response

    Embedded from the Go sources:
    - [pkg/strategy/xmaker/strategy.go]: [aggregatePrice], [Initialize],
      [updateQuote], [Hedge], [Defaults], [Validate], one tick of
      [hedgeWorker] and the trade callback bound in [CrossRun];
    - [pkg/exchange/coinbase/stream_handlers.go]:
      [checkAndUpdateSequenceNumber], [handleTickerMessage], the order
      handlers ([handleReceivedMessage], [handleOpenMessage],
      [handleDoneMessage], [handleChangeMessage]) with the cache of working
      orders, [handleOrderbookUpdateMessage] and the grouping loop of
      [handleConnect];
    - the binance futures batch-order request: [Unmarshal] of
      [FuturesBatchOrdersResponse].

    Logging, notifications and prometheus gauges have no effect on the
    values studied and are left out. *)

From Stdlib Require Import QArith Qabs Lqa ZArith Lia Sorted Ascii.
From stdpp Require Import gmap strings list option.

Local Open Scope Z_scope.

(** ** pkg/fixedpoint *)

Module fixedpoint.

(** Modelled from the spec: the package [pkg/fixedpoint] is not among the
    files embedded here.  The spec asks for "fixed-point decimals with
    decision-relevant precision (never binary floats for prices or sizes)";
    a [Value] is taken to be an exact rational, so that [Add], [Sub] and
    [Mul] are exact and comparison is the order of the rationals.  What
    depends on the rounding of a product or of a quotient is stated with
    [MulRounded] and [DivRounded] below. *)
Abbreviation Value := Q.

Definition Zero : Value := 0%Q.
Definition One : Value := 1%Q.
Definition NewFromInt (n : Z) : Value := inject_Z n.

Definition Add (a b : Value) : Value := (a + b)%Q.
Definition Sub (a b : Value) : Value := (a - b)%Q.
Definition Mul (a b : Value) : Value := (a * b)%Q.
Definition Neg (a : Value) : Value := (- a)%Q.
Definition Abs (a : Value) : Value := Qabs a.

(** [Compare] answers -1, 0 or +1, as the Go method does. *)
Definition Compare (a b : Value) : Z :=
  match (a ?= b)%Q with
  | Lt => -1
  | Eq => 0
  | Gt => 1
  end.

Definition Sign (a : Value) : Z := Compare a Zero.
Definition IsZero (a : Value) : bool := Qeq_bool a 0%Q.

(** Modelled from the spec: the quotient of two values.  A division by zero
    has no decimal result; it is kept observable as [None] so that the
    callers' divisions can be audited. *)
Definition Div (a b : Value) : option Value :=
  if IsZero b then None else Some (a / b)%Q.

(** *** Rounded products and quotients

    Modelled from the spec: "fixed-point decimals with decision-relevant
    precision" fixes neither the number of decimals nor the way a product
    or a quotient is rounded to them, while sums, differences and
    comparisons of decimals are exact.  Where a property depends on the
    value of a product or of a quotient, these are taken with a rounding:
    a function on the rationals together with its resolution, the largest
    distance it is allowed to put between a number and its rounding. *)
Record Rounding : Type := mkRounding {
  resolution : Q;
  round : Q -> Q
}.

Definition withinResolution (rho : Rounding) : Prop :=
  forall x : Q,
    (x - resolution rho <= round rho x)%Q /\ (round rho x <= x + resolution rho)%Q.

Definition MulRounded (rho : Rounding) (a b : Value) : Value :=
  round rho (a * b)%Q.

Definition DivRounded (rho : Rounding) (a b : Value) : option Value :=
  if IsZero b then None else Some (round rho (a / b)%Q).

(** No rounding at all: the arithmetic of [Mul] and [Div]. *)
Definition exactArithmetic : Rounding := mkRounding 0%Q (fun x => x).

(** Eight decimals, the digits beyond them cut off. *)
Definition truncate8 (x : Q) : Q :=
  let scaled := (x * 100000000)%Q in
  (Z.quot (Qnum scaled) (Zpos (Qden scaled)) # 100000000)%Q.

Definition truncation8 : Rounding := mkRounding (1 # 100000000)%Q truncate8.

End fixedpoint.

(** ** pkg/types *)

Module types.
Import fixedpoint.

Record PriceVolume : Type := mkPV { Price : Value; Volume : Value }.

Definition PriceVolumeSlice : Type := list PriceVolume.

Inductive SideType : Type := SideTypeBuy | SideTypeSell.

Inductive OrderType : Type := OrderTypeLimit | OrderTypeMarket.

(** Go's [time.Time] and [time.Duration], in nanoseconds. *)
Abbreviation Time := Z.
Abbreviation Duration := Z.
Definition Second : Duration := 1000000000.

(** Truncation of a rational toward zero. *)
Definition Qtrunc (x : Q) : Z := Z.quot (Qnum x) (Zpos (Qden x)).

(** The fields of [Market] read by the strategy. *)
Record Market : Type := mkMarket {
  BaseCurrency : string;
  QuoteCurrency : string;
  TickSize : Value;
  StepSize : Value;
  MinQuantity : Value;
  MinNotional : Value
}.

(** Modelled from the spec: [Market.TruncateQuantity] is not among the
    files embedded here.  "Truncate to stepSize": "quantity snapped to
    stepSize by truncation (never rounded up)", that is the largest multiple
    of the step not above the quantity in magnitude; a market without a step
    leaves the quantity as it is. *)
Definition TruncateQuantity (m : Market) (quantity : Value) : Value :=
  if IsZero (StepSize m) then quantity
  else Mul (NewFromInt (Qtrunc (quantity / StepSize m)%Q)) (StepSize m).

(** The field of [Balance] read by the strategy. *)
Record Balance : Type := mkBalance { Available : Value }.

Abbreviation BalanceMap := (gmap string Balance).

Record SubmitOrder : Type := mkSubmitOrder {
  soSymbol : string;
  soMarket : option Market;
  soType : OrderType;
  soSide : SideType;
  soPrice : Value;
  soQuantity : Value;
  soTimeInForce : string;
  soGroupID : Z;
  soMarginSideEffect : string
}.

(** An order as an exchange reports it back: what was submitted and the
    identifier the venue assigned. *)
Record Order : Type := mkOrder {
  OrderID : Z;
  orderSubmit : SubmitOrder
}.

(** The fields of [Trade] read by the strategy's trade callback. *)
Record Trade : Type := mkTrade {
  tradeExchange : string;
  tradeSide : SideType;
  tradeQuantity : Value
}.

(** Modelled from the spec: [Trade.PositionChange] is not among the files
    embedded here; a buy adds its quantity to the base position, a sell
    removes it ("signed base quantity (positive = long)"). *)
Definition PositionChange (t : Trade) : Value :=
  match tradeSide t with
  | SideTypeBuy => tradeQuantity t
  | SideTypeSell => Neg (tradeQuantity t)
  end.

(** Modelled from the spec: [PriceHeartBeat] is not among the files embedded
    here.  "Per side: last observed best price, last change instant.
    Reports stale when [now - last_change > priceUpdateTimeout]". *)
Record PriceHeartBeat : Type := mkHeartBeat {
  hbLast : Value;
  hbLastUpdatedTime : Time;
  hbTimeout : Duration
}.

Definition NewPriceHeartBeat (timeout : Duration) : PriceHeartBeat :=
  mkHeartBeat Zero 0 timeout.

(** [Update] answers the heartbeat after the observation and whether it
    reports stale (the Go method's non-nil error). *)
Definition HeartBeatUpdate (b : PriceHeartBeat) (current : PriceVolume) (now : Time)
  : PriceHeartBeat * bool :=
  if Qeq_bool (hbLast b) (Price current)
  then (b, now - hbLastUpdatedTime b >? hbTimeout b)
  else (mkHeartBeat (Price current) now (hbTimeout b), false).

(** A snapshot of an order book: both sides, best level first. *)
Record SliceOrderBook : Type := mkBook {
  Bids : PriceVolumeSlice;
  Asks : PriceVolumeSlice
}.

Definition BestBid (b : SliceOrderBook) : option PriceVolume := head (Bids b).
Definition BestAsk (b : SliceOrderBook) : option PriceVolume := head (Asks b).

Definition BestBidAndAsk (b : SliceOrderBook) : option (PriceVolume * PriceVolume) :=
  match BestBid b, BestAsk b with
  | Some bid, Some ask => Some (bid, ask)
  | _, _ => None
  end.

Definition CopyDepth (b : SliceOrderBook) (limit : nat) : SliceOrderBook :=
  mkBook (take limit (Bids b)) (take limit (Asks b)).

(** Modelled from the spec: [IsValid] is not among the files embedded here; a
    copy is invalid when it is "crossed or empty". *)
Definition IsValid (b : SliceOrderBook) : bool :=
  match BestBidAndAsk b with
  | Some (bid, ask) => negb (Compare (Price bid) (Price ask) >? 0)
  | None => false
  end.

End types.

(** ** pkg/bbgo: what the strategy uses of the framework

    None of these is among the files embedded here; each is modelled from the
    specification of the component it belongs to. *)

Module bbgo.
Import fixedpoint types.

(** Modelled from the spec: one side of the quota ledger.  "Locks are
    tentative; commit promotes them; rollback discards the latest lock";
    "[lock] succeeds iff remaining available exceeds the request". *)
Record Quota : Type := mkQuota {
  quotaAvailable : Value;
  quotaLocked : Value
}.

Definition emptyQuota : Quota := mkQuota Zero Zero.

Definition QuotaAdd (q : Quota) (fund : Value) : Quota :=
  mkQuota (Add (quotaAvailable q) fund) (quotaLocked q).

Definition QuotaLock (q : Quota) (fund : Value) : Quota * bool :=
  if Compare (quotaAvailable q) fund >? 0
  then (mkQuota (Sub (quotaAvailable q) fund) (Add (quotaLocked q) fund), true)
  else (q, false).

Definition QuotaCommit (q : Quota) : Quota := mkQuota (quotaAvailable q) Zero.

Definition QuotaRollback (q : Quota) : Quota :=
  mkQuota (Add (quotaAvailable q) (quotaLocked q)) Zero.

(** Modelled from the spec: the "two-sided scratch ledger used during one
    quoting pass". *)
Record QuotaTransaction : Type := mkQuotaTx {
  BaseAsset : Quota;
  QuoteAsset : Quota
}.

Definition emptyQuotaTx : QuotaTransaction := mkQuotaTx emptyQuota emptyQuota.

Definition Commit (t : QuotaTransaction) : QuotaTransaction :=
  mkQuotaTx (QuotaCommit (BaseAsset t)) (QuotaCommit (QuoteAsset t)).

Definition Rollback (t : QuotaTransaction) : QuotaTransaction :=
  mkQuotaTx (QuotaRollback (BaseAsset t)) (QuotaRollback (QuoteAsset t)).

(** Modelled from the spec: with [AdjustQuantityByMaxAmount] the hedging
    loop "reduce[s] quantity so that quantity x price x 1.001 <=
    quote.available"; a quantity whose amount already fits is left alone,
    otherwise it is scaled by [maxAmount / amount]. *)
Definition AdjustQuantityByMaxAmount (quantity currentPrice maxAmount : Value)
  : option Value :=
  let amount := Mul currentPrice quantity in
  if Compare amount maxAmount <? 0 then Some quantity
  else ratio ← Div maxAmount amount; Some (Mul quantity ratio).

(** Modelled from the spec: the session contract.  A session knows the
    markets of its venue, holds the balances of the account, and answers
    each submitted order with the created order or with an error. *)
Record ExchangeSession : Type := mkSession {
  ExchangeName : string;
  sessionMarkets : gmap string Market;
  Balances : BalanceMap;
  exchangeSubmitOrder : SubmitOrder -> option Order
}.

(** Modelled from the spec: "Format the batch".  Formatting an order
    attaches the market of its symbol and fails for a symbol the session
    does not know. *)
Definition FormatOrder (session : ExchangeSession) (o : SubmitOrder)
  : option SubmitOrder :=
  m ← sessionMarkets session !! soSymbol o;
  Some (mkSubmitOrder (soSymbol o) (Some m) (soType o) (soSide o) (soPrice o)
          (soQuantity o) (soTimeInForce o) (soGroupID o) (soMarginSideEffect o)).

Definition FormatOrders (session : ExchangeSession) (orders : list SubmitOrder)
  : option (list SubmitOrder) :=
  mapM (FormatOrder session) orders.

(** Modelled from the spec: "batch semantics: the adapter must return
    per-order status; partial success is allowed".  [BatchPlaceOrder]
    submits the orders one by one and calls [orderCallback] on every
    created order; it answers the final state of the caller, the created
    orders and whether some order failed. *)
Fixpoint BatchPlaceOrder {S : Type} (session : ExchangeSession)
    (orderCallback : S -> Order -> S) (st : S) (submitOrders : list SubmitOrder)
  : S * list Order * bool :=
  match submitOrders with
  | [] => (st, [], false)
  | o :: rest =>
      match exchangeSubmitOrder session o with
      | Some created =>
          let '(st', createdOrders, err) :=
            BatchPlaceOrder session orderCallback (orderCallback st created) rest in
          (st', created :: createdOrders, err)
      | None =>
          let '(st', createdOrders, _) :=
            BatchPlaceOrder session orderCallback st rest in
          (st', createdOrders, true)
      end
  end.

(** Modelled from the spec: the active-order set and the order store, both
    keyed by order id.  An active-order set belongs to one symbol and takes
    no order of another symbol. *)
Abbreviation ActiveOrderBook := (gmap Z Order).
Abbreviation OrderStore := (gmap Z Order).

Definition ActiveAdd (symbol : string) (b : ActiveOrderBook) (o : Order)
  : ActiveOrderBook :=
  if String.eqb symbol (soSymbol (orderSubmit o)) then <[OrderID o := o]> b else b.

Definition StoreAdd (st : OrderStore) (o : Order) : OrderStore :=
  <[OrderID o := o]> st.

Definition NumOfOrders (b : ActiveOrderBook) : nat := size b.

End bbgo.

(** ** pkg/strategy/xmaker: the price aggregator *)

Module xmaker.
Import fixedpoint types bbgo.

(** The [for] loop of [aggregatePrice]: [q] is the quantity still to fill,
    [totalAmount] the amount accumulated so far; the result is
    [totalAmount] at loop exit ([break] or end of slice). *)
Fixpoint aggregateLoop (pvs : PriceVolumeSlice) (q totalAmount : Value) : Value :=
  match pvs with
  | [] => totalAmount
  | pv :: rest =>
      if Compare (Volume pv) q >=? 0
      then Add totalAmount (Mul q (Price pv))
      else aggregateLoop rest (Sub q (Volume pv))
             (Add totalAmount (Mul (Volume pv) (Price pv)))
  end.

Definition aggregatePrice (pvs : PriceVolumeSlice) (requiredQuantity : Value)
  : option Value :=
  match pvs with
  | [] => Some Zero
  | pv0 :: _ =>
      if Compare (Volume pv0) requiredQuantity >=? 0
      then Some (Price pv0)
      else Div (aggregateLoop pvs requiredQuantity Zero) requiredQuantity
  end.

(** The amount the loop accumulates for a quantity [q], from an empty
    accumulator. *)
Abbreviation amountFor pvs q := (aggregateLoop pvs q Zero).

(** [aggregatePrice] once more, line by line, with the products of the loop
    and the final quotient rounded by [rho]; with [exactArithmetic] it is
    [aggregatePrice] itself. *)
Fixpoint aggregateLoopRounded (rho : Rounding) (pvs : PriceVolumeSlice)
    (q totalAmount : Value) : Value :=
  match pvs with
  | [] => totalAmount
  | pv :: rest =>
      if Compare (Volume pv) q >=? 0
      then Add totalAmount (MulRounded rho q (Price pv))
      else aggregateLoopRounded rho rest (Sub q (Volume pv))
             (Add totalAmount (MulRounded rho (Volume pv) (Price pv)))
  end.

Definition aggregatePriceRounded (rho : Rounding) (pvs : PriceVolumeSlice)
    (requiredQuantity : Value) : option Value :=
  match pvs with
  | [] => Some Zero
  | pv0 :: _ =>
      if Compare (Volume pv0) requiredQuantity >=? 0
      then Some (Price pv0)
      else DivRounded rho (aggregateLoopRounded rho pvs requiredQuantity Zero)
             requiredQuantity
  end.

(** How far rounding can move the aggregated price of a quantity [Q] on a
    side of [n] levels: one resolution for the quotient, and one for each
    of the at most [n] products, divided by [Q]. *)
Definition roundingSlack (rho : Rounding) (pvs : PriceVolumeSlice)
    (requiredQuantity : Value) : Value :=
  (resolution rho
   * (1 + inject_Z (Z.of_nat (length pvs)) / requiredQuantity))%Q.

(** *** The aggregator in the words of the specification

    "walk levels in order, accumulating [volume_i * price_i] and draining
    remaining Q; when remaining drops at-or-below the current level's
    volume, consume exactly that residual and stop".  [consumed] lists what
    is taken from each level, as pairs (quantity taken, price). *)
Fixpoint consumed (pvs : PriceVolumeSlice) (remaining : Q) : list (Q * Q) :=
  match pvs with
  | [] => []
  | pv :: rest =>
      if Qle_bool remaining (Volume pv)
      then [(remaining, Price pv)]
      else (Volume pv, Price pv) :: consumed rest (remaining - Volume pv)%Q
  end.

Definition accumulated (taken : list (Q * Q)) : Q :=
  foldr (fun tp acc => (fst tp * snd tp + acc)%Q) 0%Q taken.

Definition totalVolume (pvs : PriceVolumeSlice) : Q :=
  foldr (fun pv acc => (Volume pv + acc)%Q) 0%Q pvs.

Definition bookAmount (pvs : PriceVolumeSlice) : Q :=
  foldr (fun pv acc => (Volume pv * Price pv + acc)%Q) 0%Q pvs.

(** *** Shapes of a book side

    A bid side lists its levels by strictly decreasing price, an ask side by
    strictly increasing price. *)
Definition bidOrdered (pvs : PriceVolumeSlice) : Prop :=
  Sorted (fun a b => (Price b < Price a)%Q) pvs.

Definition askOrdered (pvs : PriceVolumeSlice) : Prop :=
  Sorted (fun a b => (Price a < Price b)%Q) pvs.

Definition volumesNonneg (pvs : PriceVolumeSlice) : Prop :=
  Forall (fun pv => (0 <= Volume pv)%Q) pvs.

Definition pricesNonneg (pvs : PriceVolumeSlice) : Prop :=
  Forall (fun pv => (0 <= Price pv)%Q) pvs.

(** "VWAP monotonicity" as the specification words it, for both sides and
    with no condition on the depth of the side. *)
Definition vwapMonotoneBid : Prop :=
  forall pvs (Q1 Q2 r1 r2 : Value),
    bidOrdered pvs -> (0 < Q1)%Q -> (Q1 < Q2)%Q ->
    aggregatePrice pvs Q1 = Some r1 -> aggregatePrice pvs Q2 = Some r2 ->
    (r2 <= r1)%Q.

Definition vwapMonotoneAsk : Prop :=
  forall pvs (Q1 Q2 r1 r2 : Value),
    askOrdered pvs -> (0 < Q1)%Q -> (Q1 < Q2)%Q ->
    aggregatePrice pvs Q1 = Some r1 -> aggregatePrice pvs Q2 = Some r2 ->
    (r1 <= r2)%Q.

Definition vwapMonotone : Prop := vwapMonotoneBid /\ vwapMonotoneAsk.

(** ** pkg/strategy/xmaker: the strategy *)

Definition two : Value := NewFromInt 2.
Definition lastPriceModifier : Value := (1001 # 1000)%Q.
Definition minGap : Value := (102 # 100)%Q.
Definition priceUpdateTimeout : Duration := 30 * Second.

(** [rate.Reservation], as far as [Hedge] looks at it. *)
Record Reservation : Type := mkReservation { reservationOK : bool }.

(** The fields of [Strategy] that [updateQuote], [Hedge] and [hedgeWorker]
    read or write.  [Position] is the base quantity of the position
    ([Position.GetBase()]); [QuantityScale] answers the quantity of a layer
    or an error; [CircuitBreaker] tells whether the breaker is set. *)
Record Strategy : Type := mkStrategy {
  Symbol : string;
  BidMargin : Value;
  AskMargin : Value;
  UseDepthPrice : bool;
  DepthQuantity : Value;
  EnableBollBandMargin : bool;
  BollBandMargin : Value;
  BollBandMarginFactor : Value;
  StopHedgeQuoteBalance : Value;
  StopHedgeBaseBalance : Value;
  Quantity : Value;
  QuantityMultiplier : Value;
  QuantityScale : option (Z -> option Value);
  MaxExposurePosition : Value;
  DisableHedge : bool;
  NumLayers : Z;
  Pips : Value;
  makerMarket : Market;
  sourceMarket : Market;
  CircuitBreaker : bool;
  Position : Value;
  CoveredPosition : Value;
  activeMakerOrders : ActiveOrderBook;
  hedgeErrorRateReservation : option Reservation;
  orderStore : OrderStore;
  askPriceHeartBeat : PriceHeartBeat;
  bidPriceHeartBeat : PriceHeartBeat;
  lastPrice : Value;
  priceSolver : gmap string Value;
  groupID : Z
}.

(** What one call observes of the world around the strategy: the two
    sessions, the streamed source book, the clock as read by the two
    heartbeats, the outcome of the graceful cancel, the circuit breaker,
    the bollinger bands, the reservation taken on a hedge error, and the
    trades the collector has pending when [Process] runs. *)
Record Env : Type := mkEnv {
  makerSession : ExchangeSession;
  sourceSession : ExchangeSession;
  book : SliceOrderBook;
  nowBid : Time;
  nowAsk : Time;
  GracefulCancel : ActiveOrderBook -> ActiveOrderBook * bool;
  IsHalted : bool;
  lastDownBand : Value;
  lastUpBand : Value;
  hedgeErrorLimiterReserve : Reservation;
  pendingTrades : list Trade
}.

(** *** Field updates *)

Definition setQuoting (s : Strategy) (active : ActiveOrderBook)
    (bidHB askHB : PriceHeartBeat) (last : Value) (solver : gmap string Value)
  : Strategy :=
  mkStrategy (Symbol s) (BidMargin s) (AskMargin s) (UseDepthPrice s)
    (DepthQuantity s) (EnableBollBandMargin s) (BollBandMargin s)
    (BollBandMarginFactor s) (StopHedgeQuoteBalance s) (StopHedgeBaseBalance s)
    (Quantity s) (QuantityMultiplier s) (QuantityScale s) (MaxExposurePosition s)
    (DisableHedge s) (NumLayers s) (Pips s) (makerMarket s) (sourceMarket s)
    (CircuitBreaker s) (Position s) (CoveredPosition s) active
    (hedgeErrorRateReservation s) (orderStore s) askHB bidHB last solver
    (groupID s).

Definition setActive (s : Strategy) (active : ActiveOrderBook) : Strategy :=
  setQuoting s active (bidPriceHeartBeat s) (askPriceHeartBeat s) (lastPrice s)
    (priceSolver s).

Definition setOrders (s : Strategy) (store : OrderStore) (active : ActiveOrderBook)
  : Strategy :=
  mkStrategy (Symbol s) (BidMargin s) (AskMargin s) (UseDepthPrice s)
    (DepthQuantity s) (EnableBollBandMargin s) (BollBandMargin s)
    (BollBandMarginFactor s) (StopHedgeQuoteBalance s) (StopHedgeBaseBalance s)
    (Quantity s) (QuantityMultiplier s) (QuantityScale s) (MaxExposurePosition s)
    (DisableHedge s) (NumLayers s) (Pips s) (makerMarket s) (sourceMarket s)
    (CircuitBreaker s) (Position s) (CoveredPosition s) active
    (hedgeErrorRateReservation s) store (askPriceHeartBeat s)
    (bidPriceHeartBeat s) (lastPrice s) (priceSolver s) (groupID s).

Definition setPositions (s : Strategy) (position covered : Value) : Strategy :=
  mkStrategy (Symbol s) (BidMargin s) (AskMargin s) (UseDepthPrice s)
    (DepthQuantity s) (EnableBollBandMargin s) (BollBandMargin s)
    (BollBandMarginFactor s) (StopHedgeQuoteBalance s) (StopHedgeBaseBalance s)
    (Quantity s) (QuantityMultiplier s) (QuantityScale s) (MaxExposurePosition s)
    (DisableHedge s) (NumLayers s) (Pips s) (makerMarket s) (sourceMarket s)
    (CircuitBreaker s) position covered (activeMakerOrders s)
    (hedgeErrorRateReservation s) (orderStore s) (askPriceHeartBeat s)
    (bidPriceHeartBeat s) (lastPrice s) (priceSolver s) (groupID s).

Definition setReservation (s : Strategy) (r : option Reservation) : Strategy :=
  mkStrategy (Symbol s) (BidMargin s) (AskMargin s) (UseDepthPrice s)
    (DepthQuantity s) (EnableBollBandMargin s) (BollBandMargin s)
    (BollBandMarginFactor s) (StopHedgeQuoteBalance s) (StopHedgeBaseBalance s)
    (Quantity s) (QuantityMultiplier s) (QuantityScale s) (MaxExposurePosition s)
    (DisableHedge s) (NumLayers s) (Pips s) (makerMarket s) (sourceMarket s)
    (CircuitBreaker s) (Position s) (CoveredPosition s) (activeMakerOrders s)
    r (orderStore s) (askPriceHeartBeat s) (bidPriceHeartBeat s) (lastPrice s)
    (priceSolver s) (groupID s).

(** *** The trade collector, as the strategy binds it

    Modelled from the spec: the collector folds each pending trade into the
    position and calls the strategy's [OnTrade] callback, which adds the
    trade's position change to [CoveredPosition] when the trade comes from
    the source venue. *)
Definition onTrade (sourceName : string) (s : Strategy) (t : Trade) : Strategy :=
  let c := PositionChange t in
  setPositions s (Add (Position s) c)
    (if String.eqb (tradeExchange t) sourceName
     then Add (CoveredPosition s) c else CoveredPosition s).

Definition Process (env : Env) (s : Strategy) : Strategy :=
  foldl (onTrade (ExchangeName (sourceSession env))) s (pendingTrades env).

(** [orderCreateCallback], the same closure in [updateQuote] and in [Hedge]:
    [s.orderStore.Add(createdOrder); s.activeMakerOrders.Add(createdOrder)]. *)
Definition orderCreateCallback (s : Strategy) (createdOrder : Order) : Strategy :=
  setOrders s (StoreAdd (orderStore s) createdOrder)
    (ActiveAdd (Symbol s) (activeMakerOrders s) createdOrder).

(** [Validate]: [true] when the configuration is accepted ([nil] error). *)
Definition Validate (s : Strategy) : bool :=
  if IsZero (Quantity s) || negb (bool_decide (is_Some (QuantityScale s))) then false
  else if negb (IsZero (QuantityMultiplier s)) && (Sign (QuantityMultiplier s) <? 0)
  then false
  else if (String.length (Symbol s) =? 0)%nat then false
  else true.

(** [Initialize]: both heartbeats are created with [priceUpdateTimeout]. *)
Definition Initialize (s : Strategy) : Strategy :=
  setQuoting s (activeMakerOrders s)
    (NewPriceHeartBeat priceUpdateTimeout) (NewPriceHeartBeat priceUpdateTimeout)
    (lastPrice s) (priceSolver s).

(** A heartbeat is stale for an observation when the observed best price is
    the last one it saw and that one has not changed for more than the
    timeout. *)
Definition stale (b : PriceHeartBeat) (current : PriceVolume) (now : Time) : Prop :=
  (hbLast b == Price current)%Q /\ hbTimeout b < now - hbLastUpdatedTime b.

(** The heartbeat reports stale: [Update] answers with an error. *)
Definition reportsStale (b : PriceHeartBeat) (current : PriceVolume) (now : Time)
  : bool :=
  snd (HeartBeatUpdate b current now).

(** *** updateQuote

    The result of a call: the strategy afterwards, the orders handed to the
    venue ([formattedOrders], empty when the call returns before placing)
    and the orders the venue created.  [None] stands for a division by
    zero somewhere on the way. *)
Record CallResult : Type := mkResult {
  after : Strategy;
  submitted : list SubmitOrder;
  created : list Order
}.

Definition returns (s : Strategy) : option CallResult := Some (mkResult s [] []).

(** The local variables of the balance and exposure gates. *)
Record Gates : Type := mkGates {
  disableMakerBid : bool;
  disableMakerAsk : bool;
  makerQuota : QuotaTransaction;
  hedgeQuota : QuotaTransaction
}.

Definition addBase (t : QuotaTransaction) (fund : Value) : QuotaTransaction :=
  mkQuotaTx (QuotaAdd (BaseAsset t) fund) (QuoteAsset t).

Definition addQuote (t : QuotaTransaction) (fund : Value) : QuotaTransaction :=
  mkQuotaTx (BaseAsset t) (QuotaAdd (QuoteAsset t) fund).

(** "check maker's balance quota" *)
Definition makerBalanceGates (s : Strategy) (makerBalances : BalanceMap) (g : Gates)
  : Gates :=
  let g :=
    match makerBalances !! BaseCurrency (makerMarket s) with
    | Some b =>
        if Compare (Available b) (MinQuantity (makerMarket s)) >? 0
        then mkGates (disableMakerBid g) (disableMakerAsk g)
               (addBase (makerQuota g) (Available b)) (hedgeQuota g)
        else mkGates (disableMakerBid g) true (makerQuota g) (hedgeQuota g)
    | None => g
    end in
  match makerBalances !! QuoteCurrency (makerMarket s) with
  | Some b =>
      if Compare (Available b) (MinNotional (makerMarket s)) >? 0
      then mkGates (disableMakerBid g) (disableMakerAsk g)
             (addQuote (makerQuota g) (Available b)) (hedgeQuota g)
      else mkGates true (disableMakerAsk g) (makerQuota g) (hedgeQuota g)
  | None => g
  end.

(** The balances of the source session, with the stop-hedge reserves. *)
Definition hedgeBalanceGates (s : Strategy) (hedgeBalances : BalanceMap) (g : Gates)
  : Gates :=
  let g :=
    match hedgeBalances !! BaseCurrency (sourceMarket s) with
    | Some b =>
        if Sign (StopHedgeBaseBalance s) >? 0 then
          let minAvailable :=
            Add (StopHedgeBaseBalance s) (MinQuantity (sourceMarket s)) in
          if Compare (Available b) minAvailable >? 0
          then mkGates (disableMakerBid g) (disableMakerAsk g) (makerQuota g)
                 (addBase (hedgeQuota g) (Sub (Available b) minAvailable))
          else mkGates true (disableMakerAsk g) (makerQuota g) (hedgeQuota g)
        else if Compare (Available b) (MinQuantity (sourceMarket s)) >? 0
        then mkGates (disableMakerBid g) (disableMakerAsk g) (makerQuota g)
               (addBase (hedgeQuota g) (Available b))
        else mkGates true (disableMakerAsk g) (makerQuota g) (hedgeQuota g)
    | None => g
    end in
  match hedgeBalances !! QuoteCurrency (sourceMarket s) with
  | Some b =>
      if Sign (StopHedgeQuoteBalance s) >? 0 then
        let minAvailable :=
          Add (StopHedgeQuoteBalance s) (MinNotional (sourceMarket s)) in
        if Compare (Available b) minAvailable >? 0
        then mkGates (disableMakerBid g) (disableMakerAsk g) (makerQuota g)
               (addQuote (hedgeQuota g) (Sub (Available b) minAvailable))
        else mkGates (disableMakerBid g) true (makerQuota g) (hedgeQuota g)
      else if Compare (Available b) (MinNotional (sourceMarket s)) >? 0
      then mkGates (disableMakerBid g) (disableMakerAsk g) (makerQuota g)
             (addQuote (hedgeQuota g) (Available b))
      else mkGates (disableMakerBid g) true (makerQuota g) (hedgeQuota g)
  | None => g
  end.

(** "if max exposure position is configured, we should not: 1. place bid
    orders when we already bought too much 2. place ask orders when we
    already sold too much" *)
Definition exposureGates (s : Strategy) (g : Gates) : Gates :=
  if Sign (MaxExposurePosition s) >? 0 then
    let pos := Position s in
    if Compare pos (Neg (MaxExposurePosition s)) >? 0
    then (* stop sell if we over-sell *)
      mkGates (disableMakerBid g) true (makerQuota g) (hedgeQuota g)
    else if Compare pos (MaxExposurePosition s) >? 0
    then (* stop buy if we over buy *)
      mkGates true (disableMakerAsk g) (makerQuota g) (hedgeQuota g)
    else g
  else g.

(** The margins and pips after the bollinger adjustment.  The inner [None]
    is the early return on a zero band. *)
Definition bollBandMargins (s : Strategy) (env : Env) (bestBidPrice bestAskPrice : Value)
  : option (option (Value * Value * Value)) :=
  let bidMargin := BidMargin s in
  let askMargin := AskMargin s in
  let pips := Pips s in
  if EnableBollBandMargin s then
    if IsZero (lastUpBand env) || IsZero (lastDownBand env) then Some None
    else
      '(askMargin, pips) ←
        (if Compare bestBidPrice (lastDownBand env) <? 0 then
           ratio ← Div (lastDownBand env) bestBidPrice;
           let bollMargin :=
             Mul (Mul (BollBandMargin s) ratio) (BollBandMarginFactor s) in
           Some (Add askMargin bollMargin, Mul pips ratio)
         else Some (askMargin, pips));
      '(bidMargin, pips) ←
        (if Compare bestAskPrice (lastUpBand env) >? 0 then
           ratio ← Div bestAskPrice (lastUpBand env);
           let bollMargin :=
             Mul (Mul (BollBandMargin s) ratio) (BollBandMarginFactor s) in
           Some (Add bidMargin bollMargin, Mul pips ratio)
         else Some (bidMargin, pips));
      Some (Some (bidMargin, askMargin, pips))
  else Some (Some (bidMargin, askMargin, pips)).

(** The local variables of the layer loop. *)
Record Layers : Type := mkLayers {
  layerMakerQuota : QuotaTransaction;
  layerHedgeQuota : QuotaTransaction;
  submitOrders : list SubmitOrder;
  accumulativeBidQuantity : Value;
  accumulativeAskQuantity : Value;
  bidQuantity : Value;
  askQuantity : Value;
  bidPrice : Value;
  askPrice : Value
}.

(** [a.Lock(x) && b.Lock(y)]: the second lock is only tried when the first
    one succeeds. *)
Definition lockBoth (a : Quota) (x : Value) (b : Quota) (y : Value)
  : Quota * Quota * bool :=
  let '(a', ok) := QuotaLock a x in
  if ok then let '(b', ok') := QuotaLock b y in (a', b', ok') else (a', b, false).

(** The quantity of layer [i] on one side: the scale overrides the running
    quantity; the inner [None] is the early return on a scale error. *)
Definition layerQuantity (s : Strategy) (i : Z) (running : Value) : option Value :=
  match QuantityScale s with
  | Some scale => scale (i + 1)
  | None => Some running
  end.

Definition depthPrice (s : Strategy) (side : PriceVolumeSlice)
    (accumulative current : Value) : option Value :=
  if UseDepthPrice s then
    if Sign (DepthQuantity s) >? 0
    then aggregatePrice side (DepthQuantity s)
    else aggregatePrice side accumulative
  else Some current.

Definition multiplied (s : Strategy) (quantity : Value) : Value :=
  if Sign (QuantityMultiplier s) >? 0
  then Mul quantity (QuantityMultiplier s) else quantity.

(** "for maker bid orders" *)
Definition bidLayer (s : Strategy) (sourceBook : SliceOrderBook)
    (bidMargin pips : Value) (i : Z) (v : Layers) : option (option Layers) :=
  match layerQuantity s i (bidQuantity v) with
  | None => Some None
  | Some bidQuantity =>
      let accumulativeBidQuantity := Add (accumulativeBidQuantity v) bidQuantity in
      bidPrice ← depthPrice s (Bids sourceBook) accumulativeBidQuantity (bidPrice v);
      let bidPrice := Mul bidPrice (Sub One bidMargin) in
      let bidPrice :=
        if (i >? 0) && (Sign pips >? 0)
        then Sub bidPrice (Mul pips (Mul (NewFromInt i) (TickSize (makerMarket s))))
        else bidPrice in
      let '(mq, hq, ok) :=
        lockBoth (QuoteAsset (layerMakerQuota v)) (Mul bidQuantity bidPrice)
                 (BaseAsset (layerHedgeQuota v)) bidQuantity in
      let makerQuota := mkQuotaTx (BaseAsset (layerMakerQuota v)) mq in
      let hedgeQuota := mkQuotaTx hq (QuoteAsset (layerHedgeQuota v)) in
      let order :=
        mkSubmitOrder (Symbol s) None OrderTypeLimit SideTypeBuy bidPrice
          bidQuantity "GTC" (groupID s) "" in
      Some (Some
        (mkLayers
           (if ok then Commit makerQuota else Rollback makerQuota)
           (if ok then Commit hedgeQuota else Rollback hedgeQuota)
           (if ok then submitOrders v ++ [order] else submitOrders v)
           accumulativeBidQuantity (accumulativeAskQuantity v)
           (multiplied s bidQuantity) (askQuantity v) bidPrice (askPrice v)))
  end.

(** "for maker ask orders" *)
Definition askLayer (s : Strategy) (sourceBook : SliceOrderBook)
    (askMargin pips : Value) (i : Z) (v : Layers) : option (option Layers) :=
  match layerQuantity s i (askQuantity v) with
  | None => Some None
  | Some askQuantity =>
      let accumulativeAskQuantity := Add (accumulativeAskQuantity v) askQuantity in
      askPrice ← depthPrice s (Asks sourceBook) accumulativeAskQuantity (askPrice v);
      let askPrice := Mul askPrice (Add One askMargin) in
      let askPrice :=
        if (i >? 0) && (Sign pips >? 0)
        then Add askPrice (Mul pips (Mul (NewFromInt i) (TickSize (makerMarket s))))
        else askPrice in
      let '(mq, hq, ok) :=
        lockBoth (BaseAsset (layerMakerQuota v)) askQuantity
                 (QuoteAsset (layerHedgeQuota v)) (Mul askQuantity askPrice) in
      let makerQuota := mkQuotaTx mq (QuoteAsset (layerMakerQuota v)) in
      let hedgeQuota := mkQuotaTx (BaseAsset (layerHedgeQuota v)) hq in
      let order :=
        mkSubmitOrder (Symbol s) (Some (makerMarket s)) OrderTypeLimit SideTypeSell
          askPrice askQuantity "GTC" (groupID s) "" in
      Some (Some
        (mkLayers
           (if ok then Commit makerQuota else Rollback makerQuota)
           (if ok then Commit hedgeQuota else Rollback hedgeQuota)
           (if ok then submitOrders v ++ [order] else submitOrders v)
           (accumulativeBidQuantity v) accumulativeAskQuantity
           (bidQuantity v) (multiplied s askQuantity) (bidPrice v) askPrice))
  end.

(** [for i := 0; i < s.NumLayers; i++]: [n] iterations are left, the next
    one has index [i]. *)
Fixpoint layerLoop (s : Strategy) (sourceBook : SliceOrderBook) (g : Gates)
    (bidMargin askMargin pips : Value) (n : nat) (i : Z) (v : Layers)
  : option (option Layers) :=
  match n with
  | O => Some (Some v)
  | S n' =>
      afterBid ← (if disableMakerBid g then Some (Some v)
                  else bidLayer s sourceBook bidMargin pips i v);
      match afterBid with
      | None => Some None
      | Some v =>
          afterAsk ← (if disableMakerAsk g then Some (Some v)
                      else askLayer s sourceBook askMargin pips i v);
          match afterAsk with
          | None => Some None
          | Some v =>
              layerLoop s sourceBook g bidMargin askMargin pips n' (i + 1) v
          end
      end
  end.

Definition updateQuote (env : Env) (s : Strategy) : option CallResult :=
  let '(active, cancelErr) := GracefulCancel env (activeMakerOrders s) in
  let s := setActive s active in
  if cancelErr then returns s
  else if (0 <? NumOfOrders (activeMakerOrders s))%nat then returns s
  else if CircuitBreaker s && IsHalted env then returns s
  else
    match BestBidAndAsk (book env) with
    | None => returns s
    | Some (bestBid, bestAsk) =>
        (* use mid-price for the last price *)
        last ← Div (Add (Price bestBid) (Price bestAsk)) two;
        let solver := <[Symbol s := last]> (priceSolver s) in
        let '(bidHB, bidErr) :=
          HeartBeatUpdate (bidPriceHeartBeat s) bestBid (nowBid env) in
        let s :=
          setQuoting s (activeMakerOrders s) bidHB (askPriceHeartBeat s) last solver in
        if bidErr then returns s
        else
          let '(askHB, askErr) :=
            HeartBeatUpdate (askPriceHeartBeat s) bestAsk (nowAsk env) in
          let s :=
            setQuoting s (activeMakerOrders s) (bidPriceHeartBeat s) askHB
              (lastPrice s) (priceSolver s) in
          if askErr then returns s
          else
            let sourceBook := CopyDepth (book env) 10 in
            if negb (IsValid sourceBook) then returns s
            else
              let g := mkGates false false emptyQuotaTx emptyQuotaTx in
              let g := makerBalanceGates s (Balances (makerSession env)) g in
              let g := hedgeBalanceGates s (Balances (sourceSession env)) g in
              let g := exposureGates s g in
              if disableMakerAsk g && disableMakerBid g then returns s
              else
                margins ← bollBandMargins s env (Price bestBid) (Price bestAsk);
                match margins with
                | None => returns s
                | Some (bidMargin, askMargin, pips) =>
                    layers ←
                      layerLoop s sourceBook g bidMargin askMargin pips
                        (Z.to_nat (NumLayers s)) 0
                        (mkLayers (makerQuota g) (hedgeQuota g) [] Zero Zero
                           (Quantity s) (Quantity s)
                           (Price bestBid) (Price bestAsk));
                    match layers with
                    | None => returns s
                    | Some v =>
                        match submitOrders v with
                        | [] => returns s
                        | _ =>
                            match FormatOrders (makerSession env) (submitOrders v) with
                            | None => returns s
                            | Some formattedOrders =>
                                let '(s, createdOrders, _) :=
                                  BatchPlaceOrder (makerSession env)
                                    orderCreateCallback s formattedOrders in
                                (* defer s.tradeCollector.Process() *)
                                Some (mkResult (Process env s) formattedOrders
                                        createdOrders)
                            end
                        end
                    end
                end
    end.

(** *** Hedge

    [hedgeOrders] is the body of [Hedge]; its boolean tells whether
    [defer s.tradeCollector.Process()] had been reached when the body
    returned. *)
Definition hedgeSide (pos : Value) : SideType :=
  if Sign pos <? 0 then SideTypeSell else SideTypeBuy.

Definition hedgePrice (env : Env) (s : Strategy) (side : SideType) : Value :=
  let sourceBook := CopyDepth (book env) 1 in
  match side with
  | SideTypeBuy =>
      match BestAsk sourceBook with
      | Some bestAsk => Price bestAsk
      | None => lastPrice s
      end
  | SideTypeSell =>
      match BestBid sourceBook with
      | Some bestBid => Price bestBid
      | None => lastPrice s
      end
  end.

(** "adjust quantity according to the balances" *)
Definition adjustToBalances (env : Env) (s : Strategy) (side : SideType)
    (quantity lastPrice notional : Value) : option Value :=
  match side with
  | SideTypeBuy =>
      match Balances (sourceSession env) !! QuoteCurrency (sourceMarket s) with
      | Some quote =>
          if Compare (Available quote) notional <? 0 then
            (* adjust price to higher 0.1%, so that we can ensure that the
               order can be executed *)
            quantity ← AdjustQuantityByMaxAmount quantity
                         (Mul lastPrice lastPriceModifier) (Available quote);
            Some (TruncateQuantity (sourceMarket s) quantity)
          else Some quantity
      | None => Some quantity
      end
  | SideTypeSell =>
      match Balances (sourceSession env) !! BaseCurrency (sourceMarket s) with
      | Some base =>
          if Compare (Available base) quantity <? 0
          then Some (Available base) else Some quantity
      | None => Some quantity
      end
  end.

Definition hedgeOrder (s : Strategy) (side : SideType) (quantity : Value)
  : SubmitOrder :=
  mkSubmitOrder (Symbol s) (Some (sourceMarket s)) OrderTypeMarket side Zero
    quantity "" 0 "MARGIN_BUY".

(** The hedge-error reservation: [None] when the reservation is not OK and
    [Hedge] returns, otherwise the strategy once the delay has been waited
    for and the reservation dropped. *)
Definition waitReservation (s : Strategy) : option Strategy :=
  match hedgeErrorRateReservation s with
  | Some r => if reservationOK r then Some (setReservation s None) else None
  | None => Some s
  end.

Definition hedgeOrders (env : Env) (s : Strategy) (pos : Value)
  : option (CallResult * bool) :=
  let stop (s : Strategy) := Some (mkResult s [] [], false) in
  if IsZero pos then stop s
  else
    let quantity := Abs pos in
    let side := hedgeSide pos in
    let lastPrice := hedgePrice env s side in
    let notional := Mul quantity lastPrice in
    if Compare notional (MinNotional (sourceMarket s)) <=? 0 then stop s
    else
      quantity ← adjustToBalances env s side quantity lastPrice notional;
      (* truncate quantity for the supported precision *)
      let quantity := TruncateQuantity (sourceMarket s) quantity in
      if Compare notional (Mul (MinNotional (sourceMarket s)) minGap) <=? 0
      then stop s
      else if Compare quantity (Mul (MinQuantity (sourceMarket s)) minGap) <=? 0
      then stop s
      else
        match waitReservation s with
        | None => stop s
        | Some s =>
            match FormatOrders (sourceSession env) [hedgeOrder s side quantity] with
            | None => stop s
            | Some formattedOrders =>
                (* defer s.tradeCollector.Process() *)
                let '(s, createdOrders, err) :=
                  BatchPlaceOrder (sourceSession env) orderCreateCallback s
                    formattedOrders in
                if err then
                  Some (mkResult
                          (setReservation s (Some (hedgeErrorLimiterReserve env)))
                          formattedOrders createdOrders, true)
                else
                  (* if it's selling, then we should add a positive position *)
                  let covered :=
                    match side with
                    | SideTypeSell => Add (CoveredPosition s) quantity
                    | SideTypeBuy => Add (CoveredPosition s) (Neg quantity)
                    end in
                  Some (mkResult (setPositions s (Position s) covered)
                          formattedOrders createdOrders, true)
            end
        end.

Definition Hedge (env : Env) (s : Strategy) (pos : Value) : option CallResult :=
  '(r, deferred) ← hedgeOrders env s pos;
  Some (if deferred : bool
        then mkResult (Process env (after r)) (submitted r) (created r)
        else r).

(** *** One tick of hedgeWorker

    [env] is the world when the tick drains the collector, [env'] the world
    as the call of [Hedge] finds it. *)
Definition uncoverPosition (s : Strategy) : Value :=
  Sub (Position s) (CoveredPosition s).

Definition hedgeWorkerTick (env env' : Env) (s : Strategy) : option CallResult :=
  let s := Process env s in
  let absPos := Abs (uncoverPosition s) in
  if negb (DisableHedge s) && (Compare absPos (MinQuantity (sourceMarket s)) >? 0)
  then Hedge env' s (Neg (uncoverPosition s))
  else returns s.

(** *** Vocabulary for the hedging tick *)

(** The notional [Hedge] tests: the magnitude of the position at the source
    price of the hedge side. *)
Definition hedgeNotional (env : Env) (s : Strategy) (pos : Value) : Value :=
  Mul (Abs pos) (hedgePrice env s (hedgeSide pos)).

(** The quantity [Hedge] asks the source venue for: the magnitude of the
    position, cut to the balance of the source account and truncated to the
    step of the source market. *)
Definition hedgeQuantity (env : Env) (s : Strategy) (pos : Value) : option Value :=
  quantity ← adjustToBalances env s (hedgeSide pos) (Abs pos)
                (hedgePrice env s (hedgeSide pos)) (hedgeNotional env s pos);
  Some (TruncateQuantity (sourceMarket s) quantity).

(** What a created hedge order adds to the covered position. *)
Definition coverChange (side : SideType) (quantity : Value) : Value :=
  match side with
  | SideTypeSell => quantity
  | SideTypeBuy => Neg quantity
  end.

(** *** Vocabulary for the quoting tick *)

(** The gates of a tick: balances of both sessions, then the exposure. *)
Definition quoteGates (env : Env) (s : Strategy) : Gates :=
  exposureGates s
    (hedgeBalanceGates s (Balances (sourceSession env))
       (makerBalanceGates s (Balances (makerSession env))
          (mkGates false false emptyQuotaTx emptyQuotaTx))).

(** The local variables the layer loop starts from. *)
Definition firstLayer (s : Strategy) (g : Gates) (bestBid bestAsk : PriceVolume)
  : Layers :=
  mkLayers (makerQuota g) (hedgeQuota g) [] Zero Zero (Quantity s) (Quantity s)
    (Price bestBid) (Price bestAsk).

(** The shape of an order the layer loop builds. *)
Definition makerOrder (s : Strategy) (o : SubmitOrder) : Prop :=
  soSymbol o = Symbol s /\ soType o = OrderTypeLimit
  /\ soTimeInForce o = "GTC" /\ soGroupID o = groupID s
  /\ soMarginSideEffect o = "".

(** The side of an order is one the gates have left open. *)
Definition sideOpen (g : Gates) (o : SubmitOrder) : Prop :=
  match soSide o with
  | SideTypeBuy => disableMakerBid g = false
  | SideTypeSell => disableMakerAsk g = false
  end.

(** An order formatted by a session: the market of the symbol attached,
    nothing else touched. *)
Definition formatted (session : ExchangeSession) (o o' : SubmitOrder) : Prop :=
  soSymbol o' = soSymbol o /\ soType o' = soType o /\ soSide o' = soSide o
  /\ soPrice o' = soPrice o /\ soQuantity o' = soQuantity o
  /\ soTimeInForce o' = soTimeInForce o /\ soGroupID o' = soGroupID o
  /\ soMarginSideEffect o' = soMarginSideEffect o
  /\ soMarket o' = sessionMarkets session !! soSymbol o
  /\ is_Some (soMarket o').

(** The balance a side of the source account must exceed: the market's
    minimum, on top of the stop-hedge reserve when one is configured. *)
Definition hedgeFloor (stop minimum : Value) : Value :=
  if Sign stop >? 0 then Add stop minimum else minimum.

Definition lacksMakerBase (env : Env) (s : Strategy) : Prop :=
  exists b, Balances (makerSession env) !! BaseCurrency (makerMarket s) = Some b
    /\ (Available b <= MinQuantity (makerMarket s))%Q.

Definition lacksMakerQuote (env : Env) (s : Strategy) : Prop :=
  exists b, Balances (makerSession env) !! QuoteCurrency (makerMarket s) = Some b
    /\ (Available b <= MinNotional (makerMarket s))%Q.

Definition lacksSourceBase (env : Env) (s : Strategy) : Prop :=
  exists b, Balances (sourceSession env) !! BaseCurrency (sourceMarket s) = Some b
    /\ (Available b
        <= hedgeFloor (StopHedgeBaseBalance s) (MinQuantity (sourceMarket s)))%Q.

Definition lacksSourceQuote (env : Env) (s : Strategy) : Prop :=
  exists b, Balances (sourceSession env) !! QuoteCurrency (sourceMarket s) = Some b
    /\ (Available b
        <= hedgeFloor (StopHedgeQuoteBalance s) (MinNotional (sourceMarket s)))%Q.

(** An order built by the loop over the layers [i], ..., [i + n - 1] under
    the gates [g]: its quantity is what [layerQuantity] answers for one of
    these layers. *)
Definition layerOrder (s : Strategy) (g : Gates) (i : Z) (n : nat)
    (o : SubmitOrder) : Prop :=
  makerOrder s o /\ sideOpen g o
  /\ exists k running,
       i <= k < i + Z.of_nat n /\ layerQuantity s k running = Some (soQuantity o).

(** *** Vocabulary for the hedging tick *)

(** The position changes of the trades a venue reports, summed. *)
Definition venueChange (keep : Trade -> bool) (trades : list Trade) : Value :=
  foldr (fun t acc => (if keep t then PositionChange t + acc else acc)%Q) 0%Q trades.

Definition fromSource (env : Env) (t : Trade) : bool :=
  String.eqb (tradeExchange t) (ExchangeName (sourceSession env)).

(** *** Defaults

    The fields of [Strategy] that [Defaults] reads or writes besides those
    of the record above. *)
Record Intervals : Type := mkIntervals {
  Margin : Value;
  UpdateInterval : Duration;
  HedgeInterval : Duration;
  BollBandInterval : string
}.

Definition defaultMargin : Value := (3 # 1000)%Q.

(** [types.Interval1m]; its declaration is not among the files embedded
    here, the one-minute interval is written "1m" in [CrossSubscribe]. *)
Definition Interval1m : string := "1m".

Definition setDefaults (s : Strategy) (bollMargin bollFactor : Value)
    (numLayers : Z) (bidMargin askMargin : Value) (breaker : bool) : Strategy :=
  mkStrategy (Symbol s) bidMargin askMargin (UseDepthPrice s)
    (DepthQuantity s) (EnableBollBandMargin s) bollMargin bollFactor
    (StopHedgeQuoteBalance s) (StopHedgeBaseBalance s)
    (Quantity s) (QuantityMultiplier s) (QuantityScale s) (MaxExposurePosition s)
    (DisableHedge s) numLayers (Pips s) (makerMarket s) (sourceMarket s)
    breaker (Position s) (CoveredPosition s) (activeMakerOrders s)
    (hedgeErrorRateReservation s) (orderStore s) (askPriceHeartBeat s)
    (bidPriceHeartBeat s) (lastPrice s) (priceSolver s) (groupID s).

(** [Defaults]; the three rate limiters it creates are not part of the
    records. *)
Definition Defaults (c : Intervals * Strategy) : Intervals * Strategy :=
  let '(t, s) := c in
  let bollBandInterval :=
    if String.eqb (BollBandInterval t) "" then Interval1m else BollBandInterval t in
  let bollFactor :=
    if IsZero (BollBandMarginFactor s) then One else BollBandMarginFactor s in
  let bollMargin :=
    if IsZero (BollBandMargin s) then (1 # 1000)%Q else BollBandMargin s in
  let updateInterval :=
    if UpdateInterval t =? 0 then Second else UpdateInterval t in
  let hedgeInterval :=
    if HedgeInterval t =? 0 then 10 * Second else HedgeInterval t in
  let numLayers := if NumLayers s =? 0 then 1 else NumLayers s in
  let bidMargin :=
    if IsZero (BidMargin s)
    then (if negb (IsZero (Margin t)) then Margin t else defaultMargin)
    else BidMargin s in
  let askMargin :=
    if IsZero (AskMargin s)
    then (if negb (IsZero (Margin t)) then Margin t else defaultMargin)
    else AskMargin s in
  (mkIntervals (Margin t) updateInterval hedgeInterval bollBandInterval,
   setDefaults s bollMargin bollFactor numLayers bidMargin askMargin true).

(** No field that [Defaults] fills is left at its zero value. *)
Definition defaulted (c : Intervals * Strategy) : Prop :=
  IsZero (BidMargin c.2) = false /\ IsZero (AskMargin c.2) = false
  /\ IsZero (BollBandMargin c.2) = false
  /\ IsZero (BollBandMarginFactor c.2) = false
  /\ NumLayers c.2 <> 0 /\ UpdateInterval c.1 <> 0 /\ HedgeInterval c.1 <> 0
  /\ BollBandInterval c.1 <> "" /\ CircuitBreaker c.2 = true.

End xmaker.

(** ** pkg/exchange/coinbase: the sequence cursor of the stream *)

Module coinbase.

(** [MessageType] is a string type.  Its declaration and that of
    [SequenceNumberType] are not among the files embedded here; sequence
    numbers are unsigned and only ever compared, so they are taken in [N]. *)
Definition MessageType : Type := string.
Definition SequenceNumberType : Type := N.

(** The fields of [TickerMessage] read by the handler. *)
Record TickerMessage : Type := mkTicker {
  Type_ : MessageType;
  ProductID : string;
  Sequence : SequenceNumberType
}.

(** The part of [Stream] the handler touches: the cursor map, and the trade
    updates emitted so far ([EmitTradeUpdate]), oldest first.  A trade
    update is recorded as the message it was made from. *)
Record Stream : Type := mkStream {
  lastSequenceMsgMap : gmap string SequenceNumberType;
  tradeUpdates : list TickerMessage
}.

(** [key := fmt.Sprintf("%s-%s", msgType, productId)] *)
Definition sequenceKey (msgType : MessageType) (productId : string) : string :=
  msgType +:+ "-" +:+ productId.

(** Reading a Go map at a missing key yields the zero value. *)
Definition latestSeq (s : Stream) (key : string) : SequenceNumberType :=
  default 0%N (lastSequenceMsgMap s !! key).

Definition checkAndUpdateSequenceNumber (s : Stream) (msgType : MessageType)
    (productId : string) (currentSeqNum : SequenceNumberType) : Stream * bool :=
  let key := sequenceKey msgType productId in
  if (currentSeqNum <=? latestSeq s key)%N
  then (s, false)
  else (mkStream (<[key := currentSeqNum]> (lastSequenceMsgMap s)) (tradeUpdates s),
        true).

Definition EmitTradeUpdate (s : Stream) (msg : TickerMessage) : Stream :=
  mkStream (lastSequenceMsgMap s) (tradeUpdates s ++ [msg]).

Definition handleTickerMessage (s : Stream) (msg : TickerMessage) : Stream :=
  let '(s', ok) :=
    checkAndUpdateSequenceNumber s (Type_ msg) (ProductID msg) (Sequence msg) in
  if ok then EmitTradeUpdate s' msg else s'.

(** [clearSequenceNumber], and a stream that has emitted nothing yet. *)
Definition clearSequenceNumber (s : Stream) : Stream :=
  mkStream ∅ (tradeUpdates s).

Definition newStream : Stream := mkStream ∅ [].

(** The stream after a run of ticker messages, delivered in order. *)
Definition deliver (s : Stream) (msgs : list TickerMessage) : Stream :=
  foldl handleTickerMessage s msgs.

(** *** Vocabulary of the specification *)

Definition keyOf (msg : TickerMessage) : string :=
  sequenceKey (Type_ msg) (ProductID msg).

Definition forKey (key : string) (msgs : list TickerMessage) : list TickerMessage :=
  filter (fun m => keyOf m = key) msgs.

(** "the largest sequence number seen" for a key among delivered messages. *)
Definition largestSeen (key : string) (msgs : list TickerMessage)
  : SequenceNumberType :=
  foldr N.max 0%N (Sequence <$> forKey key msgs).

(** The sequence numbers processed for a key, in processing order. *)
Definition processedSeqs (key : string) (s : Stream) : list SequenceNumberType :=
  Sequence <$> forKey key (tradeUpdates s).

(** A message type without a dash, as the message types of the feed are
    ("ticker", "match", "received", ...). *)
Fixpoint dashFree (msgType : MessageType) : bool :=
  match msgType with
  | EmptyString => true
  | String c rest => negb (Ascii.eqb c "-"%char) && dashFree rest
  end.

(** What has been processed for a key is increasing and bounded by the
    cursor of that key. *)
Definition cursorInvariant (s : Stream) : Prop :=
  forall key,
    StronglySorted N.lt (processedSeqs key s)
    /\ Forall (fun n => (n <= latestSeq s key)%N) (processedSeqs key s).

(** Two streams that agree on one key: same cursor, same processed
    messages for that key. *)
Definition agreeOn (key : string) (s1 s2 : Stream) : Prop :=
  latestSeq s1 key = latestSeq s2 key
  /\ forKey key (tradeUpdates s1) = forKey key (tradeUpdates s2).

(** *** Cursors by (message type, product) pair

    The specification speaks of pairs, the code of the key formatted from
    a pair. *)
Definition pairOf (msg : TickerMessage) : MessageType * string :=
  (Type_ msg, ProductID msg).

Definition forPair (pair : MessageType * string) (msgs : list TickerMessage)
  : list TickerMessage :=
  filter (fun m => pairOf m = pair) msgs.

(** The cursor the stream holds for a pair. *)
Definition cursorOf (s : Stream) (pair : MessageType * string)
  : SequenceNumberType :=
  latestSeq s (sequenceKey pair.1 pair.2).

(** The largest sequence number among the delivered messages of a pair,
    0 when there is none. *)
Definition largestSeenOf (pair : MessageType * string) (msgs : list TickerMessage)
  : SequenceNumberType :=
  foldr N.max 0%N (Sequence <$> forPair pair msgs).

Definition processedOf (pair : MessageType * string) (s : Stream)
  : list SequenceNumberType :=
  Sequence <$> forPair pair (tradeUpdates s).

(** The handler accepts a message: it emits the trade update. *)
Definition accepted (s : Stream) (msg : TickerMessage) : Prop :=
  tradeUpdates (handleTickerMessage s msg) = tradeUpdates s ++ [msg].

(** Every message type is free of dashes. *)
Definition dashFreeTypes (msgs : list TickerMessage) : Prop :=
  Forall (fun m => dashFree (Type_ m) = true) msgs.

(** The sequence cursor as the specification words it: after any messages,
    the next one is accepted exactly when its sequence number exceeds that
    of every earlier message of its own pair. *)
Definition sequenceCursorPerPair : Prop :=
  forall (msgs : list TickerMessage) (msg : TickerMessage),
    accepted (deliver newStream msgs) msg
    <-> Forall (fun m => (Sequence m < Sequence msg)%N) (forPair (pairOf msg) msgs).

(** Messages of three pairs, one of them out of order. *)
Definition sampleFeed : list TickerMessage :=
  [ mkTicker "ticker" "BTC-USD" 5%N; mkTicker "match" "BTC-USD" 9%N;
    mkTicker "ticker" "BTC-USD" 3%N; mkTicker "ticker" "ETH-USD" 1%N;
    mkTicker "ticker" "BTC-USD" 6%N ].

(** *** The order handlers of the user stream

    The fields of [types.Order] the stream layer reads or writes; a field a
    handler does not set keeps Go's zero value ([None] for the type and the
    status). *)
Inductive OrderKind : Type := KindLimit | KindMarket | KindStopLimit.

Inductive OrderStatus : Type :=
  OrderStatusNew | OrderStatusFilled | OrderStatusCanceled.

Record Order : Type := mkOrder {
  Symbol : string;
  Side : types.SideType;
  Kind : option OrderKind;
  Price : fixedpoint.Value;
  Quantity : fixedpoint.Value;
  ExecutedQuantity : fixedpoint.Value;
  Status : option OrderStatus;
  UUID : string;
  IsWorking : bool;
  UpdateTime : Z
}.

(** Helpers of the package, of [types] and of [fixedpoint] whose code is not
    among the files embedded here: the symbol and side conversions,
    [types.Order.Update], and the parser of decimal strings ([None] where
    [fixedpoint.MustNewFromString] panics).  Nothing is assumed of them. *)
Class Conversions : Type := {
  toGlobalSymbol : string -> string;
  toLocalSymbol : string -> string;
  toGlobalSide : string -> types.SideType;
  OrderUpdate : Order -> Order -> Order;
  NewFromString : string -> option fixedpoint.Value
}.

(** The fields of the feed messages the handlers read. *)
Record ReceivedMessage : Type := mkReceived {
  rcvType : MessageType; rcvProductID : string; rcvSequence : SequenceNumberType;
  rcvOrderID : string; rcvOrderType : string; rcvSide : string;
  rcvPrice : fixedpoint.Value; rcvSize : fixedpoint.Value; rcvTime : Z
}.

Record OpenMessage : Type := mkOpen {
  opnType : MessageType; opnProductID : string; opnSequence : SequenceNumberType;
  opnOrderID : string; opnSide : string; opnPrice : fixedpoint.Value;
  opnRemainingSize : fixedpoint.Value; opnTime : Z
}.

Record DoneMessage : Type := mkDone {
  donType : MessageType; donProductID : string; donSequence : SequenceNumberType;
  donOrderID : string; donSide : string; donPrice : fixedpoint.Value;
  donRemainingSize : fixedpoint.Value; donReason : string; donTime : Z
}.

Record ChangeMessage : Type := mkChange {
  chgType : MessageType; chgProductID : string; chgSequence : SequenceNumberType;
  chgOrderID : string; chgSide : string; chgNewPrice : fixedpoint.Value;
  chgNewSize : fixedpoint.Value; chgTime : Z
}.

(** The stream as the order handlers see it: the cursor map (with the trade
    updates) of above, the cache of working orders, the order updates
    emitted so far ([EmitOrderUpdate]), oldest first, and [userOrderOnly]. *)
Record UserStream : Type := mkUserStream {
  cursor : Stream;
  workingOrdersMap : gmap string Order;
  orderUpdates : list Order;
  userOrderOnly : bool
}.

Definition checkSequence (us : UserStream) (msgType : MessageType)
    (productId : string) (seq : SequenceNumberType) : UserStream * bool :=
  let '(c, ok) := checkAndUpdateSequenceNumber (cursor us) msgType productId seq in
  (mkUserStream c (workingOrdersMap us) (orderUpdates us) (userOrderOnly us), ok).

Definition EmitOrderUpdate (us : UserStream) (o : Order) : UserStream :=
  mkUserStream (cursor us) (workingOrdersMap us) (orderUpdates us ++ [o])
    (userOrderOnly us).

(** One turn of the loop of [updateWorkingOrders]. *)
Definition updateWorkingOrder `{Conversions} (m : gmap string Order) (order : Order)
  : gmap string Order :=
  match m !! UUID order with
  | Some existing =>
      if negb (IsWorking order)
      then delete (UUID order) m
      else <[UUID order := OrderUpdate existing order]> m
  | None => <[UUID order := order]> m
  end.

Definition updateWorkingOrders `{Conversions} (us : UserStream) (orders : list Order)
  : UserStream :=
  mkUserStream (cursor us) (foldl updateWorkingOrder (workingOrdersMap us) orders)
    (orderUpdates us) (userOrderOnly us).

Definition getOrderById (us : UserStream) (orderId : string) : option Order :=
  workingOrdersMap us !! orderId.

Definition clearWorkingOrders (us : UserStream) : UserStream :=
  mkUserStream (cursor us) ∅ (orderUpdates us) (userOrderOnly us).

(** [retrieveOrderById]; [query] is the answer of [exchange.QueryOrder],
    [None] for an error. *)
Definition retrieveOrderById `{Conversions} (query : string -> option Order)
    (us : UserStream) (orderId : string) : UserStream * option Order :=
  if negb (userOrderOnly us) then (us, None)
  else
    match query orderId with
    | None => (us, None)
    | Some order => (updateWorkingOrders us [order], Some order)
    end.

(** The order a handler works from: the cached one, or the one retrieved
    through the API. *)
Definition lastOrderOf `{Conversions} (query : string -> option Order)
    (us : UserStream) (orderId : string) : UserStream * option Order :=
  match getOrderById us orderId with
  | Some lastOrder => (us, Some lastOrder)
  | None => retrieveOrderById query us orderId
  end.

Definition handleReceivedMessage `{Conversions} (us : UserStream)
    (msg : ReceivedMessage) : UserStream :=
  let '(us, ok) :=
    checkSequence us (rcvType msg) (rcvProductID msg) (rcvSequence msg) in
  if negb ok then us
  else if String.eqb (rcvOrderType msg) "stop" then us
  else
    let orderUpdate (kind : OrderKind) (price quantity : fixedpoint.Value) :=
      mkOrder (toGlobalSymbol (rcvProductID msg)) (toGlobalSide (rcvSide msg))
        (Some kind) price quantity fixedpoint.Zero (Some OrderStatusNew)
        (rcvOrderID msg) true (rcvTime msg) in
    let place (o : Order) := EmitOrderUpdate (updateWorkingOrders us [o]) o in
    if String.eqb (rcvOrderType msg) "limit"
    then place (orderUpdate KindLimit (rcvPrice msg) (rcvSize msg))
    else if String.eqb (rcvOrderType msg) "market"
    then
      if fixedpoint.IsZero (rcvSize msg) then us
      else place (orderUpdate KindMarket fixedpoint.Zero (rcvSize msg))
    else us.

Definition handleOpenMessage `{Conversions} (query : string -> option Order)
    (us : UserStream) (msg : OpenMessage) : UserStream :=
  let '(us, ok) :=
    checkSequence us (opnType msg) (opnProductID msg) (opnSequence msg) in
  if negb ok then us
  else
    match lastOrderOf query us (opnOrderID msg) with
    | (us, None) => us
    | (us, Some lastOrder) =>
        let amountExecuted :=
          fixedpoint.Sub (Quantity lastOrder) (opnRemainingSize msg) in
        EmitOrderUpdate us
          (mkOrder (toGlobalSymbol (opnProductID msg)) (toGlobalSide (opnSide msg))
             None (opnPrice msg) (Quantity lastOrder) amountExecuted
             (Some OrderStatusNew) (opnOrderID msg) true (opnTime msg))
    end.

Definition doneStatus (reason : string) : OrderStatus :=
  if String.eqb reason "canceled" then OrderStatusCanceled else OrderStatusFilled.

Definition handleDoneMessage `{Conversions} (query : string -> option Order)
    (us : UserStream) (msg : DoneMessage) : UserStream :=
  let '(us, ok) :=
    checkSequence us (donType msg) (donProductID msg) (donSequence msg) in
  if negb ok then us
  else
    match lastOrderOf query us (donOrderID msg) with
    | (us, None) => us
    | (us, Some lastOrder) =>
        let quantityExecuted :=
          fixedpoint.Sub (Quantity lastOrder) (donRemainingSize msg) in
        let orderUpdate :=
          mkOrder (toGlobalSymbol (donProductID msg)) (toGlobalSide (donSide msg))
            None (donPrice msg) (Quantity lastOrder) quantityExecuted
            (Some (doneStatus (donReason msg))) (donOrderID msg) false
            (donTime msg) in
        EmitOrderUpdate (updateWorkingOrders us [orderUpdate]) orderUpdate
    end.

Definition handleChangeMessage `{Conversions} (us : UserStream)
    (msg : ChangeMessage) : UserStream :=
  let '(us, ok) :=
    checkSequence us (chgType msg) (chgProductID msg) (chgSequence msg) in
  if negb ok then us
  else
    match getOrderById us (chgOrderID msg) with
    | None => us
    | Some _ =>
        let orderUpdate :=
          mkOrder (toGlobalSymbol (chgProductID msg)) (toGlobalSide (chgSide msg))
            None (chgNewPrice msg) (chgNewSize msg) fixedpoint.Zero None
            (chgOrderID msg) true (chgTime msg) in
        EmitOrderUpdate (updateWorkingOrders us [orderUpdate]) orderUpdate
    end.

(** A message is stale when its sequence number does not exceed the cursor
    of its key. *)
Definition staleFor (us : UserStream) (msgType : MessageType) (productId : string)
    (seq : SequenceNumberType) : Prop :=
  (seq <= latestSeq (cursor us) (sequenceKey msgType productId))%N.

(** The stream with the cursor of one key moved to [seq]. *)
Definition advanced (us : UserStream) (msgType : MessageType) (productId : string)
    (seq : SequenceNumberType) : UserStream :=
  mkUserStream
    (mkStream (<[sequenceKey msgType productId := seq]> (lastSequenceMsgMap (cursor us)))
       (tradeUpdates (cursor us)))
    (workingOrdersMap us) (orderUpdates us) (userOrderOnly us).

(** *** The order book update handler *)
Record OrderBookUpdateMessage : Type := mkBookUpdate {
  bkProductID : string;
  bkChanges : list (list string);
  bkTime : Z
}.

Record BookUpdate : Type := mkBook {
  bookSymbol : string;
  bookBids : types.PriceVolumeSlice;
  bookAsks : types.PriceVolumeSlice;
  bookTime : Z
}.

(** The loop over [msg.Changes]; [None] when a price or a volume does not
    parse, where the Go code panics. *)
Fixpoint bookChanges `{Conversions} (changes : list (list string))
    (bids asks : types.PriceVolumeSlice)
  : option (types.PriceVolumeSlice * types.PriceVolumeSlice) :=
  match changes with
  | [] => Some (bids, asks)
  | [side; c1; c2] :: rest =>
      price ← NewFromString c1;
      volume ← NewFromString c2;
      if fixedpoint.IsZero volume then bookChanges rest bids asks
      else if String.eqb side "buy"
      then bookChanges rest (bids ++ [types.mkPV price volume]) asks
      else if String.eqb side "sell"
      then bookChanges rest bids (asks ++ [types.mkPV price volume])
      else bookChanges rest bids asks
  | _ :: rest => bookChanges rest bids asks
  end.

(** [handleOrderbookUpdateMessage]: the books passed to [EmitBookUpdate],
    none or one. *)
Definition handleOrderbookUpdateMessage `{Conversions}
    (msg : OrderBookUpdateMessage) : option (list BookUpdate) :=
  '(bids, asks) ← bookChanges (bkChanges msg) [] [];
  if decide (0 < length bids ∨ 0 < length asks)%nat
  then Some [mkBook (toGlobalSymbol (bkProductID msg)) bids asks (bkTime msg)]
  else Some [].

Definition liveLevel (pv : types.PriceVolume) : Prop :=
  fixedpoint.IsZero (types.Volume pv) = false.

(** The order a [done] or [open] message works from, when there is one: the
    cached order, or else the order the API returns under the same id on a
    stream of the user's own orders. *)
Definition knownOrder (query : string -> option Order) (us : UserStream)
    (orderId : string) (lastOrder : Order) : Prop :=
  getOrderById us orderId = Some lastOrder
  \/ (getOrderById us orderId = None /\ userOrderOnly us = true
      /\ query orderId = Some lastOrder /\ UUID lastOrder = orderId).

(** No order to work from: not cached, and not retrievable. *)
Definition unknownOrder (query : string -> option Order) (us : UserStream)
    (orderId : string) : Prop :=
  getOrderById us orderId = None
  /\ (userOrderOnly us = false \/ query orderId = None).

(** A [received] message the handler acts on: a limit order, or a market
    order with a size. *)
Definition placeable (msg : ReceivedMessage) : Prop :=
  rcvOrderType msg = "limit"
  \/ (rcvOrderType msg = "market" /\ fixedpoint.IsZero (rcvSize msg) = false).

(** *** The subscriptions grouped by [handleConnect] *)
Record Subscription : Type := mkSubscription {
  Channel : string;
  subSymbol : string
}.

Definition rfqMatchChannel : string := "rfq_matches".
Definition statusChannel : string := "status".
Definition fullChannel : string := "full".

(** The test that makes the grouping loop [continue]. *)
Definition skipsSubscription (sub : Subscription) : bool :=
  negb (String.eqb (Channel sub) rfqMatchChannel)
  && negb (String.eqb (Channel sub) statusChannel)
  && (String.length (subSymbol sub) =? 0)%nat.

(** One turn of the loop that fills [subProductsMap]; appending to the
    entry of a channel not in the map yet appends to a nil slice. *)
Definition addSubscription `{Conversions} (m : gmap string (list string))
    (sub : Subscription) : gmap string (list string) :=
  if skipsSubscription sub then m
  else <[Channel sub :=
           default [] (m !! Channel sub) ++ [toLocalSymbol (subSymbol sub)]]> m.

Definition subProductsMap `{Conversions} (subs : list Subscription)
  : gmap string (list string) :=
  foldl addSubscription ∅ subs.

(** [userOrderOnly] once the grouping is done: nothing is assigned when
    there is no subscription ([handleConnect] returns at once), otherwise
    [_, subscribeFull := subProductsMap[fullChannel]; s.userOrderOnly =
    !subscribeFull]. *)
Definition connectUserOrderOnly `{Conversions} (us : UserStream)
    (subs : list Subscription) : bool :=
  match subs with
  | [] => userOrderOnly us
  | _ =>
      match subProductsMap subs !! fullChannel with
      | Some _ => false
      | None => true
      end
  end.

(** The local symbols of the subscriptions of one channel that the loop
    keeps, in subscription order. *)
Definition productsOf `{Conversions} (channel : string) (subs : list Subscription)
  : list string :=
  (fun sub => toLocalSymbol (subSymbol sub))
    <$> filter (fun sub => skipsSubscription sub = false /\ Channel sub = channel) subs.

Definition sampleSubscriptions : list Subscription :=
  [ mkSubscription "ticker" "BTCUSDT"; mkSubscription "full" "";
    mkSubscription "status" ""; mkSubscription "ticker" "ETHUSDT" ].

(** *** A small instance to run the handlers on *)

Fixpoint parseDigits (s : string) (acc : N) : option N :=
  match s with
  | EmptyString => Some acc
  | String c rest =>
      let d := Ascii.N_of_ascii c in
      if ((48 <=? d) && (d <=? 57))%N
      then parseDigits rest (10 * acc + (d - 48))%N
      else None
  end.

#[export] Instance sampleConversions : Conversions := {
  toGlobalSymbol p := p;
  toLocalSymbol p := p;
  toGlobalSide s := if String.eqb s "buy" then types.SideTypeBuy else types.SideTypeSell;
  OrderUpdate _ o := o;
  NewFromString s :=
    match s with
    | EmptyString => None
    | _ => n ← parseDigits s 0%N; Some (inject_Z (Z.of_N n))
    end
}.

Definition sampleUserStream : UserStream := mkUserStream newStream ∅ [] true.

Definition sampleReceived : ReceivedMessage :=
  mkReceived "received" "BTC-USD" 10%N "order-1" "limit" "buy" 30000%Q 2%Q 1000.

Definition sampleOpen : OpenMessage :=
  mkOpen "open" "BTC-USD" 11%N "order-1" "buy" 30000%Q 2%Q 1001.

Definition sampleDone : DoneMessage :=
  mkDone "done" "BTC-USD" 12%N "order-1" "buy" 30000%Q (1 # 2)%Q "canceled" 1002.

Definition sampleChange : ChangeMessage :=
  mkChange "change" "BTC-USD" 13%N "order-1" "buy" 29000%Q 1%Q 1003.

(** An exchange that knows one order, ["order-9"]. *)
Definition sampleQuery (orderId : string) : option Order :=
  if String.eqb orderId "order-9"
  then Some (mkOrder "BTC-USD" types.SideTypeSell (Some KindLimit) 31000%Q 3%Q
               fixedpoint.Zero (Some OrderStatusNew) "order-9" true 900)
  else None.

Definition sampleBookUpdate : OrderBookUpdateMessage :=
  mkBookUpdate "BTC-USD"
    [["buy"; "30000"; "2"]; ["sell"; "30100"; "0"]; ["sell"; "30200"; "1"];
     ["buy"; "29900"]] 1004.

Definition sampleStop : ReceivedMessage :=
  mkReceived "received" "BTC-USD" 10%N "order-2" "stop" "sell" 28000%Q 1%Q 1000.

Definition sampleOpenRetrieved : OpenMessage :=
  mkOpen "open" "BTC-USD" 11%N "order-9" "sell" 31000%Q 1%Q 1001.

(** The order [sampleReceived] places, and the stream that holds it. *)
Definition placedOrder : Order :=
  mkOrder "BTC-USD" types.SideTypeBuy (Some KindLimit) 30000%Q 2%Q
    fixedpoint.Zero (Some OrderStatusNew) "order-1" true 1000.

Definition placedStream : UserStream :=
  handleReceivedMessage sampleUserStream sampleReceived.

(** The stream after the four sample messages of ["order-1"]. *)
Definition busyStream : UserStream :=
  handleChangeMessage
    (handleDoneMessage sampleQuery
       (handleOpenMessage sampleQuery placedStream sampleOpen) sampleDone)
    sampleChange.

End coinbase.

(** ** binanceapi: the response of the futures batch-order request *)

Module binanceapi.

(** A JSON document as [encoding/json] sees it once the text has been
    scanned; a [json.RawMessage] is a sub-document.  Numbers are restricted
    to integers, which is all the fields decoded here accept. *)
#[local] Set Warnings "-register-all".

Inductive JSON : Type :=
| JNull
| JBool (b : bool)
| JNumber (n : Z)
| JString (s : string)
| JArray (items : list JSON)
| JObject (fields : list (string * JSON)).

(** [json.Unmarshal(data, &rawMsgs)] with [rawMsgs []json.RawMessage]: an
    array gives its items, [null] leaves the slice nil, anything else is an
    error. *)
Definition unmarshalRawMessages (data : JSON) : option (list JSON) :=
  match data with
  | JArray items => Some items
  | JNull => Some []
  | _ => None
  end.

(** The anonymous struct [apiErr] with fields [Code int64 `json:"code"`] and
    [Message string `json:"msg"`]. *)
Record apiErr : Type := mkApiErr { Code : Z; Message : string }.

Definition inInt64 (n : Z) : bool := (- 2 ^ 63 <=? n) && (n <? 2 ^ 63).

(** [encoding/json] gives an object key to the field whose name it is,
    exactly or up to case.  Keys are UTF-8 text: besides the ASCII letters
    only two runes fold to an ASCII letter, U+017F (long s, bytes C5 BF) to
    [S] and U+212A (Kelvin sign, bytes E2 84 AA) to [K]; [foldName]
    upper-cases the ASCII letters and these two runes and keeps every other
    byte, which decides the match against an ASCII field name. *)
Definition upperAscii (c : ascii) : ascii :=
  let n := Ascii.N_of_ascii c in
  if ((97 <=? n) && (n <=? 122))%N then Ascii.ascii_of_N (n - 32) else c.

Fixpoint foldName (key : string) : string :=
  match key with
  | EmptyString => EmptyString
  | String c rest =>
      let plain := String (upperAscii c) (foldName rest) in
      match Ascii.N_of_ascii c, rest with
      | 197%N, String d rest' =>
          if (Ascii.N_of_ascii d =? 191)%N
          then String "S"%char (foldName rest') else plain
      | 226%N, String d (String e rest') =>
          if ((Ascii.N_of_ascii d =? 132) && (Ascii.N_of_ascii e =? 170))%N
          then String "K"%char (foldName rest') else plain
      | _, _ => plain
      end
  end.

Definition keyMatches (key name : string) : bool :=
  String.eqb (foldName key) (foldName name).

(** Decoding the fields of an object into [apiErr], in document order: a
    later duplicate overrides an earlier one, [null] leaves a field as it
    is, a value of the wrong type is an error, other keys are skipped. *)
Fixpoint decodeApiErrFields (fields : list (string * JSON)) (acc : apiErr)
  : option apiErr :=
  match fields with
  | [] => Some acc
  | (k, v) :: rest =>
      if keyMatches k "code" then
        match v with
        | JNull => decodeApiErrFields rest acc
        | JNumber n =>
            if inInt64 n then decodeApiErrFields rest (mkApiErr n (Message acc))
            else None
        | _ => None
        end
      else if keyMatches k "msg" then
        match v with
        | JNull => decodeApiErrFields rest acc
        | JString s => decodeApiErrFields rest (mkApiErr (Code acc) s)
        | _ => None
        end
      else decodeApiErrFields rest acc
  end.

(** [json.Unmarshal(msg, &apiErr)] on a zero-valued [apiErr]. *)
Definition unmarshalApiErr (msg : JSON) : option apiErr :=
  match msg with
  | JNull => Some (mkApiErr 0 "")
  | JObject fields => decodeApiErrFields fields (mkApiErr 0 "")
  | _ => None
  end.

(** The declaration of [FuturesOrderResponse] is not part of the sources at
    hand: its zero value and its decoder are taken as an interface. *)
Class OrderCodec (FuturesOrderResponse : Type) : Type := {
  zeroOrder : FuturesOrderResponse;
  unmarshalOrder : JSON -> option FuturesOrderResponse
}.

(** Go's [error] values built by [Unmarshal]. *)
Inductive error : Type :=
| ErrJSON                                      (* error of the outer json.Unmarshal *)
| ErrAPI (code : Z) (msg : string)             (* "<APIError> code=%d, msg=%s" *)
| ErrItem (i : nat).                           (* "unmarshal success order item[%d]: %w" *)

Record FuturesBatchOrdersResponse (FuturesOrderResponse : Type) : Type :=
  mkResponse {
    Orders : list FuturesOrderResponse;
    Errors : list (option error)
  }.
Arguments mkResponse {_} _ _.
Arguments Orders {_} _.
Arguments Errors {_} _.

(** [apiErr.Code != 0 || apiErr.Message != ""] *)
Definition isAPIError (e : apiErr) : bool :=
  negb (Code e =? 0) || negb (String.eqb (Message e) "").

(** The [for i, msg := range rawMsgs] loop; the result pairs the receiver
    with the returned error ([None] is [nil]). *)
Fixpoint unmarshalItems {T : Type} `{!OrderCodec T} (i : nat) (rawMsgs : list JSON)
    (f : FuturesBatchOrdersResponse T)
  : FuturesBatchOrdersResponse T * option error :=
  match rawMsgs with
  | [] => (f, None)
  | msg :: rest =>
      match unmarshalApiErr msg with
      | Some e =>
          if isAPIError e
          then unmarshalItems (S i) rest
                 (mkResponse (Orders f)
                    (<[i := Some (ErrAPI (Code e) (Message e))]> (Errors f)))
          else
            match unmarshalOrder msg with
            | None => (f, Some (ErrItem i))
            | Some order =>
                unmarshalItems (S i) rest (mkResponse (Orders f ++ [order]) (Errors f))
            end
      | None =>
          match unmarshalOrder msg with
          | None => (f, Some (ErrItem i))
          | Some order =>
              unmarshalItems (S i) rest (mkResponse (Orders f ++ [order]) (Errors f))
          end
      end
  end.

Definition Unmarshal {T : Type} `{!OrderCodec T} (f : FuturesBatchOrdersResponse T)
    (data : JSON) : FuturesBatchOrdersResponse T * option error :=
  match unmarshalRawMessages data with
  | None => (f, Some ErrJSON)
  | Some rawMsgs =>
      unmarshalItems 0 rawMsgs
        (mkResponse (replicate (length rawMsgs) zeroOrder)
                    (replicate (length rawMsgs) None))
  end.

(** *** Vocabulary of the specification *)

(** An item is an API error object when it decodes as [apiErr] with a
    non-zero code or a non-empty message. *)
Definition apiErrorItem (msg : JSON) : bool :=
  match unmarshalApiErr msg with
  | Some e => isAPIError e
  | None => false
  end.

(** A batch-order result item is an API error object or a document that
    decodes as an order. *)
Definition resultItem {T : Type} `{!OrderCodec T} (msg : JSON) : Prop :=
  apiErrorItem msg = true \/ is_Some (unmarshalOrder msg).

(** The orders decoded from the items that are not API errors, in order. *)
Definition placedOrders {T : Type} `{!OrderCodec T} (rawMsgs : list JSON) : list T :=
  omap (fun msg => if apiErrorItem msg then None else unmarshalOrder msg) rawMsgs.

(** "Per-index assignment": the order of item [i], when there is one, sits
    at index [i] of [Orders]. *)
Definition perIndexOrders {T : Type} `{!OrderCodec T} (rawMsgs : list JSON)
    (f : FuturesBatchOrdersResponse T) : Prop :=
  forall i msg order,
    rawMsgs !! i = Some msg -> apiErrorItem msg = false ->
    unmarshalOrder msg = Some order -> Orders f !! i = Some order.

(** The [Errors] slice after the loop has run over [rawMsgs] from index [i]. *)
Fixpoint markErrors (i : nat) (rawMsgs : list JSON) (errs : list (option error))
  : list (option error) :=
  match rawMsgs with
  | [] => errs
  | msg :: rest =>
      match unmarshalApiErr msg with
      | Some e =>
          if isAPIError e
          then markErrors (S i) rest (<[i := Some (ErrAPI (Code e) (Message e))]> errs)
          else markErrors (S i) rest errs
      | None => markErrors (S i) rest errs
      end
  end.

(** *** A small order type to run the decoder on *)

Record sampleOrder : Type := mkSampleOrder { OrderId : Z; OrderSymbol : string }.

Fixpoint decodeSampleFields (fields : list (string * JSON)) (acc : sampleOrder)
  : option sampleOrder :=
  match fields with
  | [] => Some acc
  | (k, v) :: rest =>
      if keyMatches k "orderId" then
        match v with
        | JNull => decodeSampleFields rest acc
        | JNumber n =>
            if inInt64 n
            then decodeSampleFields rest (mkSampleOrder n (OrderSymbol acc))
            else None
        | _ => None
        end
      else if keyMatches k "symbol" then
        match v with
        | JNull => decodeSampleFields rest acc
        | JString s => decodeSampleFields rest (mkSampleOrder (OrderId acc) s)
        | _ => None
        end
      else decodeSampleFields rest acc
  end.

#[export] Instance sampleCodec : OrderCodec sampleOrder := {
  zeroOrder := mkSampleOrder 0 "";
  unmarshalOrder msg :=
    match msg with
    | JNull => Some (mkSampleOrder 0 "")
    | JObject fields => decodeSampleFields fields (mkSampleOrder 0 "")
    | _ => None
    end
}.

(** [[{"orderId": 7, "symbol": "BTCUSDT"}, {"code": -2010, "msg": "rejected"}]] *)
Definition sampleItems : list JSON :=
  [ JObject [("orderId", JNumber 7); ("symbol", JString "BTCUSDT")];
    JObject [("code", JNumber (-2010)); ("msg", JString "rejected")] ].

Definition sampleBatch : JSON := JArray sampleItems.

(** [[{"Code": -2010, "MSG": "rejected", "orderId": "n/a"}]]: an API error
    object whose keys differ from the field names by case only. *)
Definition shoutedItems : list JSON :=
  [ JObject [("Code", JNumber (-2010)); ("MSG", JString "rejected");
             ("orderId", JString "n/a")] ].

(** [[{"orderId": 7, "symbol": "BTCUSDT"}, "oops", {"code": -2010, "msg": "rejected"}]] *)
Definition brokenItems : list JSON :=
  [ JObject [("orderId", JNumber 7); ("symbol", JString "BTCUSDT")];
    JString "oops";
    JObject [("code", JNumber (-2010)); ("msg", JString "rejected")] ].

End binanceapi.

Import fixedpoint types bbgo xmaker.

(** ** Sample books

    The bid side of [Test_aggregatePrice] and the two sides loaded by
    [TestStrategy_getLayerPrice] in [strategy_test.go]. *)

Definition pv (price volume : Z) : PriceVolume :=
  mkPV (NewFromInt price) (NewFromInt volume).

Definition test_bids : PriceVolumeSlice := [pv 1000 1; pv 1200 1; pv 1400 1].
Definition layer_bids : PriceVolumeSlice := [pv 1300 1; pv 1200 2; pv 1100 3].
Definition layer_asks : PriceVolumeSlice := [pv 1301 1; pv 1400 2; pv 1500 3].
Definition thin_asks : PriceVolumeSlice := [pv 100 1].

(** Two books whose second level sits one unit of the eighth decimal away
    from the first. *)
Definition close_bids : PriceVolumeSlice :=
  [mkPV (50000001 # 100000000) (1 # 10); mkPV (1 # 2) 1].
Definition close_asks : PriceVolumeSlice :=
  [mkPV (1 # 2) (1 # 10); mkPV (50000001 # 100000000) 1].

(** ** A sample deployment

    One symbol quoted on a maker venue and hedged on a source venue, with
    the source book of [TestStrategy_getLayerPrice]. *)

Definition btcusdt : Market :=
  mkMarket "BTC" "USDT" (1 # 100)%Q (1 # 1000)%Q (1 # 1000)%Q 10%Q.

Definition sampleBalances (base quote : Value) : BalanceMap :=
  <["BTC" := mkBalance base]> (<["USDT" := mkBalance quote]> ∅).

(** A venue that creates every order it is sent; the identifier tells the
    venue and the side. *)
Definition acceptAll (venue : Z) (o : SubmitOrder) : option Order :=
  Some (mkOrder (venue + match soSide o with SideTypeBuy => 1 | SideTypeSell => 2 end) o).

Definition sampleSession (name : string) (venue : Z) (base quote : Value)
  : ExchangeSession :=
  mkSession name (<["BTCUSDT" := btcusdt]> ∅) (sampleBalances base quote)
    (acceptAll venue).

Definition sampleBook : SliceOrderBook := mkBook layer_bids layer_asks.

(** The world of a tick at instant [now]; the source account holds
    [sourceBase] of the base currency. *)
Definition sampleEnv (now : Time) (sourceBase : Value) : Env :=
  mkEnv (sampleSession "max" 100 100%Q 1000000%Q)
        (sampleSession "binance" 200 sourceBase 1000000%Q)
        sampleBook now now (fun _ => (∅, false)) false 0%Q 0%Q
        (mkReservation true) [].

(** One layer of quantity 1 (also what the layer scale answers), margins of
    0.3%, a maximum exposure of 5, and the given position and covered
    position; heartbeats as [Initialize] makes them. *)
Definition sampleStrategy (position covered : Value) : Strategy :=
  mkStrategy "BTCUSDT" (3 # 1000)%Q (3 # 1000)%Q false 0%Q false (1 # 1000)%Q 1%Q
    0%Q 0%Q 1%Q 0%Q (Some (fun _ => Some 1%Q)) 5%Q false 1 0%Q btcusdt btcusdt true
    position covered ∅ None ∅
    (NewPriceHeartBeat priceUpdateTimeout) (NewPriceHeartBeat priceUpdateTimeout)
    0%Q ∅ 7.

(** The same strategy when its bid heartbeat last saw the best bid change at
    instant 0. *)
Definition staleStrategy : Strategy :=
  setQuoting (sampleStrategy 0%Q 0%Q) ∅
    (mkHeartBeat 1300%Q 0 priceUpdateTimeout)
    (NewPriceHeartBeat priceUpdateTimeout) 0%Q ∅.

(** The sample world with a maker account that holds no base currency. *)
Definition noBaseEnv : Env :=
  mkEnv (sampleSession "max" 100 0%Q 1000000%Q)
        (sampleSession "binance" 200 100%Q 1000000%Q)
        sampleBook (31 * Second) (31 * Second) (fun _ => (∅, false)) false 0%Q 0%Q
        (mkReservation true) [].

(** The sample strategy without a cap on the exposure. *)
Definition uncappedStrategy : Strategy :=
  mkStrategy "BTCUSDT" (3 # 1000)%Q (3 # 1000)%Q false 0%Q false (1 # 1000)%Q 1%Q
    0%Q 0%Q 1%Q 0%Q (Some (fun _ => Some 1%Q)) 0%Q false 1 0%Q btcusdt btcusdt true
    0%Q 0%Q ∅ None ∅
    (NewPriceHeartBeat priceUpdateTimeout) (NewPriceHeartBeat priceUpdateTimeout)
    0%Q ∅ 7.

(** * Properties *)

Section CompareFacts.

Lemma Compare_ge0 (a b : Value) : (Compare a b >=? 0) = true <-> (b <= a)%Q.
Proof.
  unfold Compare. rewrite Qle_alt, <- (Qcompare_antisym a b).
  destruct (a ?= b)%Q; simpl; split; intros H; try done.
Qed.

Lemma Compare_ge0_false (a b : Value) : (Compare a b >=? 0) = false <-> (a < b)%Q.
Proof.
  unfold Compare. rewrite Qlt_alt.
  destruct (a ?= b)%Q; simpl; split; intros H; done.
Qed.

Lemma Compare_gt0 (a b : Value) : (Compare a b >? 0) = true <-> (b < a)%Q.
Proof.
  unfold Compare. rewrite Qgt_alt.
  destruct (a ?= b)%Q; simpl; split; intros H; done.
Qed.

Lemma Compare_gt0_false (a b : Value) : (Compare a b >? 0) = false <-> (a <= b)%Q.
Proof.
  unfold Compare. rewrite Qle_alt.
  destruct (a ?= b)%Q; simpl; split; intros H; done.
Qed.

Lemma Compare_le0_false (a b : Value) : (Compare a b <=? 0) = false <-> (b < a)%Q.
Proof.
  unfold Compare. rewrite Qgt_alt.
  destruct (a ?= b)%Q; simpl; split; intros H; done.
Qed.

Lemma Compare_lt0 (a b : Value) : (Compare a b <? 0) = true <-> (a < b)%Q.
Proof.
  unfold Compare. rewrite Qlt_alt.
  destruct (a ?= b)%Q; simpl; split; intros H; done.
Qed.

End CompareFacts.

(** ** The price aggregator *)

(** Unfold the arithmetic of [fixedpoint] down to the rationals. *)
Ltac fp_unfold :=
  unfold Add, Sub, Mul, Neg, Zero, One, NewFromInt in *.
Ltac fp_ring := fp_unfold; ring.
Ltac fp_lra := fp_unfold; lra.

Section AggregatePrice.

Implicit Types (pvs : PriceVolumeSlice) (pv : PriceVolume) (q acc : Value).

Lemma Qle_bool_Compare (a b : Value) : Qle_bool a b = (Compare b a >=? 0).
Proof.
  destruct (Compare b a >=? 0) eqn:E.
  - apply Qle_bool_iff, Compare_ge0, E.
  - apply Compare_ge0_false in E. apply not_true_is_false.
    rewrite Qle_bool_iff. apply Qlt_not_le, E.
Qed.

Lemma IsZero_false (a : Value) : ~ (a == 0)%Q -> IsZero a = false.
Proof.
  intros H. apply not_true_is_false. unfold IsZero.
  rewrite Qeq_bool_iff. exact H.
Qed.

Lemma Div_nonzero (a b : Value) : ~ (b == 0)%Q -> Div a b = Some (a / b)%Q.
Proof. intros H. unfold Div. rewrite (IsZero_false b H). reflexivity. Qed.

(** The accumulator of the loop is only ever added to. *)
Lemma aggregateLoop_acc pvs : forall q acc,
  (aggregateLoop pvs q acc == acc + aggregateLoop pvs q 0)%Q.
Proof.
  induction pvs as [|pv rest IH]; intros q acc; simpl.
  - fp_ring.
  - destruct (Compare (Volume pv) q >=? 0).
    + fp_ring.
    + rewrite IH, (IH _ (Add 0%Q _)). fp_ring.
Qed.

(** The loop accumulates exactly what the specification's walk consumes. *)
Lemma aggregateLoop_consumed pvs : forall q,
  (aggregateLoop pvs q Zero == accumulated (consumed pvs q))%Q.
Proof.
  induction pvs as [|pv rest IH]; intros q; simpl.
  - reflexivity.
  - rewrite Qle_bool_Compare. destruct (Compare (Volume pv) q >=? 0); simpl.
    + fp_ring.
    + rewrite aggregateLoop_acc, IH. fp_ring.
Qed.

Lemma totalVolume_nonneg pvs :
  Forall (fun pv => (0 <= Volume pv)%Q) pvs -> (0 <= totalVolume pvs)%Q.
Proof.
  induction 1 as [|pv rest Hpv _ IH]; simpl.
  - apply Qle_refl.
  - change (0 <= Volume pv + totalVolume rest)%Q. lra.
Qed.

(** When the book is too thin every level is consumed whole. *)
Lemma aggregateLoop_shortfall pvs : forall q,
  Forall (fun pv => (0 <= Volume pv)%Q) pvs ->
  (totalVolume pvs < q)%Q ->
  (aggregateLoop pvs q Zero == bookAmount pvs)%Q.
Proof.
  induction pvs as [|pv rest IH]; intros q Hv Hq; simpl.
  - reflexivity.
  - inversion Hv as [|? ? Hpv Hrest]; subst.
    pose proof (totalVolume_nonneg rest Hrest) as Hnn.
    change (Volume pv + totalVolume rest < q)%Q in Hq.
    assert (Hlt : (Volume pv < q)%Q) by lra.
    apply Compare_ge0_false in Hlt. rewrite Hlt.
    rewrite aggregateLoop_acc, IH; [|assumption|fp_lra].
    fp_ring.
Qed.

(** C3.  The contract of the price aggregator: zero on an empty side; the
    first level's price when that level alone covers the required quantity;
    otherwise the amount accumulated over the consumed levels (the last one
    only for the residual) divided by the required quantity; and, when the
    whole side holds less than the required quantity, the amount of the whole
    side divided by the required quantity. *)
Theorem aggregatePrice_contract pvs (requiredQuantity : Value) :
  (pvs = [] -> aggregatePrice pvs requiredQuantity = Some Zero)
  /\ (forall pv0 rest, pvs = pv0 :: rest ->
        (requiredQuantity <= Volume pv0)%Q ->
        aggregatePrice pvs requiredQuantity = Some (Price pv0))
  /\ (forall pv0 rest, pvs = pv0 :: rest ->
        (Volume pv0 < requiredQuantity)%Q -> ~ (requiredQuantity == 0)%Q ->
        exists r, aggregatePrice pvs requiredQuantity = Some r
          /\ (r == accumulated (consumed pvs requiredQuantity) / requiredQuantity)%Q)
  /\ (Forall (fun pv => (0 <= Volume pv)%Q) pvs ->
        (totalVolume pvs < requiredQuantity)%Q ->
        exists r, aggregatePrice pvs requiredQuantity = Some r
          /\ (r == bookAmount pvs / requiredQuantity)%Q).
Proof.
  repeat split.
  - intros ->. reflexivity.
  - intros pv0 rest -> Hle. simpl.
    apply Compare_ge0 in Hle. rewrite Hle. reflexivity.
  - intros pv0 rest -> Hlt Hnz.
    exists (aggregateLoop (pv0 :: rest) requiredQuantity Zero / requiredQuantity)%Q.
    split.
    + unfold aggregatePrice. apply Compare_ge0_false in Hlt. rewrite Hlt.
      apply Div_nonzero, Hnz.
    + rewrite aggregateLoop_consumed. reflexivity.
  - intros Hv Hq. pose proof (totalVolume_nonneg pvs Hv) as Hnn.
    destruct pvs as [|pv0 rest].
    + exists Zero. split; [reflexivity|].
      unfold Zero. simpl. field. lra.
    + exists (aggregateLoop (pv0 :: rest) requiredQuantity Zero / requiredQuantity)%Q.
      inversion Hv as [|? ? Hpv Hrest]; subst.
      pose proof (totalVolume_nonneg rest Hrest) as Hnn'.
      change (Volume pv0 + totalVolume rest < requiredQuantity)%Q in Hq.
      split.
      * unfold aggregatePrice.
        assert (Hlt : (Volume pv0 < requiredQuantity)%Q) by lra.
        apply Compare_ge0_false in Hlt. rewrite Hlt.
        apply Div_nonzero. lra.
      * rewrite aggregateLoop_shortfall; [reflexivity|assumption|].
        exact Hq.
Qed.

End AggregatePrice.

Section AggregatePriceTotal.

Implicit Types (pvs : PriceVolumeSlice) (pv : PriceVolume).

(** A worked instance of the contract on the book of [Test_aggregatePrice]
    and on a one-level ask side that is too thin. *)
Lemma aggregatePrice_contract_witness :
  aggregatePrice [] 2%Q = Some Zero
  /\ aggregatePrice test_bids (1 # 2) = Some 1000%Q
  /\ (exists r, aggregatePrice test_bids 2%Q = Some r /\ (r == 1100)%Q)
  /\ (exists r, aggregatePrice thin_asks 4%Q = Some r /\ (r == 25)%Q).
Proof.
  split; [|split; [|split]].
  - apply (proj1 (aggregatePrice_contract [] 2%Q)). reflexivity.
  - apply (proj1 (proj2 (aggregatePrice_contract test_bids (1 # 2)))
             (pv 1000 1) [pv 1200 1; pv 1400 1]); [reflexivity|].
    vm_compute. discriminate.
  - destruct (proj1 (proj2 (proj2 (aggregatePrice_contract test_bids 2%Q)))
             (pv 1000 1) [pv 1200 1; pv 1400 1]) as [r [Hr Hv]].
    + reflexivity.
    + reflexivity.
    + intros H. vm_compute in H. discriminate.
    + exists r. split; [exact Hr|]. rewrite Hv. reflexivity.
  - destruct (proj2 (proj2 (proj2 (aggregatePrice_contract thin_asks 4%Q))))
      as [r [Hr Hv]].
    + repeat constructor; vm_compute; discriminate.
    + reflexivity.
    + exists r. split; [exact Hr|]. rewrite Hv. reflexivity.
Defined.

(** C10.  The aggregator always answers and never divides by zero on a side
    whose first level has a non-negative volume: a required quantity that is
    zero or negative is answered with the first level's price, and the final
    division is reached only with a required quantity above the first
    level's volume, hence positive. *)
Theorem aggregatePrice_total pvs (requiredQuantity : Value) :
  match pvs with [] => True | pv0 :: _ => (0 <= Volume pv0)%Q end ->
  (exists r, aggregatePrice pvs requiredQuantity = Some r)
  /\ (forall pv0 rest, pvs = pv0 :: rest -> (requiredQuantity <= 0)%Q ->
        aggregatePrice pvs requiredQuantity = Some (Price pv0))
  /\ (forall pv0 rest, pvs = pv0 :: rest ->
        (Compare (Volume pv0) requiredQuantity >=? 0) = false ->
        (Volume pv0 < requiredQuantity)%Q /\ (0 < requiredQuantity)%Q
        /\ aggregatePrice pvs requiredQuantity
           = Some (aggregateLoop pvs requiredQuantity Zero / requiredQuantity)%Q).
Proof.
  intros Hhead.
  assert (Hdiv : forall pv0 rest, pvs = pv0 :: rest ->
            (Compare (Volume pv0) requiredQuantity >=? 0) = false ->
            (Volume pv0 < requiredQuantity)%Q /\ (0 < requiredQuantity)%Q
            /\ aggregatePrice pvs requiredQuantity
               = Some (aggregateLoop pvs requiredQuantity Zero / requiredQuantity)%Q).
  { intros pv0 rest -> Hc. pose proof Hc as Hlt.
    apply Compare_ge0_false in Hlt.
    assert (Hpos : (0 < requiredQuantity)%Q) by (eapply Qle_lt_trans; eauto).
    repeat split; try assumption.
    unfold aggregatePrice. rewrite Hc. apply Div_nonzero. lra. }
  split; [|split].
  - destruct pvs as [|pv0 rest]; [eexists; reflexivity|].
    destruct (Compare (Volume pv0) requiredQuantity >=? 0) eqn:Hc.
    + exists (Price pv0). simpl. rewrite Hc. reflexivity.
    + destruct (Hdiv pv0 rest eq_refl Hc) as (_ & _ & ->). eexists; reflexivity.
  - intros pv0 rest -> Hq. simpl.
    assert (Hle : (requiredQuantity <= Volume pv0)%Q) by (eapply Qle_trans; eauto).
    apply Compare_ge0 in Hle. rewrite Hle. reflexivity.
  - exact Hdiv.
Qed.

Lemma aggregatePrice_total_witness :
  (exists r, aggregatePrice test_bids 0%Q = Some r)
  /\ aggregatePrice test_bids (-3)%Q = Some 1000%Q
  /\ (0 < 2)%Q.
Proof.
  split; [|split].
  - apply (aggregatePrice_total test_bids 0%Q). vm_compute. discriminate.
  - apply (proj1 (proj2 (aggregatePrice_total test_bids (-3)%Q
                           ltac:(vm_compute; discriminate)))
             (pv 1000 1) [pv 1200 1; pv 1400 1]); [reflexivity|].
    vm_compute. discriminate.
  - apply (proj2 (proj2 (aggregatePrice_total test_bids 2%Q
                           ltac:(vm_compute; discriminate)))
             (pv 1000 1) [pv 1200 1; pv 1400 1]); reflexivity.
Defined.

(** [Test_aggregatePrice] of [strategy_test.go]. *)
Example Test_aggregatePrice :
  aggregatePrice test_bids (1 # 2) = Some 1000%Q
  /\ aggregatePrice test_bids 1%Q = Some 1000%Q
  /\ (exists r, aggregatePrice test_bids 2%Q = Some r /\ (r == 1100)%Q).
Proof.
  split; [reflexivity|]. split; [reflexivity|].
  eexists. split; reflexivity.
Qed.

(** The guard on the first level is what keeps the division safe: with a
    negative first volume a required quantity of zero reaches it. *)
Remark aggregatePrice_negative_volume :
  aggregatePrice [mkPV 10%Q (-1)%Q] 0%Q = None.
Proof. reflexivity. Qed.

End AggregatePriceTotal.

(** ** Monotonicity of the aggregated price *)

Section Monotonicity.

Implicit Types (pvs : PriceVolumeSlice) (pv : PriceVolume) (q : Value).

Lemma amountFor_cons_le pv rest q :
  (q <= Volume pv)%Q -> (amountFor (pv :: rest) q == q * Price pv)%Q.
Proof.
  intros H. simpl. apply Compare_ge0 in H. rewrite H. fp_ring.
Qed.

Lemma amountFor_cons_gt pv rest q :
  (Volume pv < q)%Q ->
  (amountFor (pv :: rest) q
   == Volume pv * Price pv + amountFor rest (q - Volume pv))%Q.
Proof.
  intros H. simpl. apply Compare_ge0_false in H. rewrite H.
  rewrite aggregateLoop_acc. fp_ring.
Qed.

Lemma amountFor_zero pvs : volumesNonneg pvs -> (amountFor pvs 0 == 0)%Q.
Proof.
  intros [|pv rest Hpv _]; [reflexivity|].
  rewrite amountFor_cons_le by exact Hpv. ring.
Qed.

(** For a positive quantity on a non-empty side the answer is always the
    accumulated amount over the quantity: the first-level shortcut agrees
    with the general formula. *)
Lemma aggregatePrice_amountFor pv0 rest q :
  (0 < q)%Q ->
  exists r, aggregatePrice (pv0 :: rest) q = Some r
    /\ (r == amountFor (pv0 :: rest) q / q)%Q.
Proof.
  intros Hq. unfold aggregatePrice.
  destruct (Compare (Volume pv0) q >=? 0) eqn:Hc.
  - exists (Price pv0). split; [reflexivity|].
    apply Compare_ge0 in Hc. rewrite amountFor_cons_le by exact Hc.
    field. lra.
  - eexists. split; [apply Div_nonzero; lra|reflexivity].
Qed.

(** Increments of the accumulated amount are bounded above by any bound on
    the prices... *)
Lemma amountFor_increment_le pvs (P : Q) :
  Forall (fun pv => (Price pv <= P)%Q) pvs -> volumesNonneg pvs -> (0 <= P)%Q ->
  forall q1 q2, (0 <= q1)%Q -> (q1 <= q2)%Q ->
    (amountFor pvs q2 - amountFor pvs q1 <= P * (q2 - q1))%Q.
Proof.
  intros HP Hv HP0. induction pvs as [|pv rest IH]; intros q1 q2 H1 H12.
  - simpl. assert (0 <= P * (q2 - q1))%Q by (apply Qmult_le_0_compat; lra).
    fp_lra.
  - inversion HP as [|? ? HpP HPrest]; subst.
    inversion Hv as [|? ? Hpv Hvrest]; subst.
    specialize (IH HPrest Hvrest).
    destruct (Qlt_le_dec (Volume pv) q1) as [Hq1|Hq1].
    + assert (Hq2 : (Volume pv < q2)%Q) by lra.
      rewrite !amountFor_cons_gt by assumption.
      specialize (IH (q1 - Volume pv)%Q (q2 - Volume pv)%Q).
      fp_lra.
    + destruct (Qlt_le_dec (Volume pv) q2) as [Hq2|Hq2].
      * rewrite (amountFor_cons_gt pv rest q2), (amountFor_cons_le pv rest q1)
          by assumption.
        specialize (IH 0%Q (q2 - Volume pv)%Q).
        pose proof (amountFor_zero rest Hvrest) as H0.
        assert (0 <= (P - Price pv) * (Volume pv - q1))%Q
          by (apply Qmult_le_0_compat; lra).
        fp_lra.
      * rewrite !amountFor_cons_le by assumption.
        assert (0 <= (P - Price pv) * (q2 - q1))%Q
          by (apply Qmult_le_0_compat; lra).
        fp_lra.
Qed.

(** ... and, as long as the side is deep enough, below by any lower bound. *)
Lemma amountFor_increment_ge pvs (P : Q) :
  Forall (fun pv => (P <= Price pv)%Q) pvs -> volumesNonneg pvs ->
  forall q1 q2, (0 <= q1)%Q -> (q1 <= q2)%Q -> (q2 <= totalVolume pvs)%Q ->
    (P * (q2 - q1) <= amountFor pvs q2 - amountFor pvs q1)%Q.
Proof.
  intros HP Hv. induction pvs as [|pv rest IH]; intros q1 q2 H1 H12 Ht.
  - simpl in *. assert (E : (q2 - q1 == 0)%Q) by lra.
    rewrite E. fp_lra.
  - inversion HP as [|? ? HpP HPrest]; subst.
    inversion Hv as [|? ? Hpv Hvrest]; subst.
    specialize (IH HPrest Hvrest).
    change (q2 <= Volume pv + totalVolume rest)%Q in Ht.
    destruct (Qlt_le_dec (Volume pv) q1) as [Hq1|Hq1].
    + assert (Hq2 : (Volume pv < q2)%Q) by lra.
      rewrite !amountFor_cons_gt by assumption.
      specialize (IH (q1 - Volume pv)%Q (q2 - Volume pv)%Q).
      fp_lra.
    + destruct (Qlt_le_dec (Volume pv) q2) as [Hq2|Hq2].
      * rewrite (amountFor_cons_gt pv rest q2), (amountFor_cons_le pv rest q1)
          by assumption.
        specialize (IH 0%Q (q2 - Volume pv)%Q).
        pose proof (amountFor_zero rest Hvrest) as H0.
        assert (0 <= (Price pv - P) * (Volume pv - q1))%Q
          by (apply Qmult_le_0_compat; lra).
        fp_lra.
      * rewrite !amountFor_cons_le by assumption.
        assert (0 <= (Price pv - P) * (q2 - q1))%Q
          by (apply Qmult_le_0_compat; lra).
        fp_lra.
Qed.

Lemma Qdiv_le_cross (a b q1 q2 : Q) :
  (0 < q1)%Q -> (0 < q2)%Q -> (a * q1 <= b * q2)%Q -> (a / q2 <= b / q1)%Q.
Proof.
  intros H1 H2 H. apply Qle_shift_div_l; [exact H1|].
  assert (E : (a / q2 * q1 == a * q1 / q2)%Q) by (field; lra).
  rewrite E.
  apply Qle_shift_div_r; assumption.
Qed.

Lemma StronglySorted_weaken {A} (R R' : A -> A -> Prop) (l : list A) :
  (forall x y, R x y -> R' x y) -> StronglySorted R l -> StronglySorted R' l.
Proof.
  intros HR. induction 1 as [|x l Hl IH Hx]; constructor; [exact IH|].
  revert Hx. apply Forall_impl. intros y. apply HR.
Qed.

Lemma bidOrdered_strongly pvs :
  bidOrdered pvs -> StronglySorted (fun a b => (Price b <= Price a)%Q) pvs.
Proof.
  intros H. apply Sorted_StronglySorted in H.
  - eapply StronglySorted_weaken; [|exact H]. intros x y. apply Qlt_le_weak.
  - intros x y z Hxy Hyz. eapply Qlt_trans; eauto.
Qed.

Lemma askOrdered_strongly pvs :
  askOrdered pvs -> StronglySorted (fun a b => (Price a <= Price b)%Q) pvs.
Proof.
  intros H. apply Sorted_StronglySorted in H.
  - eapply StronglySorted_weaken; [|exact H]. intros x y. apply Qlt_le_weak.
  - intros x y z Hxy Hyz. eapply Qlt_trans; eauto.
Qed.

(** On a bid side the average over a larger quantity is not higher. *)
Lemma amountFor_average_bid pvs :
  StronglySorted (fun a b => (Price b <= Price a)%Q) pvs ->
  volumesNonneg pvs -> pricesNonneg pvs ->
  forall q1 q2, (0 < q1)%Q -> (q1 <= q2)%Q ->
    (amountFor pvs q2 * q1 <= amountFor pvs q1 * q2)%Q.
Proof.
  induction 1 as [|pv rest Hrest IH Hle]; intros Hv Hp q1 q2 H1 H12.
  - simpl. fp_lra.
  - inversion Hv as [|? ? Hpv Hvrest]; subst.
    inversion Hp as [|? ? Hppv Hprest]; subst.
    specialize (IH Hvrest Hprest).
    pose proof (amountFor_increment_le rest (Price pv) Hle Hvrest Hppv) as Hinc.
    destruct (Qlt_le_dec (Volume pv) q1) as [Hq1|Hq1].
    + assert (Hq2 : (Volume pv < q2)%Q) by lra.
      rewrite !amountFor_cons_gt by assumption.
      specialize (IH (q1 - Volume pv)%Q (q2 - Volume pv)%Q).
      specialize (Hinc (q1 - Volume pv)%Q (q2 - Volume pv)%Q).
      set (Xa := amountFor rest (q1 - Volume pv)) in *.
      set (Xb := amountFor rest (q2 - Volume pv)) in *.
      assert (0 <= Volume pv
                   * (Price pv * (q2 - Volume pv - (q1 - Volume pv)) - (Xb - Xa)))%Q
        by (apply Qmult_le_0_compat; lra).
      lra.
    + destruct (Qlt_le_dec (Volume pv) q2) as [Hq2|Hq2].
      * rewrite (amountFor_cons_gt pv rest q2), (amountFor_cons_le pv rest q1)
          by assumption.
        specialize (Hinc 0%Q (q2 - Volume pv)%Q).
        pose proof (amountFor_zero rest Hvrest) as H0.
        set (X := amountFor rest (q2 - Volume pv)) in *.
        assert (0 <= q1 * (Price pv * (q2 - Volume pv - 0) - (X - 0)))%Q
          by (apply Qmult_le_0_compat; fp_lra).
        lra.
      * rewrite !amountFor_cons_le by assumption. lra.
Qed.

(** On an ask side deep enough for the larger quantity the average over a
    larger quantity is not lower. *)
Lemma amountFor_average_ask pvs :
  StronglySorted (fun a b => (Price a <= Price b)%Q) pvs ->
  volumesNonneg pvs ->
  forall q1 q2, (0 < q1)%Q -> (q1 <= q2)%Q -> (q2 <= totalVolume pvs)%Q ->
    (amountFor pvs q1 * q2 <= amountFor pvs q2 * q1)%Q.
Proof.
  induction 1 as [|pv rest Hrest IH Hle]; intros Hv q1 q2 H1 H12 Ht.
  - simpl in Ht. lra.
  - inversion Hv as [|? ? Hpv Hvrest]; subst.
    specialize (IH Hvrest).
    change (q2 <= Volume pv + totalVolume rest)%Q in Ht.
    pose proof (amountFor_increment_ge rest (Price pv) Hle Hvrest) as Hinc.
    destruct (Qlt_le_dec (Volume pv) q1) as [Hq1|Hq1].
    + assert (Hq2 : (Volume pv < q2)%Q) by lra.
      rewrite !amountFor_cons_gt by assumption.
      specialize (IH (q1 - Volume pv)%Q (q2 - Volume pv)%Q).
      specialize (Hinc (q1 - Volume pv)%Q (q2 - Volume pv)%Q).
      set (Xa := amountFor rest (q1 - Volume pv)) in *.
      set (Xb := amountFor rest (q2 - Volume pv)) in *.
      assert (0 <= Volume pv
                   * ((Xb - Xa) - Price pv * (q2 - Volume pv - (q1 - Volume pv))))%Q
        by (apply Qmult_le_0_compat; lra).
      lra.
    + destruct (Qlt_le_dec (Volume pv) q2) as [Hq2|Hq2].
      * rewrite (amountFor_cons_gt pv rest q2), (amountFor_cons_le pv rest q1)
          by assumption.
        specialize (Hinc 0%Q (q2 - Volume pv)%Q).
        pose proof (amountFor_zero rest Hvrest) as H0.
        set (X := amountFor rest (q2 - Volume pv)) in *.
        assert (0 <= q1 * ((X - 0) - Price pv * (q2 - Volume pv - 0)))%Q
          by (apply Qmult_le_0_compat; fp_lra).
        lra.
      * rewrite !amountFor_cons_le by assumption. lra.
Qed.

(** With exact products and quotients: for required quantities
    [0 < Q1 < Q2] on a side with non-negative volumes the aggregator
    answers both, and: on a bid side (strictly decreasing prices) with
    non-negative prices the answer for [Q1] is at least the answer for
    [Q2]; on an ask side (strictly increasing prices) holding at least [Q2]
    in total the answer for [Q1] is at most the answer for [Q2]. *)
Lemma aggregatePrice_monotone_exact pvs (Q1 Q2 : Value) :
  (0 < Q1)%Q -> (Q1 < Q2)%Q -> volumesNonneg pvs ->
  exists r1 r2,
    aggregatePrice pvs Q1 = Some r1 /\ aggregatePrice pvs Q2 = Some r2
    /\ (bidOrdered pvs -> pricesNonneg pvs -> (r2 <= r1)%Q)
    /\ (askOrdered pvs -> (Q2 <= totalVolume pvs)%Q -> (r1 <= r2)%Q).
Proof.
  intros H1 H12 Hv. assert (H2 : (0 < Q2)%Q) by lra.
  destruct pvs as [|pv0 rest].
  - exists Zero, Zero. repeat split; intros; apply Qle_refl.
  - destruct (aggregatePrice_amountFor pv0 rest Q1 H1) as (r1 & Hr1 & E1).
    destruct (aggregatePrice_amountFor pv0 rest Q2 H2) as (r2 & Hr2 & E2).
    exists r1, r2. split; [exact Hr1|]. split; [exact Hr2|]. split.
    + intros Hbid Hp. rewrite E1, E2.
      apply Qdiv_le_cross; try assumption.
      apply amountFor_average_bid; try assumption; [|lra].
      apply bidOrdered_strongly, Hbid.
    + intros Hask Hdepth. rewrite E1, E2.
      apply Qdiv_le_cross; try assumption.
      apply amountFor_average_ask; try assumption; [|lra].
      apply askOrdered_strongly, Hask.
Qed.

Lemma layer_bids_ordered : bidOrdered layer_bids.
Proof. repeat constructor. Qed.

Lemma layer_asks_ordered : askOrdered layer_asks.
Proof. repeat constructor. Qed.

(** The books of [TestStrategy_getLayerPrice]: 1300 for one unit against
    3700/3 for three on the bid side, 1301 against 4101/3 on the ask side. *)
Lemma aggregatePrice_monotone_exact_sample :
  (exists r1 r2, aggregatePrice layer_bids 1%Q = Some r1
     /\ aggregatePrice layer_bids 3%Q = Some r2 /\ (r2 <= r1)%Q)
  /\ (exists r1 r2, aggregatePrice layer_asks 1%Q = Some r1
     /\ aggregatePrice layer_asks 3%Q = Some r2 /\ (r1 <= r2)%Q).
Proof.
  split.
  - destruct (aggregatePrice_monotone_exact layer_bids 1%Q 3%Q)
      as (r1 & r2 & Hr1 & Hr2 & Hbid & _).
    + reflexivity.
    + reflexivity.
    + repeat constructor; vm_compute; discriminate.
    + exists r1, r2. split; [exact Hr1|]. split; [exact Hr2|].
      apply Hbid; [exact layer_bids_ordered|].
      repeat constructor; vm_compute; discriminate.
  - destruct (aggregatePrice_monotone_exact layer_asks 1%Q 3%Q)
      as (r1 & r2 & Hr1 & Hr2 & _ & Hask).
    + reflexivity.
    + reflexivity.
    + repeat constructor; vm_compute; discriminate.
    + exists r1, r2. split; [exact Hr1|]. split; [exact Hr2|].
      apply Hask; [exact layer_asks_ordered|].
      vm_compute. discriminate.
Defined.

(** *** Rounded products and quotient *)

Lemma resolution_nonneg rho : withinResolution rho -> (0 <= resolution rho)%Q.
Proof. intros H. destruct (H 0%Q) as [Hl Hu]. lra. Qed.

Lemma exactArithmetic_within : withinResolution exactArithmetic.
Proof. intros x. simpl. lra. Qed.

(** Cutting the digits beyond the eighth decimal moves a number by less
    than one unit of the eighth decimal. *)
Lemma truncation8_within : withinResolution truncation8.
Proof.
  intros x. unfold truncation8, resolution, round, truncate8.
  set (y := (x * 100000000)%Q).
  set (k := Z.quot (Qnum y) (Z.pos (Qden y))).
  assert (Hx : (x == y * (1 # 100000000))%Q) by (unfold y; field).
  assert (Hk : (k # 100000000 == inject_Z k * (1 # 100000000))%Q)
    by (unfold Qeq; simpl; lia).
  assert (Hnear : (inject_Z k - 1 <= y)%Q /\ (y <= inject_Z k + 1)%Q).
  { pose proof (Z.quot_rem' (Qnum y) (Z.pos (Qden y))) as Hdiv.
    pose proof (Z.rem_bound_abs (Qnum y) (Z.pos (Qden y))) as Hrem.
    fold k in Hdiv. destruct y as [n d]. simpl in *.
    assert (Hr : Z.abs (Z.rem n (Z.pos d)) < Z.pos d) by (apply Hrem; lia).
    unfold Qle. simpl. split; lia. }
  destruct Hnear as [Hlo Hhi]. split; lra.
Qed.

(** With no rounding the second embedding is the first. *)
Lemma aggregatePriceRounded_exact pvs (requiredQuantity : Value) :
  aggregatePriceRounded exactArithmetic pvs requiredQuantity
  = aggregatePrice pvs requiredQuantity.
Proof.
  assert (Hloop : forall l q acc,
            aggregateLoopRounded exactArithmetic l q acc = aggregateLoop l q acc).
  { induction l as [|pv l IH]; intros q acc; [reflexivity|].
    cbn [aggregateLoopRounded aggregateLoop]. rewrite IH. reflexivity. }
  destruct pvs as [|pv0 rest]; [reflexivity|].
  unfold aggregatePriceRounded, aggregatePrice. rewrite Hloop. reflexivity.
Qed.

Lemma levels_cons (pv : PriceVolume) (rest : PriceVolumeSlice) :
  (inject_Z (Z.of_nat (length (pv :: rest)))
   == 1 + inject_Z (Z.of_nat (length rest)))%Q.
Proof.
  cbn [length]. rewrite Nat2Z.inj_succ, <- Z.add_1_l, inject_Z_plus. reflexivity.
Qed.

Lemma levels_nonneg (pvs : PriceVolumeSlice) :
  (0 <= inject_Z (Z.of_nat (length pvs)))%Q.
Proof. change 0%Q with (inject_Z 0). rewrite <- Zle_Qle. lia. Qed.

Lemma roundingSlack_nonneg rho pvs (requiredQuantity : Value) :
  withinResolution rho -> (0 < requiredQuantity)%Q ->
  (0 <= roundingSlack rho pvs requiredQuantity)%Q.
Proof.
  intros Hrho Hq. unfold roundingSlack.
  apply Qmult_le_0_compat; [apply resolution_nonneg, Hrho|].
  assert (0 <= inject_Z (Z.of_nat (length pvs)) / requiredQuantity)%Q.
  { apply Qle_shift_div_l; [exact Hq|]. pose proof (levels_nonneg pvs). lra. }
  lra.
Qed.

Lemma roundingSlack_exact rho pvs (requiredQuantity : Value) :
  (resolution rho == 0)%Q -> (roundingSlack rho pvs requiredQuantity == 0)%Q.
Proof. intros E. unfold roundingSlack. rewrite E. ring. Qed.

(** Each product of the loop is off by at most one resolution: after the
    loop the rounded amount is off by at most one resolution per level. *)
Lemma aggregateLoopRounded_near rho pvs :
  withinResolution rho ->
  forall (q acc accR e : Value),
    (acc - e <= accR)%Q -> (accR <= acc + e)%Q ->
    (aggregateLoop pvs q acc
     - (e + inject_Z (Z.of_nat (length pvs)) * resolution rho)
     <= aggregateLoopRounded rho pvs q accR)%Q
    /\ (aggregateLoopRounded rho pvs q accR
        <= aggregateLoop pvs q acc
           + (e + inject_Z (Z.of_nat (length pvs)) * resolution rho))%Q.
Proof.
  intros Hrho. pose proof (resolution_nonneg rho Hrho) as Hres.
  induction pvs as [|pv rest IH]; intros q acc accR e Hl Hu.
  - cbn [aggregateLoop aggregateLoopRounded length].
    change (inject_Z (Z.of_nat 0)) with 0%Q. split; lra.
  - pose proof (levels_nonneg rest) as Hn.
    assert (Hnr : (0 <= inject_Z (Z.of_nat (length rest)) * resolution rho)%Q)
      by (apply Qmult_le_0_compat; assumption).
    rewrite levels_cons.
    cbn [aggregateLoop aggregateLoopRounded].
    destruct (Compare (Volume pv) q >=? 0).
    + unfold Add, Mul, MulRounded.
      destruct (Hrho (q * Price pv)%Q) as [Hlo Hhi]. split; lra.
    + destruct (Hrho (Volume pv * Price pv)%Q) as [Hlo Hhi].
      destruct (IH (Sub q (Volume pv)) (Add acc (Mul (Volume pv) (Price pv)))
                  (Add accR (MulRounded rho (Volume pv) (Price pv)))
                  (e + resolution rho)%Q) as [IHlo IHhi];
        [unfold Add, Mul, MulRounded; lra..|].
      split; lra.
Qed.

(** The rounded aggregator answers whenever the exact one does, within the
    rounding slack of it, and with the best price itself when the first
    level holds the quantity: the shortcut involves no arithmetic. *)
Lemma aggregatePriceRounded_near rho pv0 (rest : PriceVolumeSlice)
    (requiredQuantity : Value) :
  withinResolution rho -> (0 < requiredQuantity)%Q ->
  exists r rR,
    aggregatePrice (pv0 :: rest) requiredQuantity = Some r
    /\ aggregatePriceRounded rho (pv0 :: rest) requiredQuantity = Some rR
    /\ (r - roundingSlack rho (pv0 :: rest) requiredQuantity <= rR)%Q
    /\ (rR <= r + roundingSlack rho (pv0 :: rest) requiredQuantity)%Q
    /\ ((requiredQuantity <= Volume pv0)%Q -> rR = Price pv0).
Proof.
  intros Hrho Hq.
  pose proof (roundingSlack_nonneg rho (pv0 :: rest) requiredQuantity Hrho Hq)
    as Hslack.
  unfold aggregatePrice, aggregatePriceRounded.
  destruct (Compare (Volume pv0) requiredQuantity >=? 0) eqn:Hc.
  - exists (Price pv0), (Price pv0).
    split; [reflexivity|]. split; [reflexivity|]. repeat split; lra.
  - assert (Hnz : IsZero requiredQuantity = false).
    { unfold IsZero. destruct (Qeq_bool requiredQuantity 0) eqn:E; [|reflexivity].
      apply Qeq_bool_iff in E. lra. }
    unfold Div, DivRounded. rewrite Hnz.
    eexists. eexists. split; [reflexivity|]. split; [reflexivity|].
    destruct (aggregateLoopRounded_near rho (pv0 :: rest) Hrho requiredQuantity
                Zero Zero 0%Q) as [Hlo Hhi]; [unfold Zero; lra..|].
    set (A := aggregateLoop (pv0 :: rest) requiredQuantity Zero) in *.
    set (AR := aggregateLoopRounded rho (pv0 :: rest) requiredQuantity Zero) in *.
    set (n := inject_Z (Z.of_nat (length (pv0 :: rest)))) in *.
    destruct (Hrho (AR / requiredQuantity)%Q) as [Rlo Rhi].
    assert (Hdivlo : (A / requiredQuantity
                      - n * resolution rho / requiredQuantity
                      <= AR / requiredQuantity)%Q).
    { apply Qle_shift_div_l; [exact Hq|].
      assert (E : ((A / requiredQuantity - n * resolution rho / requiredQuantity)
                   * requiredQuantity == A - n * resolution rho)%Q) by (field; lra).
      rewrite E. lra. }
    assert (Hdivhi : (AR / requiredQuantity
                      <= A / requiredQuantity
                         + n * resolution rho / requiredQuantity)%Q).
    { apply Qle_shift_div_r; [exact Hq|].
      assert (E : ((A / requiredQuantity + n * resolution rho / requiredQuantity)
                   * requiredQuantity == A + n * resolution rho)%Q) by (field; lra).
      rewrite E. lra. }
    assert (Es : (roundingSlack rho (pv0 :: rest) requiredQuantity
                  == resolution rho + n * resolution rho / requiredQuantity)%Q)
      by (unfold roundingSlack; fold n; field; lra).
    split; [lra|]. split; [lra|].
    intros Hle. apply Compare_ge0 in Hle. congruence.
Qed.

(** C6 (as amended).  Whatever the rounding of the products and of the
    quotient, as long as it stays within its resolution: for required
    quantities [0 < Q1 < Q2] on a side with non-negative volumes the
    aggregator answers both, and the two answers are ordered up to the
    rounding slack of the two quantities: on a bid side (strictly
    decreasing, non-negative prices) the answer for [Q2] is at most the
    answer for [Q1] plus the slack; on an ask side (strictly increasing
    prices) holding at least [Q2] the answer for [Q1] is at most the answer
    for [Q2] plus the slack.  Where nothing is rounded the slack is zero
    and the order is exact. *)
Theorem aggregatePrice_monotone rho pvs (Q1 Q2 : Value) :
  withinResolution rho ->
  (0 < Q1)%Q -> (Q1 < Q2)%Q -> volumesNonneg pvs ->
  exists r1 r2,
    aggregatePriceRounded rho pvs Q1 = Some r1
    /\ aggregatePriceRounded rho pvs Q2 = Some r2
    /\ (bidOrdered pvs -> pricesNonneg pvs ->
        (r2 <= r1 + (roundingSlack rho pvs Q1 + roundingSlack rho pvs Q2))%Q
        /\ ((resolution rho == 0)%Q -> (r2 <= r1)%Q))
    /\ (askOrdered pvs -> (Q2 <= totalVolume pvs)%Q ->
        (r1 <= r2 + (roundingSlack rho pvs Q1 + roundingSlack rho pvs Q2))%Q
        /\ ((resolution rho == 0)%Q -> (r1 <= r2)%Q)).
Proof.
  intros Hrho H1 H12 Hv. assert (H2 : (0 < Q2)%Q) by lra.
  destruct pvs as [|pv0 rest].
  - exists Zero, Zero. split; [reflexivity|]. split; [reflexivity|].
    pose proof (roundingSlack_nonneg rho [] Q1 Hrho H1).
    pose proof (roundingSlack_nonneg rho [] Q2 Hrho H2).
    unfold Zero. split; intros; split; intros; lra.
  - destruct (aggregatePrice_monotone_exact (pv0 :: rest) Q1 Q2 H1 H12 Hv)
      as (e1 & e2 & He1 & He2 & Hbid & Hask).
    destruct (aggregatePriceRounded_near rho pv0 rest Q1 Hrho H1)
      as (e1' & r1 & He1' & Hr1 & Hlo1 & Hhi1 & _).
    destruct (aggregatePriceRounded_near rho pv0 rest Q2 Hrho H2)
      as (e2' & r2 & He2' & Hr2 & Hlo2 & Hhi2 & _).
    assert (e1' = e1) by congruence. assert (e2' = e2) by congruence. subst e1' e2'.
    exists r1, r2. split; [exact Hr1|]. split; [exact Hr2|]. split.
    + intros Hb Hp. specialize (Hbid Hb Hp). split; [lra|].
      intros E. pose proof (roundingSlack_exact rho (pv0 :: rest) Q1 E).
      pose proof (roundingSlack_exact rho (pv0 :: rest) Q2 E). lra.
    + intros Ha Hd. specialize (Hask Ha Hd). split; [lra|].
      intros E. pose proof (roundingSlack_exact rho (pv0 :: rest) Q1 E).
      pose proof (roundingSlack_exact rho (pv0 :: rest) Q2 E). lra.
Qed.

Lemma close_bids_ordered : bidOrdered close_bids.
Proof. repeat constructor. Qed.

(** With eight decimals cut off, on [close_bids]: 0.49999995 for
    0.10000001 against 0.5 for 0.10000002.  The order is off by five units
    of the eighth decimal, within the slack. *)
Lemma aggregatePrice_monotone_witness :
  exists r1 r2,
    aggregatePriceRounded truncation8 close_bids (10000001 # 100000000)%Q = Some r1
    /\ aggregatePriceRounded truncation8 close_bids (10000002 # 100000000)%Q = Some r2
    /\ (r1 == 49999995 # 100000000)%Q /\ (r2 == 1 # 2)%Q
    /\ (r2 <= r1 + (roundingSlack truncation8 close_bids (10000001 # 100000000)
                    + roundingSlack truncation8 close_bids (10000002 # 100000000)))%Q.
Proof.
  destruct (aggregatePrice_monotone truncation8 close_bids
              (10000001 # 100000000)%Q (10000002 # 100000000)%Q)
    as (r1 & r2 & Hr1 & Hr2 & Hbid & _).
  - exact truncation8_within.
  - reflexivity.
  - reflexivity.
  - repeat constructor; vm_compute; discriminate.
  - exists r1, r2. split; [exact Hr1|]. split; [exact Hr2|].
    split; [vm_compute in Hr1; injection Hr1 as <-; reflexivity|].
    split; [vm_compute in Hr2; injection Hr2 as <-; reflexivity|].
    apply Hbid; [exact close_bids_ordered|].
    repeat constructor; vm_compute; discriminate.
Defined.

(** The order of the specification is not exact under rounding: with eight
    decimals cut off the larger quantity gets the higher price on the bid
    side [close_bids]. *)
Remark truncation_reverses_bid_order :
  exists r1 r2,
    aggregatePriceRounded truncation8 close_bids (10000001 # 100000000)%Q = Some r1
    /\ aggregatePriceRounded truncation8 close_bids (10000002 # 100000000)%Q = Some r2
    /\ (r1 < r2)%Q.
Proof. eexists. eexists. split; [vm_compute; reflexivity|]. split; reflexivity. Qed.

(** C6 as worded fails on the ask side once the side is too thin: the ask
    side of [TestStrategy_getLayerPrice] holds 6 units worth 8601, so the
    aggregated price is 8601/6 for 6 units and 8601/12 for 12 units. *)
Lemma vwapMonotone_fails : ~ vwapMonotone.
Proof.
  intros [_ Hask].
  specialize (Hask layer_asks 6%Q 12%Q _ _ layer_asks_ordered
                eq_refl eq_refl eq_refl eq_refl).
  vm_compute in Hask. apply Hask. reflexivity.
Qed.

End Monotonicity.

(** ** The sequence cursor of the coinbase stream *)

Section SequenceCursor.

Import coinbase.

Implicit Types (s : Stream) (msg : TickerMessage) (msgs : list TickerMessage)
  (key : string).

Lemma tradeUpdates_handle s msg :
  tradeUpdates (handleTickerMessage s msg)
  = if (latestSeq s (keyOf msg) <? Sequence msg)%N
    then tradeUpdates s ++ [msg] else tradeUpdates s.
Proof.
  unfold handleTickerMessage, checkAndUpdateSequenceNumber, keyOf.
  rewrite N.ltb_antisym. destruct (_ <=? _)%N; reflexivity.
Qed.

Lemma latestSeq_handle s msg key :
  latestSeq (handleTickerMessage s msg) key
  = if decide (keyOf msg = key)
    then N.max (latestSeq s key) (Sequence msg) else latestSeq s key.
Proof.
  unfold handleTickerMessage, checkAndUpdateSequenceNumber.
  fold (keyOf msg).
  destruct (Sequence msg <=? latestSeq s (keyOf msg))%N eqn:E;
    destruct (decide (keyOf msg = key)) as [<-|Hne]; simpl; try reflexivity.
  - apply N.leb_le in E. lia.
  - apply N.leb_gt in E. unfold latestSeq at 1. simpl.
    rewrite lookup_insert_eq. simpl. lia.
  - unfold latestSeq. simpl. rewrite lookup_insert_ne by exact Hne. reflexivity.
Qed.

Lemma largestSeen_cons msg msgs key :
  largestSeen key (msg :: msgs)
  = if decide (keyOf msg = key)
    then N.max (Sequence msg) (largestSeen key msgs) else largestSeen key msgs.
Proof.
  unfold largestSeen, forKey. rewrite filter_cons.
  destruct (decide (keyOf msg = key)); reflexivity.
Qed.

(** The cursor of a key holds the largest sequence number seen for it. *)
Lemma latestSeq_deliver msgs : forall s key,
  latestSeq (deliver s msgs) key = N.max (latestSeq s key) (largestSeen key msgs).
Proof.
  induction msgs as [|msg msgs IH]; intros s key.
  - unfold largestSeen. simpl. lia.
  - change (deliver s (msg :: msgs)) with (deliver (handleTickerMessage s msg) msgs).
    rewrite IH, latestSeq_handle, largestSeen_cons.
    destruct (decide (keyOf msg = key)); lia.
Qed.

Lemma StronglySorted_snoc (l : list N) (x : N) :
  StronglySorted N.lt l -> Forall (fun n => (n < x)%N) l ->
  StronglySorted N.lt (l ++ [x]).
Proof.
  induction 1 as [|y l Hl IH Hy]; intros Hx; simpl.
  - repeat constructor.
  - inversion Hx as [|? ? Hyx Hlx]; subst. constructor.
    + apply IH, Hlx.
    + apply Forall_app. split; [exact Hy|]. repeat constructor. exact Hyx.
Qed.

Lemma cursorInvariant_handle s msg :
  cursorInvariant s -> cursorInvariant (handleTickerMessage s msg).
Proof.
  intros Hinv key. destruct (Hinv key) as [Hsorted Hbound].
  unfold processedSeqs in *. rewrite tradeUpdates_handle, latestSeq_handle.
  destruct (latestSeq s (keyOf msg) <? Sequence msg)%N eqn:E.
  - apply N.ltb_lt in E. unfold forKey in *. rewrite list.filter_app, fmap_app.
    rewrite filter_cons, filter_nil.
    destruct (decide (keyOf msg = key)) as [<-|Hne]; simpl.
    + split.
      * apply StronglySorted_snoc; [exact Hsorted|].
        revert Hbound. apply Forall_impl. intros n Hn. lia.
      * apply Forall_app. split.
        -- revert Hbound. apply Forall_impl. intros n Hn. lia.
        -- repeat constructor. lia.
    + rewrite app_nil_r. split; assumption.
  - split; [exact Hsorted|].
    destruct (decide (keyOf msg = key)); [|exact Hbound].
    revert Hbound. apply Forall_impl. intros n Hn. lia.
Qed.

Lemma cursorInvariant_deliver msgs : forall s,
  cursorInvariant s -> cursorInvariant (deliver s msgs).
Proof.
  induction msgs as [|msg msgs IH]; intros s Hinv; [exact Hinv|].
  apply IH, cursorInvariant_handle, Hinv.
Qed.

Lemma cursorInvariant_new : cursorInvariant newStream.
Proof. intros key. split; constructor. Qed.

Lemma agreeOn_handle_both key s1 s2 msg :
  agreeOn key s1 s2 -> keyOf msg = key ->
  agreeOn key (handleTickerMessage s1 msg) (handleTickerMessage s2 msg).
Proof.
  intros [Hseq Hupd] Hk. split.
  - rewrite !latestSeq_handle, Hseq. reflexivity.
  - rewrite !tradeUpdates_handle, Hk, Hseq.
    destruct (_ <? _)%N; [|exact Hupd].
    unfold forKey in *. rewrite !list.filter_app, Hupd. reflexivity.
Qed.

Lemma agreeOn_handle_other key s1 s2 msg :
  agreeOn key s1 s2 -> keyOf msg <> key ->
  agreeOn key (handleTickerMessage s1 msg) s2.
Proof.
  intros [Hseq Hupd] Hk. split.
  - rewrite latestSeq_handle. destruct (decide _); [contradiction|exact Hseq].
  - rewrite tradeUpdates_handle. destruct (_ <? _)%N; [|exact Hupd].
    unfold forKey in *. rewrite list.filter_app, filter_cons, filter_nil.
    destruct (decide _); [contradiction|]. rewrite app_nil_r. exact Hupd.
Qed.

Lemma agreeOn_deliver key msgs : forall s1 s2,
  agreeOn key s1 s2 ->
  agreeOn key (deliver s1 msgs) (deliver s2 (forKey key msgs)).
Proof.
  induction msgs as [|msg msgs IH]; intros s1 s2 Hag; [exact Hag|].
  unfold forKey. rewrite filter_cons.
  destruct (decide (keyOf msg = key)) as [Hk|Hk]; simpl.
  - apply IH, agreeOn_handle_both; assumption.
  - apply IH, agreeOn_handle_other; assumption.
Qed.

(** A stream that only receives messages of one key only processes
    messages of that key. *)
Lemma deliver_own_key key msgs : forall s,
  Forall (fun m => keyOf m = key) msgs ->
  forKey key (tradeUpdates s) = tradeUpdates s ->
  forKey key (tradeUpdates (deliver s msgs)) = tradeUpdates (deliver s msgs).
Proof.
  induction msgs as [|msg msgs IH]; intros s Hall Hs; [exact Hs|].
  inversion Hall as [|? ? Hk Hrest]; subst.
  apply IH; [exact Hrest|].
  rewrite tradeUpdates_handle. destruct (_ <? _)%N; [|exact Hs].
  unfold forKey in *. rewrite list.filter_app, Hs, filter_cons, filter_nil.
  destruct (decide _); [reflexivity|contradiction].
Qed.

Lemma forKey_all key msgs : Forall (fun m => keyOf m = key) (forKey key msgs).
Proof.
  apply Forall_forall. intros m Hm.
  apply list_elem_of_In, list_elem_of_filter in Hm. apply Hm.
Qed.

(** By formatted key.  On a stream started with an empty cursor map that
    has been delivered [msgs]: the cursor of every key is the largest
    sequence number seen for that key; the next message is processed exactly
    when its sequence number strictly exceeds that number for its own key,
    and dropped without any effect otherwise; the sequence numbers processed
    for a key are strictly increasing; and what is processed for a key is
    what would be processed had only the messages of that key been
    delivered. *)
Lemma sequence_cursor_by_key msgs msg key :
  let s := deliver newStream msgs in
  latestSeq s key = largestSeen key msgs
  /\ handleTickerMessage s msg
     = (if (largestSeen (keyOf msg) msgs <? Sequence msg)%N
        then mkStream (<[keyOf msg := Sequence msg]> (lastSequenceMsgMap s))
                      (tradeUpdates s ++ [msg])
        else s)
  /\ StronglySorted N.lt (processedSeqs key s)
  /\ forKey key (tradeUpdates s)
     = tradeUpdates (deliver newStream (forKey key msgs)).
Proof.
  intros s. subst s.
  assert (Hlatest : forall k,
            latestSeq (deliver newStream msgs) k = largestSeen k msgs).
  { intros k. rewrite latestSeq_deliver. unfold latestSeq at 1. simpl.
    rewrite lookup_empty. simpl. lia. }
  split; [apply Hlatest|]. split; [|split].
  - unfold handleTickerMessage, checkAndUpdateSequenceNumber.
    fold (keyOf msg). rewrite Hlatest, N.ltb_antisym.
    destruct (_ <=? _)%N; simpl; [|reflexivity].
    destruct (deliver newStream msgs); reflexivity.
  - apply (cursorInvariant_deliver msgs newStream cursorInvariant_new key).
  - destruct (agreeOn_deliver key msgs newStream newStream) as [_ H].
    { split; reflexivity. }
    rewrite H. apply deliver_own_key; [apply forKey_all|reflexivity].
Qed.

(** Two (message type, product) pairs with dash-free message types share a
    cursor only when they are the same pair; a dash inside the message type
    would let two pairs collide. *)
Lemma sequenceKey_inj (t1 t2 : MessageType) (p1 p2 : string) :
  dashFree t1 = true -> dashFree t2 = true ->
  sequenceKey t1 p1 = sequenceKey t2 p2 -> t1 = t2 /\ p1 = p2.
Proof.
  assert (Hnil : forall x : string, "" +:+ x = x) by reflexivity.
  assert (Hcons : forall c (x y : string), String c x +:+ y = String c (x +:+ y))
    by reflexivity.
  unfold sequenceKey. revert t2.
  induction t1 as [|c1 t1 IH]; intros [|c2 t2] H1 H2 E; cbn in H1, H2;
    rewrite ?Hcons, ?Hnil in E.
  - injection E as E. subst. split; reflexivity.
  - injection E as Ec _. subst c2. discriminate.
  - injection E as Ec _. subst c1. discriminate.
  - injection E as Ec E. subst c2.
    apply andb_prop in H1 as [_ H1]. apply andb_prop in H2 as [_ H2].
    destruct (IH t2 H1 H2 E) as [-> ->]. split; reflexivity.
Qed.

Remark sequenceKey_collision :
  sequenceKey "ticker-BTC" "USD" = sequenceKey "ticker" "BTC-USD".
Proof. reflexivity. Qed.

(** A first message numbered 0 is dropped: a missing cursor reads as 0. *)
Remark first_message_zero_dropped :
  handleTickerMessage newStream (mkTicker "ticker" "BTC-USD" 0%N) = newStream.
Proof. reflexivity. Qed.

(** Among messages with dash-free types, the messages of a pair are the
    messages of its key. *)
Lemma forPair_forKey (t : MessageType) (p : string) msgs :
  dashFree t = true -> dashFreeTypes msgs ->
  forPair (t, p) msgs = forKey (sequenceKey t p) msgs.
Proof.
  intros Ht Hall. unfold forPair, forKey.
  induction Hall as [|m msgs Hm _ IH]; [reflexivity|].
  rewrite !filter_cons, IH.
  destruct (decide (pairOf m = (t, p))) as [Hp|Hp];
    destruct (decide (keyOf m = sequenceKey t p)) as [Hk|Hk]; try reflexivity.
  - exfalso. apply Hk. unfold keyOf. unfold pairOf in Hp.
    injection Hp as -> ->. reflexivity.
  - exfalso. apply Hp. unfold keyOf in Hk.
    destruct (sequenceKey_inj _ _ _ _ Hm Ht Hk) as [E1 E2].
    unfold pairOf. rewrite E1, E2. reflexivity.
Qed.

(** Only delivered messages are processed. *)
Lemma tradeUpdates_delivered (P : TickerMessage -> Prop) msgs : forall s,
  Forall P msgs -> Forall P (tradeUpdates s) ->
  Forall P (tradeUpdates (deliver s msgs)).
Proof.
  induction msgs as [|m msgs IH]; intros s Hall Hs; [exact Hs|].
  inversion Hall as [|? ? Hm Hrest]; subst.
  apply IH; [exact Hrest|]. rewrite tradeUpdates_handle.
  destruct (_ <? _)%N; [|exact Hs].
  apply Forall_app. split; [exact Hs|]. constructor; [exact Hm|constructor].
Qed.

Lemma foldr_max_lt (l : list N) (x : N) :
  (foldr N.max 0 l < x)%N <-> (0 < x)%N /\ Forall (fun n => (n < x)%N) l.
Proof.
  induction l as [|n l IH]; simpl.
  - split; [intros H; split; [exact H|constructor]|intros [H _]; exact H].
  - rewrite N.max_lub_lt_iff, IH. split.
    + intros (Hn & H0 & Hl). split; [exact H0|]. constructor; assumption.
    + intros (H0 & Hall). inversion Hall; subst. repeat split; assumption.
Qed.

(** C7 (as amended).  For messages whose types hold no dash, on a stream
    started with an empty cursor map that has been delivered [msgs]: the
    cursor of every (message type, product) pair is the largest sequence
    number seen for that pair, 0 when none was seen; the next message is
    accepted exactly when its sequence number strictly exceeds that number
    for its own pair, that is, when it is positive and exceeds the number
    of every earlier message of the pair, and is dropped without any effect
    otherwise; the sequence numbers processed for a pair are strictly
    increasing; and what is processed for a pair is what would be processed
    had only the messages of that pair been delivered. *)
Theorem sequence_cursor msgs msg (pair : MessageType * string) :
  dashFreeTypes (msg :: msgs) -> dashFree pair.1 = true ->
  let s := deliver newStream msgs in
  cursorOf s pair = largestSeenOf pair msgs
  /\ (accepted s msg <-> (largestSeenOf (pairOf msg) msgs < Sequence msg)%N)
  /\ (accepted s msg
      <-> (0 < Sequence msg)%N
          /\ Forall (fun m => (Sequence m < Sequence msg)%N)
                (forPair (pairOf msg) msgs))
  /\ (~ accepted s msg -> handleTickerMessage s msg = s)
  /\ StronglySorted N.lt (processedOf pair s)
  /\ forPair pair (tradeUpdates s)
     = tradeUpdates (deliver newStream (forPair pair msgs)).
Proof.
  intros Hall Hpair s. destruct pair as [t p]. cbn [fst snd] in *.
  inversion Hall as [|? ? Hmsg Hmsgs]; subst.
  assert (Hseen : forall t' p', dashFree t' = true ->
            largestSeenOf (t', p') msgs = largestSeen (sequenceKey t' p') msgs).
  { intros t' p' Ht'. unfold largestSeenOf, largestSeen.
    rewrite forPair_forKey by assumption. reflexivity. }
  assert (Hupd : dashFreeTypes (tradeUpdates s)).
  { apply tradeUpdates_delivered; [exact Hmsgs|constructor]. }
  destruct (sequence_cursor_by_key msgs msg (sequenceKey t p))
    as (Hcur & Hnext & Hsorted & Hind).
  fold s in Hcur, Hnext, Hsorted, Hind.
  assert (Hacc : accepted s msg
                 <-> (largestSeenOf (pairOf msg) msgs < Sequence msg)%N).
  { unfold accepted, pairOf. rewrite Hseen by exact Hmsg. fold (keyOf msg).
    rewrite Hnext. destruct (_ <? _)%N eqn:E.
    - apply N.ltb_lt in E. split; [intros _; exact E|reflexivity].
    - apply N.ltb_ge in E. split; [|lia].
      intros H. apply (f_equal length) in H. rewrite length_app in H.
      simpl in H. lia. }
  split; [unfold cursorOf; cbn [fst snd]; rewrite Hseen by exact Hpair; exact Hcur|].
  split; [exact Hacc|].
  split; [rewrite Hacc; unfold largestSeenOf; rewrite foldr_max_lt, Forall_fmap;
          reflexivity|].
  split.
  { intros Hno. rewrite Hnext. destruct (_ <? _)%N eqn:E; [|reflexivity].
    exfalso. apply Hno, Hacc. unfold pairOf. rewrite Hseen by exact Hmsg.
    apply N.ltb_lt, E. }
  split.
  { unfold processedOf. rewrite forPair_forKey by assumption. exact Hsorted. }
  rewrite !forPair_forKey by assumption. exact Hind.
Qed.

Lemma sequence_cursor_witness :
  cursorOf (deliver newStream sampleFeed) ("ticker", "BTC-USD") = 6%N
  /\ accepted (deliver newStream sampleFeed) (mkTicker "ticker" "BTC-USD" 7%N)
  /\ handleTickerMessage (deliver newStream sampleFeed)
       (mkTicker "ticker" "BTC-USD" 6%N)
     = deliver newStream sampleFeed
  /\ processedOf ("ticker", "BTC-USD") (deliver newStream sampleFeed) = [5%N; 6%N].
Proof.
  assert (Hfeed : forall msg, dashFree (Type_ msg) = true ->
            dashFreeTypes (msg :: sampleFeed)).
  { intros msg Hmsg. constructor; [exact Hmsg|]. repeat constructor. }
  destruct (sequence_cursor sampleFeed (mkTicker "ticker" "BTC-USD" 7%N)
              ("ticker", "BTC-USD")
              (Hfeed (mkTicker "ticker" "BTC-USD" 7%N) eq_refl) eq_refl)
    as (Hcur & Hacc & _ & _ & _ & _).
  destruct (sequence_cursor sampleFeed (mkTicker "ticker" "BTC-USD" 6%N)
              ("ticker", "BTC-USD")
              (Hfeed (mkTicker "ticker" "BTC-USD" 6%N) eq_refl) eq_refl)
    as (_ & Hacc' & _ & Hdrop & _ & _).
  split; [rewrite Hcur; reflexivity|].
  split; [apply Hacc; reflexivity|].
  split; [apply Hdrop; rewrite Hacc'; vm_compute; discriminate|reflexivity].
Defined.

(** C7 as worded fails for a first message numbered 0: no message of its
    pair has been seen, and yet it is dropped, because a missing cursor
    reads as 0. *)
Lemma sequenceCursorPerPair_fails : ~ sequenceCursorPerPair.
Proof.
  intros H.
  destruct (H [] (mkTicker "ticker" "BTC-USD" 0%N)) as [_ Hacc].
  specialize (Hacc (Forall_nil _)). vm_compute in Hacc. discriminate Hacc.
Qed.

(** It also fails, with positive numbers, for two pairs that the dash of
    the key lets collide: the first message of the pair (ticker, BTC-USD)
    is dropped after a message of the pair (ticker-BTC, USD). *)
Remark colliding_pairs_share_cursor :
  forPair ("ticker", "BTC-USD") [mkTicker "ticker-BTC" "USD" 5%N] = []
  /\ handleTickerMessage (deliver newStream [mkTicker "ticker-BTC" "USD" 5%N])
       (mkTicker "ticker" "BTC-USD" 3%N)
     = deliver newStream [mkTicker "ticker-BTC" "USD" 5%N].
Proof. split; reflexivity. Qed.

End SequenceCursor.

(** ** The futures batch-order response *)

Section BatchOrders.

Import binanceapi.

Context {T : Type} `{!OrderCodec T}.

Implicit Types (rawMsgs : list JSON) (msg : JSON)
  (f : FuturesBatchOrdersResponse T) (errs : list (option error)).

Lemma markErrors_length rawMsgs : forall i errs,
  length (markErrors i rawMsgs errs) = length errs.
Proof.
  induction rawMsgs as [|msg rest IH]; intros i errs; simpl; [reflexivity|].
  destruct (unmarshalApiErr msg) as [e|]; [destruct (isAPIError e)|];
    rewrite IH; try reflexivity.
  apply length_insert.
Qed.

Lemma markErrors_before rawMsgs : forall i errs k,
  (k < i)%nat -> markErrors i rawMsgs errs !! k = errs !! k.
Proof.
  induction rawMsgs as [|msg rest IH]; intros i errs k Hk; simpl; [reflexivity|].
  destruct (unmarshalApiErr msg) as [e|]; [destruct (isAPIError e)|];
    rewrite IH by lia; try reflexivity.
  apply list_lookup_insert_ne. lia.
Qed.

(** Entry [i + j] is set exactly when item [j] is an API error object. *)
Lemma markErrors_lookup rawMsgs : forall i errs j msg,
  (i + length rawMsgs <= length errs)%nat ->
  rawMsgs !! j = Some msg ->
  markErrors i rawMsgs errs !! (i + j)%nat
  = if apiErrorItem msg
    then match unmarshalApiErr msg with
         | Some e => Some (Some (ErrAPI (Code e) (Message e)))
         | None => None
         end
    else errs !! (i + j)%nat.
Proof.
  induction rawMsgs as [|m rest IH]; intros i errs j msg Hlen Hj; [discriminate|].
  simpl in Hlen. destruct j as [|j]; simpl in Hj.
  - injection Hj as ->. rewrite Nat.add_0_r. simpl. unfold apiErrorItem.
    destruct (unmarshalApiErr msg) as [e|]; [destruct (isAPIError e)|];
      rewrite markErrors_before by lia; try reflexivity.
    apply list_lookup_insert_eq. lia.
  - replace (i + S j)%nat with (S i + j)%nat by lia. simpl.
    destruct (unmarshalApiErr m) as [e|]; [destruct (isAPIError e)|];
      rewrite (IH (S i) _ j msg) by (rewrite ?length_insert; (lia || assumption));
      try reflexivity.
    destruct (apiErrorItem msg); [reflexivity|].
    apply list_lookup_insert_ne. lia.
Qed.

(** On result items the loop never fails: it marks the errors and appends
    the decoded orders to whatever [Orders] already holds. *)
Lemma unmarshalItems_result rawMsgs : forall i f,
  Forall resultItem rawMsgs ->
  unmarshalItems i rawMsgs f
  = (mkResponse (Orders f ++ placedOrders rawMsgs)
                (markErrors i rawMsgs (Errors f)), None).
Proof.
  induction rawMsgs as [|msg rest IH]; intros i f Hall; simpl.
  - rewrite app_nil_r. destruct f; reflexivity.
  - inversion Hall as [|? ? Hmsg Hrest]; subst.
    unfold placedOrders. simpl. unfold apiErrorItem.
    destruct Hmsg as [Herr|[order Horder]].
    + unfold apiErrorItem in Herr.
      destruct (unmarshalApiErr msg) as [e|]; [|discriminate].
      rewrite Herr. rewrite IH by exact Hrest. reflexivity.
    + rewrite Horder.
      destruct (unmarshalApiErr msg) as [e|]; [destruct (isAPIError e)|];
        rewrite IH by exact Hrest; simpl; rewrite <- ?app_assoc; reflexivity.
Qed.

(** C8 (what the code does).  On an array of [N] result items [Unmarshal]
    returns no error, [Errors] has length [N] and is non-nil exactly at the
    API error objects, and [Orders] is [N] zero-valued entries followed by
    the decoded orders: the orders are appended after the pre-allocated
    entries, not assigned at their own index. *)
Theorem Unmarshal_batch f (items : list JSON) :
  Forall resultItem items ->
  exists f',
    Unmarshal f (JArray items) = (f', None)
    /\ length (Errors f') = length items
    /\ (forall i msg, items !! i = Some msg ->
          (apiErrorItem msg = true -> exists e, Errors f' !! i = Some (Some e))
          /\ (apiErrorItem msg = false -> Errors f' !! i = Some None))
    /\ Orders f' = replicate (length items) zeroOrder ++ placedOrders items.
Proof.
  intros Hall. unfold Unmarshal. simpl.
  rewrite unmarshalItems_result by exact Hall. simpl.
  eexists. split; [reflexivity|]. simpl. split; [|split].
  - rewrite markErrors_length. apply length_replicate.
  - intros i msg Hi.
    pose proof (markErrors_lookup items 0 (replicate (length items) None) i msg) as H.
    simpl in H. rewrite H; [|rewrite length_replicate; lia|exact Hi].
    split; intros E; rewrite E.
    + unfold apiErrorItem in E.
      destruct (unmarshalApiErr msg) as [e|]; [|discriminate]. eauto.
    + apply lookup_replicate_2. eapply lookup_lt_Some, Hi.
  - reflexivity.
Qed.

End BatchOrders.

Section BatchOrdersSample.

Import binanceapi.

Lemma sampleItems_result : Forall resultItem sampleItems.
Proof.
  constructor; [right; eexists; reflexivity|].
  constructor; [left; reflexivity|constructor].
Qed.

(** The sample batch: one placed order and one rejection.  [Orders] comes
    back with three entries, the placed order last. *)
Lemma Unmarshal_batch_witness :
  exists f',
    Unmarshal (mkResponse [] []) sampleBatch = (f', None)
    /\ Orders f' = [zeroOrder; zeroOrder; mkSampleOrder 7 "BTCUSDT"]
    /\ Errors f' = [None; Some (ErrAPI (-2010) "rejected")].
Proof.
  destruct (Unmarshal_batch (mkResponse [] []) sampleItems sampleItems_result)
    as (f' & Hrun & _ & _ & Horders).
  exists f'. split; [exact Hrun|]. split; [exact Horders|].
  change (JArray sampleItems) with sampleBatch in Hrun.
  vm_compute in Hrun. injection Hrun as <-. reflexivity.
Defined.

(** Per-index assignment does not hold on the sample batch: index 0 of
    [Orders] holds a zero-valued entry, not the order of item 0. *)
Lemma Unmarshal_not_per_index :
  ~ perIndexOrders sampleItems (fst (Unmarshal (mkResponse [] []) sampleBatch)).
Proof.
  intros H.
  specialize (H 0%nat _ (mkSampleOrder 7 "BTCUSDT") eq_refl eq_refl eq_refl).
  vm_compute in H. discriminate.
Qed.

End BatchOrdersSample.

(** ** The quoting tick *)

Section Quoting.

Implicit Types (s : Strategy) (env : Env) (g : Gates).

Lemma reportsStale_stale (b : PriceHeartBeat) (current : PriceVolume) (now : Time) :
  reportsStale b current now = true <-> stale b current now.
Proof.
  unfold reportsStale, HeartBeatUpdate, stale.
  destruct (Qeq_bool (hbLast b) (Price current)) eqn:E; simpl.
  - apply Qeq_bool_iff in E. rewrite Z.gtb_ltb, Z.ltb_lt. tauto.
  - split; [discriminate|]. intros [H _]. apply Qeq_bool_iff in H. congruence.
Qed.

Lemma Div_two (a : Value) : Div a two = Some (a / two)%Q.
Proof. reflexivity. Qed.

(** C5.  Whenever the bid heartbeat or the ask heartbeat reports stale for
    the best prices of the tick (the best price is the one last seen and
    has not changed for more than the timeout), [updateQuote] returns
    without handing any order to the maker venue and without any order
    being created.  With the heartbeats of [Initialize] the timeout is
    [priceUpdateTimeout], 30 seconds. *)
Theorem stale_price_no_orders env s (bestBid bestAsk : PriceVolume) :
  BestBidAndAsk (book env) = Some (bestBid, bestAsk) ->
  reportsStale (bidPriceHeartBeat s) bestBid (nowBid env) = true
  \/ reportsStale (askPriceHeartBeat s) bestAsk (nowAsk env) = true ->
  (exists r, updateQuote env s = Some r /\ submitted r = [] /\ created r = []
             /\ orderStore (after r) = orderStore s)
  /\ hbTimeout (bidPriceHeartBeat (Initialize s)) = 30 * Second
  /\ hbTimeout (askPriceHeartBeat (Initialize s)) = 30 * Second.
Proof.
  intros Hbest Hstale. split; [|split; reflexivity].
  unfold updateQuote.
  destruct (GracefulCancel env (activeMakerOrders s)) as [active cancelErr].
  destruct cancelErr; [eexists; repeat split; reflexivity|].
  destruct (0 <? NumOfOrders _)%nat; [eexists; repeat split; reflexivity|].
  destruct (CircuitBreaker _ && IsHalted env);
    [eexists; repeat split; reflexivity|].
  rewrite Hbest, Div_two. simpl.
  destruct (HeartBeatUpdate (bidPriceHeartBeat s) bestBid (nowBid env))
    as [bidHB bidErr] eqn:Ebid.
  destruct bidErr; [eexists; repeat split; reflexivity|].
  simpl.
  destruct (HeartBeatUpdate (askPriceHeartBeat s) bestAsk (nowAsk env))
    as [askHB askErr] eqn:Eask.
  destruct askErr; [eexists; repeat split; reflexivity|].
  exfalso. destruct Hstale as [H|H]; unfold reportsStale in H.
  - rewrite Ebid in H. discriminate.
  - rewrite Eask in H. discriminate.
Qed.

(** At 31 seconds, with a best bid of 1300 unchanged since instant 0. *)
Lemma stale_price_no_orders_witness :
  exists r, updateQuote (sampleEnv (31 * Second) 100%Q) staleStrategy = Some r
    /\ submitted r = [] /\ created r = [].
Proof.
  destruct (stale_price_no_orders (sampleEnv (31 * Second) 100%Q) staleStrategy
              (pv 1300 1) (pv 1301 1)) as [(r & Hr & Hs & Hc & _) _].
  - reflexivity.
  - left. apply reportsStale_stale. split; [reflexivity|]. vm_compute. reflexivity.
  - exists r. repeat split; assumption.
Defined.

(** The exposure gate never disables the bid side, and disables the ask side
    whenever the position is above the negated cap. *)
Lemma exposureGates_bid s g :
  disableMakerBid (exposureGates s g) = disableMakerBid g.
Proof.
  unfold exposureGates, Sign.
  destruct (Compare (MaxExposurePosition s) Zero >? 0) eqn:Hmax; [|reflexivity].
  destruct (Compare (Position s) (Neg (MaxExposurePosition s)) >? 0) eqn:Hneg;
    [reflexivity|].
  destruct (Compare (Position s) (MaxExposurePosition s) >? 0) eqn:Hpos;
    [|reflexivity].
  exfalso. revert Hmax Hneg Hpos. unfold Compare, Neg, Zero.
  destruct (MaxExposurePosition s ?= 0)%Q eqn:E1; try discriminate.
  destruct (Position s ?= - MaxExposurePosition s)%Q eqn:E2; try discriminate;
    destruct (Position s ?= MaxExposurePosition s)%Q eqn:E3; try discriminate;
    intros _ _ _.
  - apply Qeq_alt in E2. rewrite <- Qgt_alt in E1, E3. lra.
  - rewrite <- Qlt_alt in E2. rewrite <- Qgt_alt in E1, E3. lra.
Qed.

Lemma sampleStrategy_valid (position covered : Value) :
  Validate (sampleStrategy position covered) = true.
Proof. reflexivity. Qed.

(** C1 (what the code does).  With a cap of 5 and ample balances: at a
    position of 10 the tick still hands a buy of quantity 1 to the maker
    venue (and no sell), and at a position of -10 it hands both a buy and a
    sell of quantity 1. *)
Theorem updateQuote_exposure_not_capped :
  (exists r,
     updateQuote (sampleEnv (31 * Second) 100%Q) (sampleStrategy 10%Q 0%Q) = Some r
     /\ (soSide <$> submitted r) = [SideTypeBuy]
     /\ (soQuantity <$> submitted r) = [1%Q]
     /\ (MaxExposurePosition (sampleStrategy 10%Q 0%Q)
         < Position (sampleStrategy 10%Q 0%Q))%Q)
  /\ (exists r,
     updateQuote (sampleEnv (31 * Second) 100%Q) (sampleStrategy (-10)%Q 0%Q) = Some r
     /\ (soSide <$> submitted r) = [SideTypeBuy; SideTypeSell]
     /\ (soQuantity <$> submitted r) = [1%Q; 1%Q]
     /\ (Position (sampleStrategy (-10)%Q 0%Q)
         < - MaxExposurePosition (sampleStrategy (-10)%Q 0%Q))%Q).
Proof.
  split.
  - eexists. split; [vm_compute; reflexivity|]. repeat split.
  - eexists. split; [vm_compute; reflexivity|]. repeat split.
Qed.

End Quoting.

(** ** The hedging tick *)

Section Hedging.

Implicit Types (s : Strategy) (env : Env) (pos : Value).

Lemma Process_frame env s :
  DisableHedge (Process env s) = DisableHedge s
  /\ sourceMarket (Process env s) = sourceMarket s
  /\ activeMakerOrders (Process env s) = activeMakerOrders s
  /\ orderStore (Process env s) = orderStore s.
Proof.
  unfold Process. generalize (pendingTrades env). intros trades.
  revert s. induction trades as [|t trades IH]; intros s; [repeat split|].
  simpl. destruct (IH (onTrade (ExchangeName (sourceSession env)) s t))
    as (-> & -> & -> & ->).
  repeat split.
Qed.

Lemma hedgeSide_neg (u : Value) :
  ((0 < u)%Q -> hedgeSide (Neg u) = SideTypeSell)
  /\ ((u < 0)%Q -> hedgeSide (Neg u) = SideTypeBuy).
Proof.
  unfold hedgeSide, Sign, Compare, Neg, Zero.
  split; intros H.
  - assert (Hc : (- u ?= 0)%Q = Lt) by (apply -> Qlt_alt; lra).
    rewrite Hc. reflexivity.
  - assert (Hc : (- u ?= 0)%Q = Gt) by (apply -> Qgt_alt; lra).
    rewrite Hc. reflexivity.
Qed.

(** What [Hedge] hands to the source venue is one market order on the hedge
    side, above the minimum quantity with its gap; when the venue creates
    it, the body of [Hedge] adds the signed quantity to the covered
    position. *)
Lemma hedgeOrders_submitted env s pos (r : CallResult) (deferred : bool)
    (o : SubmitOrder) :
  hedgeOrders env s pos = Some (r, deferred) -> o ∈ submitted r ->
  deferred = true
  /\ submitted r = [o]
  /\ soType o = OrderTypeMarket
  /\ soSide o = hedgeSide pos
  /\ (Mul (MinQuantity (sourceMarket s)) minGap < soQuantity o)%Q
  /\ ~ (pos == 0)%Q
  /\ (created r <> [] ->
      CoveredPosition (after r)
      = Add (CoveredPosition s)
          (match soSide o with
           | SideTypeSell => soQuantity o
           | SideTypeBuy => Neg (soQuantity o)
           end)).
Proof.
  unfold hedgeOrders. intros Hrun Hin.
  destruct (IsZero pos) eqn:Hz;
    [injection Hrun as <- <-; inversion Hin|].
  assert (Hnz : ~ (pos == 0)%Q).
  { intros E. apply Qeq_bool_iff in E. unfold IsZero in Hz. congruence. }
  destruct (Compare _ (MinNotional _) <=? 0);
    [injection Hrun as <- <-; inversion Hin|].
  destruct (adjustToBalances _ _ _ _ _ _) as [quantity|]; [|discriminate].
  simpl in Hrun.
  destruct (Compare _ (Mul (MinNotional _) minGap) <=? 0);
    [injection Hrun as <- <-; inversion Hin|].
  destruct (Compare _ (Mul (MinQuantity _) minGap) <=? 0) eqn:Hq;
    [injection Hrun as <- <-; inversion Hin|].
  assert (Hgap : (Mul (MinQuantity (sourceMarket s)) minGap
                  < TruncateQuantity (sourceMarket s) quantity)%Q).
  { revert Hq. unfold Compare. rewrite Qgt_alt.
    destruct (_ ?= _)%Q; try discriminate. reflexivity. }
  assert (Hs' : forall s', waitReservation s = Some s' ->
            Symbol s' = Symbol s /\ sourceMarket s' = sourceMarket s
            /\ CoveredPosition s' = CoveredPosition s).
  { unfold waitReservation. intros s' H.
    destruct (hedgeErrorRateReservation s) as [res|];
      [destruct (reservationOK res)|]; simplify_eq; repeat split. }
  destruct (waitReservation s) as [s'|];
    [|injection Hrun as <- <-; inversion Hin].
  destruct (Hs' s' eq_refl) as (Hsym & Hmkt & Hcov).
  unfold FormatOrders, FormatOrder, hedgeOrder in Hrun. simpl in Hrun.
  destruct (sessionMarkets (sourceSession env) !! Symbol s') as [m|];
    simpl in Hrun; [|injection Hrun as <- <-; inversion Hin].
  destruct (exchangeSubmitOrder (sourceSession env) _) as [c|];
    simpl in Hrun; injection Hrun as <- <-; simpl in *;
    apply list_elem_of_singleton in Hin; subst o; simpl;
    (repeat split; try assumption; try congruence).
  intros _. rewrite Hcov. destruct (hedgeSide pos); reflexivity.
Qed.

(** Every order the source venue creates for [Hedge] under the strategy's
    symbol is put into [activeMakerOrders] by the order callback. *)
Lemma hedgeOrders_registers env s pos (r : CallResult) (deferred : bool)
    (c : Order) :
  hedgeOrders env s pos = Some (r, deferred) -> c ∈ created r ->
  soSymbol (orderSubmit c) = Symbol s ->
  activeMakerOrders (after r) !! OrderID c = Some c.
Proof.
  unfold hedgeOrders. intros Hrun Hin Hsym.
  destruct (IsZero pos); [injection Hrun as <- <-; inversion Hin|].
  destruct (Compare _ (MinNotional _) <=? 0);
    [injection Hrun as <- <-; inversion Hin|].
  destruct (adjustToBalances _ _ _ _ _ _) as [quantity|]; [|discriminate].
  cbn [mbind option_bind] in Hrun.
  destruct (Compare _ (Mul (MinNotional _) minGap) <=? 0);
    [injection Hrun as <- <-; inversion Hin|].
  destruct (Compare _ (Mul (MinQuantity _) minGap) <=? 0);
    [injection Hrun as <- <-; inversion Hin|].
  assert (Hs' : forall s', waitReservation s = Some s' ->
            Symbol s' = Symbol s /\ activeMakerOrders s' = activeMakerOrders s).
  { unfold waitReservation. intros s' H.
    destruct (hedgeErrorRateReservation s) as [res|];
      [destruct (reservationOK res)|]; simplify_eq; repeat split. }
  destruct (waitReservation s) as [s'|];
    [|injection Hrun as <- <-; inversion Hin].
  destruct (Hs' s' eq_refl) as (Hsym' & _).
  unfold FormatOrders, FormatOrder, hedgeOrder in Hrun. simpl in Hrun.
  destruct (sessionMarkets (sourceSession env) !! Symbol s') as [m|];
    simpl in Hrun; [|injection Hrun as <- <-; inversion Hin].
  destruct (exchangeSubmitOrder (sourceSession env) _) as [c0|];
    simpl in Hrun; injection Hrun as <- <-; simpl in *; [|inversion Hin].
  apply list_elem_of_singleton in Hin. subst c0.
  unfold ActiveAdd. rewrite Hsym', <- Hsym, String.eqb_refl.
  apply lookup_insert_eq.
Qed.

(** The order a hedging tick hands to the source venue is a market order,
    a sell when the uncovered position is positive and a buy when it is
    negative; it is only handed over with hedging enabled and an uncovered
    position above the minimum quantity in magnitude; its quantity is
    positive on a market whose minimum quantity is not negative; and once the
    venue has created it, [Hedge] has added [+q] for a sell and [-q] for a
    buy to the covered position before the deferred collector run. *)
Lemma hedgeWorkerTick_submitted env env' s (r : CallResult) (o : SubmitOrder) :
  hedgeWorkerTick env env' s = Some r -> o ∈ submitted r ->
  let s1 := Process env s in
  let uncovered := uncoverPosition s1 in
  DisableHedge s = false
  /\ (MinQuantity (sourceMarket s) < Abs uncovered)%Q
  /\ soType o = OrderTypeMarket
  /\ ((0 < uncovered)%Q -> soSide o = SideTypeSell)
  /\ ((uncovered < 0)%Q -> soSide o = SideTypeBuy)
  /\ ~ (uncovered == 0)%Q
  /\ ((0 <= MinQuantity (sourceMarket s))%Q -> (0 < soQuantity o)%Q)
  /\ (created r <> [] ->
      exists r0,
        hedgeOrders env' s1 (Neg uncovered) = Some (r0, true)
        /\ r = mkResult (Process env' (after r0)) (submitted r0) (created r0)
        /\ CoveredPosition (after r0)
           = Add (CoveredPosition s1)
               (match soSide o with
                | SideTypeSell => soQuantity o
                | SideTypeBuy => Neg (soQuantity o)
                end)).
Proof.
  intros Htick Hin s1 uncovered. unfold hedgeWorkerTick, returns in Htick.
  fold s1 in Htick. fold uncovered in Htick.
  destruct (Process_frame env s) as (Hdis & Hmkt & _ & _).
  fold s1 in Hdis, Hmkt. rewrite Hdis, Hmkt in Htick.
  destruct (DisableHedge s) eqn:Hen; cbn [negb andb] in Htick;
    [assert (Hr : mkResult s1 [] [] = r) by congruence;
     rewrite <- Hr in Hin; inversion Hin|].
  destruct (Compare (Abs uncovered) (MinQuantity (sourceMarket s)) >? 0) eqn:Hmin;
    [|assert (Hr : mkResult s1 [] [] = r) by congruence;
      rewrite <- Hr in Hin; inversion Hin].
  unfold Hedge in Htick.
  destruct (hedgeOrders env' s1 (Neg uncovered)) as [[r0 deferred]|] eqn:Hbody;
    [|discriminate].
  cbn [mbind option_bind] in Htick.
  assert (Hr : (if deferred
                then mkResult (Process env' (after r0)) (submitted r0) (created r0)
                else r0) = r) by congruence.
  clear Htick. subst r.
  assert (Hin0 : o ∈ submitted r0) by (destruct deferred; exact Hin).
  destruct (hedgeOrders_submitted env' s1 (Neg uncovered) r0 deferred o Hbody Hin0)
    as (-> & Hsub & Hty & Hside & Hgap & Hnz & Hcov).
  destruct (hedgeSide_neg uncovered) as [Hsell Hbuy].
  rewrite Hmkt in Hgap.
  split; [reflexivity|].
  split.
  { revert Hmin. unfold Compare. rewrite Qgt_alt.
    destruct (_ ?= _)%Q; try discriminate. reflexivity. }
  split; [exact Hty|].
  split; [intros H; rewrite Hside; apply Hsell, H|].
  split; [intros H; rewrite Hside; apply Hbuy, H|].
  split; [intros E; apply Hnz; unfold Neg; rewrite E; reflexivity|].
  split.
  { intros Hmq. eapply Qle_lt_trans; [|exact Hgap].
    unfold Mul, minGap. apply Qmult_le_0_compat; [exact Hmq|discriminate]. }
  intros Hcreated. exists r0. split; [reflexivity|]. split; [reflexivity|].
  apply Hcov. exact Hcreated.
Qed.

Lemma Process_keeps env s :
  Symbol (Process env s) = Symbol s
  /\ hedgeErrorRateReservation (Process env s) = hedgeErrorRateReservation s.
Proof.
  unfold Process. generalize (pendingTrades env). intros trades.
  revert s. induction trades as [|t trades IH]; intros s; [split; reflexivity|].
  simpl. destruct (IH (onTrade (ExchangeName (sourceSession env)) s t)) as (-> & ->).
  split; reflexivity.
Qed.

(** Truncation toward zero lies between zero and the number. *)
Lemma Qtrunc_bounds (y : Q) :
  ((0 <= y)%Q -> (0 <= inject_Z (Qtrunc y))%Q /\ (inject_Z (Qtrunc y) <= y)%Q)
  /\ ((y <= 0)%Q -> (y <= inject_Z (Qtrunc y))%Q /\ (inject_Z (Qtrunc y) <= 0)%Q).
Proof.
  unfold Qtrunc. destruct y as [n d]. unfold Qle. simpl.
  pose proof (Z.quot_rem' n (Z.pos d)) as Hdiv.
  split; intros Hy.
  - assert (Hn : 0 <= n) by lia.
    pose proof (Z.rem_bound_pos n (Z.pos d) Hn ltac:(lia)) as Hrem.
    pose proof (Z.quot_pos n (Z.pos d) Hn ltac:(lia)) as Hq.
    split; nia.
  - assert (Hn : n <= 0) by lia.
    pose proof (Z.rem_bound_abs n (Z.pos d) ltac:(lia)) as Hrem.
    pose proof (Z.rem_nonpos n (Z.pos d) ltac:(lia) Hn) as Hsign.
    assert (Hq : n ÷ Z.pos d <= 0).
    { rewrite <- (Z.opp_involutive n), Z.quot_opp_l by lia.
      pose proof (Z.quot_pos (- n) (Z.pos d) ltac:(lia) ltac:(lia)). lia. }
    split; nia.
Qed.

(** A truncated quantity that is positive comes from a positive quantity
    and is not above it: truncation never rounds up. *)
Lemma TruncateQuantity_positive (m : Market) (x : Value) :
  (0 < TruncateQuantity m x)%Q -> (0 < x)%Q /\ (TruncateQuantity m x <= x)%Q.
Proof.
  unfold TruncateQuantity. destruct (IsZero (StepSize m)) eqn:Hz.
  - intros H. split; [exact H|apply Qle_refl].
  - assert (Hstep : ~ (StepSize m == 0)%Q).
    { intros E. apply Qeq_bool_iff in E. unfold IsZero in Hz. congruence. }
    set (step := StepSize m) in *. set (y := (x / step)%Q).
    assert (Ex : (x == y * step)%Q) by (unfold y; field; exact Hstep).
    destruct (Qtrunc_bounds y) as [Hpos Hneg].
    unfold Mul, NewFromInt. set (k := inject_Z (Qtrunc y)) in *.
    intros Hk.
    destruct (Qlt_le_dec 0 step) as [Hs|Hs].
    + destruct (Qlt_le_dec y 0) as [Hy|Hy].
      * destruct (Hneg ltac:(lra)) as [_ Hk0].
        assert (0 <= (- k) * step)%Q by (apply Qmult_le_0_compat; lra). lra.
      * destruct (Hpos Hy) as [Hk0 Hky].
        assert (0 <= (y - k) * step)%Q by (apply Qmult_le_0_compat; lra).
        assert (0 <= k * step)%Q by (apply Qmult_le_0_compat; lra).
        split; lra.
    + assert (Hs' : (step < 0)%Q).
      { destruct (Qeq_dec step 0) as [E|E]; [contradiction|]. lra. }
      destruct (Qlt_le_dec 0 y) as [Hy|Hy].
      * destruct (Hpos ltac:(lra)) as [Hk0 _].
        assert (0 <= k * (- step))%Q by (apply Qmult_le_0_compat; lra). lra.
      * destruct (Hneg Hy) as [Hyk Hk0].
        assert (0 <= (k - y) * (- step))%Q by (apply Qmult_le_0_compat; lra).
        assert (0 <= (- k) * (- step))%Q by (apply Qmult_le_0_compat; lra).
        split; lra.
Qed.

(** The quantity of a hedge is not above the magnitude of the position:
    the balance cut and the truncation only reduce it. *)
Lemma hedgeQuantity_le env s pos (q : Value) :
  hedgeQuantity env s pos = Some q -> (0 < q)%Q ->
  (0 < hedgeNotional env s pos)%Q ->
  (q <= Abs pos)%Q.
Proof.
  unfold hedgeQuantity, hedgeNotional. intros Hq Hpos Hnot.
  destruct (adjustToBalances _ _ _ _ _ _) as [a|] eqn:Ha; [|discriminate].
  cbn [mbind option_bind] in Hq. injection Hq as <-.
  destruct (TruncateQuantity_positive _ _ Hpos) as [Ha0 Hle].
  enough (a <= Abs pos)%Q by lra.
  pose proof (Qabs_nonneg pos) as Habs. unfold Abs, Mul in *.
  set (quantity := Qabs pos) in *.
  set (price := hedgePrice env s (hedgeSide pos)) in *.
  unfold adjustToBalances in Ha. destruct (hedgeSide pos).
  - destruct (Balances (sourceSession env) !! _) as [quote|];
      [|injection Ha as <-; apply Qle_refl].
    destruct (Compare (Available quote) (quantity * price) <? 0);
      [|injection Ha as <-; apply Qle_refl].
    destruct (AdjustQuantityByMaxAmount _ _ _) as [b|] eqn:Hb; [|discriminate].
    cbn [mbind option_bind] in Ha. injection Ha as <-.
    destruct (TruncateQuantity_positive _ _ Ha0) as [Hb0 Hba].
    enough (b <= quantity)%Q by lra. clear Hle Ha0 Hba Hpos.
    unfold AdjustQuantityByMaxAmount, Mul, lastPriceModifier in Hb.
    destruct (Compare _ (Available quote) <? 0) eqn:Hfits;
      [injection Hb as <-; apply Qle_refl|].
    assert (Hmax : (Available quote <= price * (1001 # 1000) * quantity)%Q).
    { destruct (Qlt_le_dec (price * (1001 # 1000) * quantity) (Available quote))
        as [Hlt|Hge]; [|exact Hge].
      apply Compare_lt0 in Hlt. congruence. }
    assert (Hamount : (0 < price * (1001 # 1000) * quantity)%Q) by lra.
    rewrite Div_nonzero in Hb by lra.
    cbn [mbind option_bind] in Hb. injection Hb as <-.
    set (amount := (price * (1001 # 1000) * quantity)%Q) in *.
    assert (Hratio : (Available quote / amount <= 1)%Q)
      by (apply Qle_shift_div_r; lra).
    assert (0 <= quantity * (1 - Available quote / amount))%Q
      by (apply Qmult_le_0_compat; lra).
    lra.
  - destruct (Balances (sourceSession env) !! _) as [base|];
      [|injection Ha as <-; apply Qle_refl].
    destruct (Compare (Available base) quantity <? 0) eqn:Hcut;
      injection Ha as <-; [|apply Qle_refl].
    apply Compare_lt0 in Hcut. lra.
Qed.

Lemma waitReservation_frame s s' :
  waitReservation s = Some s' ->
  Symbol s' = Symbol s /\ sourceMarket s' = sourceMarket s
  /\ Position s' = Position s /\ CoveredPosition s' = CoveredPosition s
  /\ activeMakerOrders s' = activeMakerOrders s /\ orderStore s' = orderStore s
  /\ hedgeErrorRateReservation s' = None.
Proof.
  unfold waitReservation. intros H.
  destruct (hedgeErrorRateReservation s) as [res|] eqn:E;
    [destruct (reservationOK res)|]; simplify_eq; repeat split; assumption.
Qed.

(** What [Hedge] has gone through when it hands an order over. *)
Lemma hedgeOrders_gates env s pos (r : CallResult) (deferred : bool)
    (o : SubmitOrder) :
  hedgeOrders env s pos = Some (r, deferred) -> o ∈ submitted r ->
  hedgeQuantity env s pos = Some (soQuantity o)
  /\ (MinNotional (sourceMarket s) < hedgeNotional env s pos)%Q
  /\ (Mul (MinNotional (sourceMarket s)) minGap < hedgeNotional env s pos)%Q
  /\ soSymbol o = Symbol s
  /\ soMarginSideEffect o = "MARGIN_BUY"
  /\ (forall res, hedgeErrorRateReservation s = Some res -> reservationOK res = true)
  /\ (forall c, c ∈ created r ->
        exchangeSubmitOrder (sourceSession env) o = Some c /\ created r = [c]
        /\ Position (after r) = Position s).
Proof.
  unfold hedgeOrders, hedgeQuantity. fold (hedgeNotional env s pos).
  intros Hrun Hin.
  destruct (IsZero pos); [injection Hrun as <- <-; inversion Hin|].
  destruct (Compare _ (MinNotional _) <=? 0) eqn:Hn1;
    [injection Hrun as <- <-; inversion Hin|].
  destruct (adjustToBalances _ _ _ _ _ _) as [quantity|]; [|discriminate].
  cbn [mbind option_bind] in Hrun |- *.
  destruct (Compare _ (Mul (MinNotional _) minGap) <=? 0) eqn:Hn2;
    [injection Hrun as <- <-; inversion Hin|].
  destruct (Compare _ (Mul (MinQuantity _) minGap) <=? 0);
    [injection Hrun as <- <-; inversion Hin|].
  apply Compare_le0_false in Hn1, Hn2.
  assert (Hres : forall res, hedgeErrorRateReservation s = Some res ->
                   waitReservation s <> None -> reservationOK res = true).
  { unfold waitReservation. intros res ->. destruct (reservationOK res); congruence. }
  destruct (waitReservation s) as [s'|] eqn:Hwait;
    [|injection Hrun as <- <-; inversion Hin].
  destruct (waitReservation_frame s s' Hwait) as (Hsym & Hmkt & Hposn & _).
  unfold FormatOrders, FormatOrder, hedgeOrder in Hrun. simpl in Hrun.
  destruct (sessionMarkets (sourceSession env) !! Symbol s') as [m|];
    simpl in Hrun; [|injection Hrun as <- <-; inversion Hin].
  destruct (exchangeSubmitOrder (sourceSession env) _) as [c0|] eqn:Hsub;
    simpl in Hrun; injection Hrun as <- <-; simpl in *;
    apply list_elem_of_singleton in Hin; subst o; simpl;
    (split; [reflexivity|]);
    (split; [exact Hn1|]); (split; [exact Hn2|]); (split; [exact Hsym|]);
    (split; [reflexivity|]);
    (split; [intros res E; apply (Hres res E); discriminate|]).
  - intros c Hc. apply list_elem_of_singleton in Hc. subst c.
    split; [exact Hsub|]. split; [reflexivity|exact Hposn].
  - intros c Hc. inversion Hc.
Qed.

(** [Hedge] goes through once its gates are passed and the venue creates
    the order. *)
Lemma hedgeOrders_go env s pos (q : Value) (o : SubmitOrder) (c : Order) :
  ~ (pos == 0)%Q ->
  hedgeQuantity env s pos = Some q ->
  (MinNotional (sourceMarket s) < hedgeNotional env s pos)%Q ->
  (Mul (MinNotional (sourceMarket s)) minGap < hedgeNotional env s pos)%Q ->
  (Mul (MinQuantity (sourceMarket s)) minGap < q)%Q ->
  (forall res, hedgeErrorRateReservation s = Some res -> reservationOK res = true) ->
  FormatOrder (sourceSession env) (hedgeOrder s (hedgeSide pos) q) = Some o ->
  exchangeSubmitOrder (sourceSession env) o = Some c ->
  exists s2,
    hedgeOrders env s pos = Some (mkResult s2 [o] [c], true)
    /\ Position s2 = Position s
    /\ CoveredPosition s2 = Add (CoveredPosition s) (coverChange (hedgeSide pos) q).
Proof.
  intros Hnz Hq Hn1 Hn2 Hgap Hres Hfmt Hsub.
  unfold hedgeOrders. rewrite (IsZero_false pos Hnz).
  fold (hedgeNotional env s pos).
  apply Compare_le0_false in Hn1, Hn2, Hgap. rewrite Hn1.
  unfold hedgeQuantity in Hq.
  destruct (adjustToBalances _ _ _ _ _ _) as [a|]; [|discriminate].
  cbn [mbind option_bind] in Hq |- *. injection Hq as Hq. rewrite Hq, Hn2, Hgap.
  assert (Hwait : exists s', waitReservation s = Some s').
  { unfold waitReservation. destruct (hedgeErrorRateReservation s) as [res|];
      [rewrite (Hres res eq_refl)|]; eexists; reflexivity. }
  destruct Hwait as [s' Hwait]. rewrite Hwait.
  destruct (waitReservation_frame s s' Hwait) as (Hsym & Hmkt & Hposn & Hcov & _).
  assert (Horder : hedgeOrder s' (hedgeSide pos) q = hedgeOrder s (hedgeSide pos) q).
  { unfold hedgeOrder. rewrite Hsym, Hmkt. reflexivity. }
  unfold FormatOrders. cbn [mapM]. rewrite Horder, Hfmt.
  cbn [mbind option_bind mret option_ret BatchPlaceOrder]. rewrite Hsub.
  eexists. split; [reflexivity|]. cbn. rewrite Hposn, Hcov.
  split; [reflexivity|]. destruct (hedgeSide pos); reflexivity.
Qed.

(** C2.  One tick of the hedge worker, with [uncovered] the position less
    the covered position once the collector has been drained.

    What the tick hands to the source venue is handed over only with
    hedging enabled and [|uncovered|] above the minimum quantity; it is a
    single market order on the strategy's symbol, a sell when [uncovered]
    is positive and a buy when it is negative; its quantity [q] is the
    magnitude of [uncovered] cut to the balance of the source account and
    truncated, above the minimum quantity with its gap and (on a market
    with non-negative minima) not above [|uncovered|]; and when the venue
    has created the order, [Hedge] has added [+q] for a sell and [-q] for a
    buy to the covered position, leaving the position alone, before the
    deferred run of the collector.

    Conversely the tick does hand this order over, in both directions,
    whenever hedging is enabled, [|uncovered|] exceeds the minimum
    quantity, and the gates of [Hedge] are passed: the notional above the
    minimum notional and its gap, [q] above the minimum quantity with its
    gap, no hedge-error reservation that is not OK, and an order the
    session can format; the covered position is then updated as soon as the
    venue creates the order. *)
Theorem hedge_side_and_cover env env' s :
  let s1 := Process env s in
  let uncovered := Sub (Position s1) (CoveredPosition s1) in
  let market := sourceMarket s in
  (forall (r : CallResult) (o : SubmitOrder),
     hedgeWorkerTick env env' s = Some r -> o ∈ submitted r ->
     DisableHedge s = false
     /\ (MinQuantity market < Abs uncovered)%Q
     /\ submitted r = [o]
     /\ soType o = OrderTypeMarket /\ soSymbol o = Symbol s
     /\ ((0 < uncovered)%Q -> soSide o = SideTypeSell)
     /\ ((uncovered < 0)%Q -> soSide o = SideTypeBuy)
     /\ ~ (uncovered == 0)%Q
     /\ hedgeQuantity env' s1 (Neg uncovered) = Some (soQuantity o)
     /\ (Mul (MinQuantity market) minGap < soQuantity o)%Q
     /\ ((0 <= MinQuantity market)%Q -> (0 <= MinNotional market)%Q ->
         (0 < soQuantity o)%Q /\ (soQuantity o <= Abs uncovered)%Q)
     /\ (forall c, c ∈ created r ->
           exchangeSubmitOrder (sourceSession env') o = Some c
           /\ exists s2,
                after r = Process env' s2
                /\ Position s2 = Position s1
                /\ CoveredPosition s2
                   = Add (CoveredPosition s1)
                       (coverChange (soSide o) (soQuantity o))))
  /\ (forall (side : SideType) (q : Value) (o : SubmitOrder) (c : Order),
        DisableHedge s = false ->
        (MinQuantity market < Abs uncovered)%Q ->
        ((0 < uncovered)%Q /\ side = SideTypeSell
         \/ (uncovered < 0)%Q /\ side = SideTypeBuy) ->
        hedgeQuantity env' s1 (Neg uncovered) = Some q ->
        (MinNotional market < hedgeNotional env' s1 (Neg uncovered))%Q ->
        (Mul (MinNotional market) minGap < hedgeNotional env' s1 (Neg uncovered))%Q ->
        (Mul (MinQuantity market) minGap < q)%Q ->
        (forall res, hedgeErrorRateReservation s = Some res ->
                     reservationOK res = true) ->
        FormatOrder (sourceSession env') (hedgeOrder s side q) = Some o ->
        exchangeSubmitOrder (sourceSession env') o = Some c ->
        exists s2,
          hedgeWorkerTick env env' s
          = Some (mkResult (Process env' s2) [o] [c])
          /\ soType o = OrderTypeMarket /\ soSide o = side /\ soQuantity o = q
          /\ Position s2 = Position s1
          /\ CoveredPosition s2 = Add (CoveredPosition s1) (coverChange side q)).
Proof.
  intros s1 uncovered market.
  destruct (Process_frame env s) as (Hdis & Hmkt & _ & _).
  destruct (Process_keeps env s) as (Hsym & Hresv).
  fold s1 in Hdis, Hmkt, Hsym, Hresv.
  destruct (hedgeSide_neg uncovered) as [Hsell Hbuy].
  split.
  - intros r o Htick Hin.
    destruct (hedgeWorkerTick_submitted env env' s r o Htick Hin)
      as (Hen & Hmin & Hty & Hs & Hb & Hnz & _ & _).
    unfold uncoverPosition in Hmin, Hs, Hb, Hnz.
    fold s1 in Hmin, Hs, Hb, Hnz. fold uncovered in Hmin, Hs, Hb, Hnz.
    unfold hedgeWorkerTick, returns in Htick. fold s1 in Htick.
    unfold uncoverPosition in Htick. fold uncovered in Htick.
    rewrite Hdis, Hmkt, Hen in Htick. cbn [negb andb] in Htick.
    apply Compare_gt0 in Hmin as Hmin'. fold market in Hmin'.
    unfold market in Hmin'. rewrite Hmin' in Htick.
    unfold Hedge in Htick.
    destruct (hedgeOrders env' s1 (Neg uncovered)) as [[r0 deferred]|] eqn:Hbody;
      [|discriminate].
    cbn [mbind option_bind] in Htick.
    assert (Hr : (if deferred
                  then mkResult (Process env' (after r0)) (submitted r0) (created r0)
                  else r0) = r) by congruence.
    clear Htick.
    assert (Hin0 : o ∈ submitted r0) by (subst r; destruct deferred; exact Hin).
    destruct (hedgeOrders_submitted env' s1 (Neg uncovered) r0 deferred o Hbody Hin0)
      as (-> & Hsub & _ & Hside & Hgap & _ & Hcov).
    destruct (hedgeOrders_gates env' s1 (Neg uncovered) r0 true o Hbody Hin0)
      as (Hq & Hn1 & _ & Hosym & _ & _ & Hcreated).
    subst r. cbn [submitted created after] in *.
    rewrite Hmkt in Hgap, Hn1. rewrite Hsym in Hosym.
    split; [exact Hen|]. split; [exact Hmin|]. split; [exact Hsub|].
    split; [exact Hty|]. split; [exact Hosym|]. split; [exact Hs|].
    split; [exact Hb|]. split; [exact Hnz|]. split; [exact Hq|].
    split; [exact Hgap|]. split.
    { intros Hmq Hmn.
      assert (Hpos : (0 < soQuantity o)%Q).
      { eapply Qle_lt_trans; [|exact Hgap].
        unfold Mul, minGap. apply Qmult_le_0_compat; [exact Hmq|discriminate]. }
      split; [exact Hpos|].
      assert (Hn0 : (0 < hedgeNotional env' s1 (Neg uncovered))%Q)
        by (unfold market in Hmn; lra).
      pose proof (hedgeQuantity_le env' s1 (Neg uncovered) _ Hq Hpos Hn0) as Hle.
      unfold Abs, Neg in Hle. rewrite Qabs_opp in Hle. exact Hle. }
    intros c Hc. destruct (Hcreated c Hc) as (Hvenue & Hone & Hposn).
    split; [exact Hvenue|]. exists (after r0). split; [reflexivity|].
    split; [exact Hposn|]. rewrite Hcov by (rewrite Hone; discriminate).
    unfold coverChange. reflexivity.
  - intros side q o c Hen Hmin Hdir Hq Hn1 Hn2 Hgap Hres Hfmt Hsub.
    assert (Hside : hedgeSide (Neg uncovered) = side /\ ~ (uncovered == 0)%Q).
    { destruct Hdir as [[Hu ->]|[Hu ->]]; (split; [auto|lra]). }
    destruct Hside as [Hside Hnz].
    destruct (hedgeOrders_go env' s1 (Neg uncovered) q o c) as (s2 & Hbody & Hposn & Hcov).
    { unfold Neg. lra. }
    { exact Hq. }
    { rewrite Hmkt. exact Hn1. }
    { rewrite Hmkt. exact Hn2. }
    { rewrite Hmkt. exact Hgap. }
    { rewrite Hresv. exact Hres. }
    { rewrite Hside. unfold hedgeOrder. rewrite Hsym, Hmkt. exact Hfmt. }
    { exact Hsub. }
    exists s2. split.
    + unfold hedgeWorkerTick. fold s1. unfold uncoverPosition. fold uncovered.
      rewrite Hdis, Hmkt, Hen. cbn [negb andb].
      apply Compare_gt0 in Hmin. unfold market in Hmin. rewrite Hmin.
      unfold Hedge. rewrite Hbody. reflexivity.
    + rewrite Hside in Hcov.
      unfold FormatOrder, hedgeOrder in Hfmt. cbn in Hfmt.
      destruct (sessionMarkets (sourceSession env') !! Symbol s) as [m|];
        [|discriminate].
      cbn in Hfmt. injection Hfmt as <-. cbn.
      repeat split; assumption.
Qed.

(** The two cases of the comment in [hedgeWorker], with ample balances on
    the source venue.  A position of 5 of which 3 are covered is hedged by
    a market sell of 2, and covered moves to 5; a position of -5 of which
    -3 are covered is hedged by a market buy of 2, and covered moves to
    -5. *)
Lemma hedge_side_and_cover_witness :
  (exists r o c,
     hedgeWorkerTick (sampleEnv 0 100%Q) (sampleEnv 0 100%Q) (sampleStrategy 5%Q 3%Q)
     = Some r
     /\ submitted r = [o] /\ created r = [c]
     /\ soType o = OrderTypeMarket /\ soSide o = SideTypeSell
     /\ (soQuantity o == 2)%Q
     /\ (CoveredPosition (after r) == 5)%Q)
  /\ (exists r o c,
        hedgeWorkerTick (sampleEnv 0 100%Q) (sampleEnv 0 100%Q)
          (sampleStrategy (-5)%Q (-3)%Q) = Some r
        /\ submitted r = [o] /\ created r = [c]
        /\ soType o = OrderTypeMarket /\ soSide o = SideTypeBuy
        /\ (soQuantity o == 2)%Q
        /\ (CoveredPosition (after r) == -5)%Q).
Proof.
  split.
  - destruct (hedge_side_and_cover (sampleEnv 0 100%Q) (sampleEnv 0 100%Q)
                (sampleStrategy 5%Q 3%Q)) as [_ Hgo].
    destruct (hedgeQuantity (sampleEnv 0 100%Q) (sampleStrategy 5%Q 3%Q) (Neg (Sub 5%Q 3%Q)))
      as [q|] eqn:Hq; [|vm_compute in Hq; discriminate].
    assert (Eq : q = (2000 # 1000)%Q)
      by (vm_compute in Hq; injection Hq as <-; reflexivity).
    destruct (FormatOrder (sourceSession (sampleEnv 0 100%Q))
                (hedgeOrder (sampleStrategy 5%Q 3%Q) SideTypeSell q))
      as [o|] eqn:Hfmt; [|rewrite Eq in Hfmt; vm_compute in Hfmt; discriminate].
    destruct (exchangeSubmitOrder (sourceSession (sampleEnv 0 100%Q)) o)
      as [c|] eqn:Hsub; [|vm_compute in Hsub; discriminate].
    destruct (Hgo SideTypeSell q o c)
      as (s2 & Htick & Hty & Hside & Hqo & _ & Hcov).
    + reflexivity.
    + vm_compute. reflexivity.
    + left. split; reflexivity.
    + exact Hq.
    + vm_compute. reflexivity.
    + vm_compute. reflexivity.
    + rewrite Eq. vm_compute. reflexivity.
    + intros res Hres. vm_compute in Hres. discriminate.
    + exact Hfmt.
    + exact Hsub.
    + eexists. exists o, c. split; [exact Htick|].
      split; [reflexivity|]. split; [reflexivity|]. split; [exact Hty|].
      split; [exact Hside|]. split; [rewrite Hqo, Eq; reflexivity|].
      cbn [after]. change (Process (sampleEnv 0 100%Q) s2) with s2.
      rewrite Hcov, Eq. vm_compute. reflexivity.
  - destruct (hedge_side_and_cover (sampleEnv 0 100%Q) (sampleEnv 0 100%Q)
                (sampleStrategy (-5)%Q (-3)%Q)) as [_ Hgo].
    destruct (hedgeQuantity (sampleEnv 0 100%Q) (sampleStrategy (-5)%Q (-3)%Q)
                (Neg (Sub (-5)%Q (-3)%Q)))
      as [q|] eqn:Hq; [|vm_compute in Hq; discriminate].
    assert (Eq : q = (2000 # 1000)%Q)
      by (vm_compute in Hq; injection Hq as <-; reflexivity).
    destruct (FormatOrder (sourceSession (sampleEnv 0 100%Q))
                (hedgeOrder (sampleStrategy (-5)%Q (-3)%Q) SideTypeBuy q))
      as [o|] eqn:Hfmt; [|rewrite Eq in Hfmt; vm_compute in Hfmt; discriminate].
    destruct (exchangeSubmitOrder (sourceSession (sampleEnv 0 100%Q)) o)
      as [c|] eqn:Hsub; [|vm_compute in Hsub; discriminate].
    destruct (Hgo SideTypeBuy q o c)
      as (s2 & Htick & Hty & Hside & Hqo & _ & Hcov).
    + reflexivity.
    + vm_compute. reflexivity.
    + right. split; reflexivity.
    + exact Hq.
    + vm_compute. reflexivity.
    + vm_compute. reflexivity.
    + rewrite Eq. vm_compute. reflexivity.
    + intros res Hres. vm_compute in Hres. discriminate.
    + exact Hfmt.
    + exact Hsub.
    + eexists. exists o, c. split; [exact Htick|].
      split; [reflexivity|]. split; [reflexivity|]. split; [exact Hty|].
      split; [exact Hside|]. split; [rewrite Hqo, Eq; reflexivity|].
      cbn [after]. change (Process (sampleEnv 0 100%Q) s2) with s2.
      rewrite Hcov, Eq. vm_compute. reflexivity.
Defined.

(** C4 (what the code does).  An uncovered position of 2 against a best bid
    of 1300, with only 0.005 of the base currency on the source venue: the
    quantity is cut to 0.005, whose notional 6.5 is below the minimum
    notional of 10 with its gap, and the market sell is handed to the venue
    all the same, because the test reads the notional of the quantity
    before the adjustment (2600). *)
Theorem Hedge_keeps_unadjusted_notional :
  exists r o,
    hedgeWorkerTick (sampleEnv 0 (5 # 1000)%Q) (sampleEnv 0 (5 # 1000)%Q)
      (sampleStrategy 2%Q 0%Q) = Some r
    /\ submitted r = [o]
    /\ soSide o = SideTypeSell
    /\ (soQuantity o == 5 # 1000)%Q
    /\ (Compare (Mul (soQuantity o) 1300%Q) (Mul (MinNotional btcusdt) minGap) <=? 0)
       = true
    /\ (Compare (soQuantity o) (Mul (MinQuantity btcusdt) minGap) <=? 0) = false.
Proof.
  eexists. eexists. split; [vm_compute; reflexivity|].
  split; [reflexivity|]. repeat split.
Qed.

(** C9 (what the code does).  Starting with no active maker order, a hedge
    the source venue accepts leaves the market order that venue created in
    [activeMakerOrders]. *)
Theorem Hedge_adds_to_activeMakerOrders :
  activeMakerOrders (sampleStrategy 2%Q 0%Q) = ∅
  /\ exists r c,
       hedgeWorkerTick (sampleEnv 0 100%Q) (sampleEnv 0 100%Q) (sampleStrategy 2%Q 0%Q)
       = Some r
       /\ created r = [c]
       /\ soType (orderSubmit c) = OrderTypeMarket
       /\ exchangeSubmitOrder (sourceSession (sampleEnv 0 100%Q)) (orderSubmit c)
          = Some c
       /\ activeMakerOrders (after r) !! OrderID c = Some c.
Proof.
  split; [reflexivity|].
  eexists. eexists. split; [vm_compute; reflexivity|].
  split; [reflexivity|]. repeat split.
Qed.

End Hedging.

(** * Further properties of the embedded code *)

(** ** The price aggregator and the depth of the book *)

Section AggregateDepth.

Implicit Types (pvs : PriceVolumeSlice) (pv : PriceVolume) (q : Value).

(** Once the loop has met a level that covers what is left, the levels
    behind it are never read. *)
Lemma aggregateLoop_app (l1 l2 : PriceVolumeSlice) : forall q acc,
  (0 < q)%Q -> (q <= totalVolume l1)%Q ->
  aggregateLoop (l1 ++ l2) q acc = aggregateLoop l1 q acc.
Proof.
  induction l1 as [|pv rest IH]; intros q acc Hq Ht.
  - simpl in Ht. lra.
  - change (q <= Volume pv + totalVolume rest)%Q in Ht. simpl.
    destruct (Compare (Volume pv) q >=? 0) eqn:Hc; [reflexivity|].
    apply Compare_ge0_false in Hc. apply IH; fp_lra.
Qed.

Lemma aggregatePrice_app (l1 l2 : PriceVolumeSlice) (requiredQuantity : Value) :
  (0 < requiredQuantity)%Q -> (requiredQuantity <= totalVolume l1)%Q ->
  aggregatePrice (l1 ++ l2) requiredQuantity = aggregatePrice l1 requiredQuantity.
Proof.
  intros Hq Ht. destruct l1 as [|pv0 rest]; [simpl in Ht; lra|].
  unfold aggregatePrice. cbn [app].
  destruct (Compare (Volume pv0) requiredQuantity >=? 0); [reflexivity|].
  change (pv0 :: rest ++ l2) with ((pv0 :: rest) ++ l2).
  rewrite aggregateLoop_app by assumption. reflexivity.
Qed.

(** X1.  Cutting a side to its first [n] levels, as [CopyDepth] does, does
    not change the aggregated price of a positive quantity that those [n]
    levels hold. *)
Theorem aggregatePrice_depth pvs (n : nat) (requiredQuantity : Value) :
  (0 < requiredQuantity)%Q ->
  (requiredQuantity <= totalVolume (take n pvs))%Q ->
  aggregatePrice (take n pvs) requiredQuantity = aggregatePrice pvs requiredQuantity.
Proof.
  intros Hq Ht. rewrite <- (take_drop n pvs) at 2.
  symmetry. apply aggregatePrice_app; assumption.
Qed.

Lemma aggregatePrice_depth_witness :
  aggregatePrice (take 2 layer_bids) 3%Q = aggregatePrice layer_bids 3%Q.
Proof. apply aggregatePrice_depth; vm_compute; discriminate || reflexivity. Defined.

(** With exact products and quotients the aggregated price of a positive
    quantity is never better than the top of the book: on a bid side with
    non-negative prices and volumes it is at most the best bid (and not
    negative); on an ask side that holds the quantity it is at least the
    best ask. *)
Lemma aggregatePrice_top_of_book_exact pv0 (rest : PriceVolumeSlice)
    (requiredQuantity : Value) :
  (0 < requiredQuantity)%Q -> volumesNonneg (pv0 :: rest) ->
  exists r,
    aggregatePrice (pv0 :: rest) requiredQuantity = Some r
    /\ (bidOrdered (pv0 :: rest) -> pricesNonneg (pv0 :: rest) ->
        (0 <= r)%Q /\ (r <= Price pv0)%Q)
    /\ (askOrdered (pv0 :: rest) ->
        (requiredQuantity <= totalVolume (pv0 :: rest))%Q ->
        (Price pv0 <= r)%Q).
Proof.
  intros Hq Hv.
  destruct (aggregatePrice_amountFor pv0 rest requiredQuantity Hq) as (r & Hr & E).
  exists r. split; [exact Hr|].
  pose proof (amountFor_zero (pv0 :: rest) Hv) as H0.
  split.
  - intros Hbid Hp. rewrite E.
    apply bidOrdered_strongly in Hbid.
    inversion Hbid as [|? ? _ Hle]; subst.
    inversion Hp as [|? ? Hp0 _]; subst.
    assert (Hall : Forall (fun pv => (Price pv <= Price pv0)%Q) (pv0 :: rest))
      by (constructor; [apply Qle_refl|exact Hle]).
    pose proof (amountFor_increment_le (pv0 :: rest) (Price pv0) Hall Hv Hp0
                  0%Q requiredQuantity) as Hup.
    assert (Hlow : (0 <= amountFor (pv0 :: rest) requiredQuantity)%Q).
    { clear - Hq Hv Hp. revert Hq. generalize requiredQuantity.
      induction (pv0 :: rest) as [|pv l IH]; intros q Hq.
      - apply Qle_refl.
      - inversion Hv as [|? ? Hvp Hvl]; subst. inversion Hp as [|? ? Hpp Hpl]; subst.
        destruct (Qlt_le_dec (Volume pv) q) as [Hlt|Hle].
        + rewrite amountFor_cons_gt by exact Hlt.
          assert (0 <= Volume pv * Price pv)%Q by (apply Qmult_le_0_compat; assumption).
          specialize (IH Hvl Hpl (q - Volume pv)%Q). lra.
        + rewrite amountFor_cons_le by exact Hle.
          apply Qmult_le_0_compat; [lra|assumption]. }
    split.
    + apply Qle_shift_div_l; [exact Hq|]. lra.
    + apply Qle_shift_div_r; [exact Hq|]. lra.
  - intros Hask Hdepth. rewrite E.
    apply askOrdered_strongly in Hask.
    inversion Hask as [|? ? _ Hle]; subst.
    assert (Hall : Forall (fun pv => (Price pv0 <= Price pv)%Q) (pv0 :: rest))
      by (constructor; [apply Qle_refl|exact Hle]).
    pose proof (amountFor_increment_ge (pv0 :: rest) (Price pv0) Hall Hv
                  0%Q requiredQuantity) as Hlow.
    apply Qle_shift_div_l; [exact Hq|]. lra.
Qed.

Lemma aggregatePrice_top_of_book_exact_sample :
  (exists r, aggregatePrice layer_bids 3%Q = Some r /\ (r <= 1300)%Q)
  /\ (exists r, aggregatePrice layer_asks 3%Q = Some r /\ (1301 <= r)%Q).
Proof.
  split.
  - destruct (aggregatePrice_top_of_book_exact (pv 1300 1) [pv 1200 2; pv 1100 3] 3%Q)
      as (r & Hr & Hbid & _).
    + reflexivity.
    + repeat constructor; vm_compute; discriminate.
    + exists r. split; [exact Hr|].
      apply Hbid; [exact layer_bids_ordered|].
      repeat constructor; vm_compute; discriminate.
  - destruct (aggregatePrice_top_of_book_exact (pv 1301 1) [pv 1400 2; pv 1500 3] 3%Q)
      as (r & Hr & _ & Hask).
    + reflexivity.
    + repeat constructor; vm_compute; discriminate.
    + exists r. split; [exact Hr|].
      apply Hask; [exact layer_asks_ordered|]. vm_compute. discriminate.
Defined.

(** X2.  Whatever the rounding of the products and of the quotient within
    its resolution, the aggregated price of a positive quantity is not
    better than the top of the book by more than the rounding slack: on a
    bid side with non-negative prices and volumes it is at most the best
    bid plus the slack (and not below minus the slack); on an ask side that
    holds the quantity, the best ask is at most the answer plus the slack.
    When the first level holds the quantity the answer is the best price
    itself, and where nothing is rounded the bounds hold without slack. *)
Theorem aggregatePrice_top_of_book rho pv0 (rest : PriceVolumeSlice)
    (requiredQuantity : Value) :
  withinResolution rho ->
  (0 < requiredQuantity)%Q -> volumesNonneg (pv0 :: rest) ->
  exists r,
    aggregatePriceRounded rho (pv0 :: rest) requiredQuantity = Some r
    /\ ((requiredQuantity <= Volume pv0)%Q -> r = Price pv0)
    /\ (bidOrdered (pv0 :: rest) -> pricesNonneg (pv0 :: rest) ->
        (0 <= r + roundingSlack rho (pv0 :: rest) requiredQuantity)%Q
        /\ (r <= Price pv0 + roundingSlack rho (pv0 :: rest) requiredQuantity)%Q
        /\ ((resolution rho == 0)%Q -> (0 <= r)%Q /\ (r <= Price pv0)%Q))
    /\ (askOrdered (pv0 :: rest) ->
        (requiredQuantity <= totalVolume (pv0 :: rest))%Q ->
        (Price pv0 <= r + roundingSlack rho (pv0 :: rest) requiredQuantity)%Q
        /\ ((resolution rho == 0)%Q -> (Price pv0 <= r)%Q)).
Proof.
  intros Hrho Hq Hv.
  destruct (aggregatePrice_top_of_book_exact pv0 rest requiredQuantity Hq Hv)
    as (e & He & Hbid & Hask).
  destruct (aggregatePriceRounded_near rho pv0 rest requiredQuantity Hrho Hq)
    as (e' & r & He' & Hr & Hlo & Hhi & Hfirst).
  assert (e' = e) by congruence. subst e'.
  exists r. split; [exact Hr|]. split; [exact Hfirst|]. split.
  - intros Hb Hp. destruct (Hbid Hb Hp) as [H0 Htop].
    split; [lra|]. split; [lra|]. intros E.
    pose proof (roundingSlack_exact rho (pv0 :: rest) requiredQuantity E). lra.
  - intros Ha Hd. specialize (Hask Ha Hd). split; [lra|]. intros E.
    pose proof (roundingSlack_exact rho (pv0 :: rest) requiredQuantity E). lra.
Qed.

Lemma close_asks_ordered : askOrdered close_asks.
Proof. repeat constructor. Qed.

(** With eight decimals cut off, on [close_asks]: 0.49999995 for
    0.10000001, five units of the eighth decimal below the best ask of
    0.5, within the slack. *)
Lemma aggregatePrice_top_of_book_witness :
  exists r,
    aggregatePriceRounded truncation8 close_asks (10000001 # 100000000)%Q = Some r
    /\ (r == 49999995 # 100000000)%Q
    /\ (1 # 2 <= r + roundingSlack truncation8 close_asks (10000001 # 100000000))%Q.
Proof.
  destruct (aggregatePrice_top_of_book truncation8 (mkPV (1 # 2) (1 # 10))
              [mkPV (50000001 # 100000000) 1] (10000001 # 100000000)%Q)
    as (r & Hr & _ & _ & Hask).
  - exact truncation8_within.
  - reflexivity.
  - repeat constructor; vm_compute; discriminate.
  - exists r. split; [exact Hr|].
    split; [vm_compute in Hr; injection Hr as <-; reflexivity|].
    apply Hask; [exact close_asks_ordered|]. vm_compute. discriminate.
Defined.

End AggregateDepth.

(** ** What a quoting tick places *)

Section QuotingOrders.

Implicit Types (s : Strategy) (env : Env) (g : Gates) (v : Layers)
  (o : SubmitOrder).

(** Reduce the projections of a strategy that has just been rebuilt. *)
Ltac strategy_fields H :=
  cbn [setQuoting Symbol BidMargin AskMargin UseDepthPrice DepthQuantity
       EnableBollBandMargin BollBandMargin BollBandMarginFactor
       StopHedgeQuoteBalance StopHedgeBaseBalance Quantity QuantityMultiplier
       QuantityScale MaxExposurePosition DisableHedge NumLayers Pips makerMarket
       sourceMarket CircuitBreaker Position CoveredPosition activeMakerOrders
       hedgeErrorRateReservation orderStore askPriceHeartBeat bidPriceHeartBeat
       lastPrice priceSolver groupID] in H.

(** The call returned without placing, against [Hsub : submitted r <> []]. *)
Ltac returned Hrun Hsub :=
  let Hr := fresh in
  cbv beta iota in Hrun;
  injection Hrun as Hr; rewrite <- Hr in Hsub; exfalso; apply Hsub; reflexivity.

(** A tick that hands orders to the venue has gone through every step of
    [updateQuote]. *)
Lemma updateQuote_placed env s (r : CallResult) :
  updateQuote env s = Some r -> submitted r <> [] ->
  exists active bidHB askHB last solver bestBid bestAsk bidMargin askMargin pips v,
    let s0 := setQuoting s active bidHB askHB last solver in
    let sourceBook := CopyDepth (book env) 10 in
    let g := quoteGates env s0 in
    GracefulCancel env (activeMakerOrders s) = (active, false)
    /\ NumOfOrders active = 0%nat
    /\ CircuitBreaker s && IsHalted env = false
    /\ BestBidAndAsk (book env) = Some (bestBid, bestAsk)
    /\ reportsStale (bidPriceHeartBeat s) bestBid (nowBid env) = false
    /\ reportsStale (askPriceHeartBeat s) bestAsk (nowAsk env) = false
    /\ IsValid sourceBook = true
    /\ disableMakerAsk g && disableMakerBid g = false
    /\ layerLoop s0 sourceBook g bidMargin askMargin pips
         (Z.to_nat (NumLayers s)) 0 (firstLayer s0 g bestBid bestAsk)
       = Some (Some v)
    /\ FormatOrders (makerSession env) (submitOrders v) = Some (submitted r).
Proof.
  unfold updateQuote, returns. intros Hrun Hsub.
  destruct (GracefulCancel env (activeMakerOrders s)) as [active cancelErr].
  destruct cancelErr; cbv beta iota in Hrun; [returned Hrun Hsub|].
  unfold setActive in Hrun. strategy_fields Hrun.
  destruct (0 <? NumOfOrders active)%nat eqn:Hnum; [returned Hrun Hsub|].
  destruct (CircuitBreaker s && IsHalted env) eqn:Hhalt; [returned Hrun Hsub|].
  destruct (BestBidAndAsk (book env)) as [[bestBid bestAsk]|] eqn:Hbest;
    [|returned Hrun Hsub].
  rewrite Div_two in Hrun. cbn [mbind option_bind] in Hrun.
  destruct (HeartBeatUpdate (bidPriceHeartBeat s) bestBid (nowBid env))
    as [bidHB bidErr] eqn:Ebid.
  destruct bidErr; cbv beta iota in Hrun; [returned Hrun Hsub|].
  strategy_fields Hrun.
  destruct (HeartBeatUpdate (askPriceHeartBeat s) bestAsk (nowAsk env))
    as [askHB askErr] eqn:Eask.
  destruct askErr; cbv beta iota in Hrun; [returned Hrun Hsub|].
  strategy_fields Hrun.
  destruct (IsValid (CopyDepth (book env) 10)) eqn:Hvalid; cbn [negb] in Hrun;
    [|returned Hrun Hsub].
  exists active, bidHB, askHB, ((Price bestBid + Price bestAsk) / two)%Q,
    (<[Symbol s := ((Price bestBid + Price bestAsk) / two)%Q]> (priceSolver s)),
    bestBid, bestAsk.
  cbv zeta.
  set (s0 := setQuoting s active bidHB askHB _ _).
  match type of Hrun with
  | context [exposureGates ?t _] => change t with s0 in Hrun
  end.
  fold (quoteGates env s0) in Hrun.
  destruct (disableMakerAsk (quoteGates env s0) && disableMakerBid (quoteGates env s0))
    eqn:Hboth; [returned Hrun Hsub|].
  destruct (bollBandMargins s0 env (Price bestBid) (Price bestAsk))
    as [[[[bidMargin askMargin] pips]|]|]; cbn [mbind option_bind] in Hrun;
    [|returned Hrun Hsub|discriminate].
  fold (firstLayer s0 (quoteGates env s0) bestBid bestAsk) in Hrun.
  change (NumLayers s0) with (NumLayers s) in Hrun.
  destruct (layerLoop s0 _ _ _ _ _ _ _ _) as [[v|]|] eqn:Hloop;
    cbn [mbind option_bind] in Hrun;
    [|returned Hrun Hsub|discriminate].
  destruct (submitOrders v) as [|o0 orders] eqn:Hords; [returned Hrun Hsub|].
  destruct (FormatOrders (makerSession env) (o0 :: orders)) as [formattedOrders|]
    eqn:Hfmt; [|returned Hrun Hsub].
  destruct (BatchPlaceOrder _ _ _ _) as [[s' createdOrders] err].
  injection Hrun as Hr. subst r. cbn [submitted] in *.
  exists bidMargin, askMargin, pips, v.
  split; [reflexivity|].
  split; [apply Nat.ltb_ge in Hnum; lia|].
  split; [reflexivity|]. split; [reflexivity|].
  split; [unfold reportsStale; rewrite Ebid; reflexivity|].
  split; [unfold reportsStale; rewrite Eask; reflexivity|].
  split; [reflexivity|]. split; [first [exact Hboth|reflexivity]|].
  split; [exact Hloop|]. rewrite Hords. exact Hfmt.
Qed.

Lemma bidLayer_orders s (sourceBook : SliceOrderBook) (bidMargin pips : Value)
    (i : Z) v v' :
  bidLayer s sourceBook bidMargin pips i v = Some (Some v') ->
  exists added,
    submitOrders v' = submitOrders v ++ added /\ (length added <= 1)%nat
    /\ Forall (fun o => makerOrder s o /\ soSide o = SideTypeBuy
                        /\ layerQuantity s i (bidQuantity v) = Some (soQuantity o))
         added.
Proof.
  unfold bidLayer. intros H.
  destruct (layerQuantity s i (bidQuantity v)) as [quantity|]; [|discriminate].
  destruct (depthPrice _ _ _ _) as [price|]; [|discriminate].
  cbn [mbind option_bind] in H.
  destruct (lockBoth _ _ _ _) as [[mq hq] ok].
  injection H as <-. destruct ok; cbn [submitOrders].
  - eexists [_]. split; [reflexivity|]. split; [simpl; lia|].
    repeat constructor.
  - exists []. rewrite app_nil_r. split; [reflexivity|]. split; [simpl; lia|].
    constructor.
Qed.

Lemma askLayer_orders s (sourceBook : SliceOrderBook) (askMargin pips : Value)
    (i : Z) v v' :
  askLayer s sourceBook askMargin pips i v = Some (Some v') ->
  exists added,
    submitOrders v' = submitOrders v ++ added /\ (length added <= 1)%nat
    /\ Forall (fun o => makerOrder s o /\ soSide o = SideTypeSell
                        /\ layerQuantity s i (askQuantity v) = Some (soQuantity o))
         added.
Proof.
  unfold askLayer. intros H.
  destruct (layerQuantity s i (askQuantity v)) as [quantity|]; [|discriminate].
  destruct (depthPrice _ _ _ _) as [price|]; [|discriminate].
  cbn [mbind option_bind] in H.
  destruct (lockBoth _ _ _ _) as [[mq hq] ok].
  injection H as <-. destruct ok; cbn [submitOrders].
  - eexists [_]. split; [reflexivity|]. split; [simpl; lia|].
    repeat constructor.
  - exists []. rewrite app_nil_r. split; [reflexivity|]. split; [simpl; lia|].
    constructor.
Qed.

Lemma layerOrder_widen s g (i i' : Z) (n n' : nat) o :
  i' <= i -> i + Z.of_nat n <= i' + Z.of_nat n' ->
  layerOrder s g i n o -> layerOrder s g i' n' o.
Proof.
  intros Hi Hn (Hm & Hside & k & running & Hk & Hq).
  split; [exact Hm|]. split; [exact Hside|].
  exists k, running. split; [lia|exact Hq].
Qed.

(** What the loop over the layers appends: at most two orders for each
    layer, each on a side the gates have left open. *)
Lemma layerLoop_orders s (sourceBook : SliceOrderBook) g
    (bidMargin askMargin pips : Value) (n : nat) : forall (i : Z) v v',
  layerLoop s sourceBook g bidMargin askMargin pips n i v = Some (Some v') ->
  exists added,
    submitOrders v' = submitOrders v ++ added /\ (length added <= 2 * n)%nat
    /\ Forall (layerOrder s g i n) added.
Proof.
  induction n as [|n IH]; intros i v v' H.
  - injection H as <-. exists []. rewrite app_nil_r.
    split; [reflexivity|]. split; [simpl; lia|constructor].
  - cbn [layerLoop] in H.
    assert (Hbid : exists v1 added1,
              (if disableMakerBid g then Some (Some v)
                  else bidLayer s sourceBook bidMargin pips i v) = Some (Some v1)
              /\ submitOrders v1 = submitOrders v ++ added1
              /\ (length added1 <= 1)%nat
              /\ Forall (layerOrder s g i (S n)) added1).
    { destruct (disableMakerBid g) eqn:Hd.
      - exists v, []. rewrite app_nil_r. repeat split; [simpl; lia|constructor].
      - destruct (bidLayer s sourceBook bidMargin pips i v) as [[v1|]|] eqn:Hb;
          [|discriminate|discriminate].
        destruct (bidLayer_orders _ _ _ _ _ _ _ Hb) as (added & Hadd & Hlen & Hall).
        exists v1, added. repeat split; try assumption.
        revert Hall. apply Forall_impl. intros o (Hm & Hside & Hq).
        split; [exact Hm|]. split; [unfold sideOpen; rewrite Hside; exact Hd|].
        exists i, (bidQuantity v). split; [lia|exact Hq]. }
    destruct Hbid as (v1 & added1 & Hb & Hadd1 & Hlen1 & Hall1).
    rewrite Hb in H. cbn [mbind option_bind] in H.
    assert (Hask : exists v2 added2,
              (if disableMakerAsk g then Some (Some v1)
               else askLayer s sourceBook askMargin pips i v1) = Some (Some v2)
              /\ submitOrders v2 = submitOrders v1 ++ added2
              /\ (length added2 <= 1)%nat
              /\ Forall (layerOrder s g i (S n)) added2).
    { destruct (disableMakerAsk g) eqn:Hd.
      - exists v1, []. rewrite app_nil_r. repeat split; [simpl; lia|constructor].
      - destruct (askLayer s sourceBook askMargin pips i v1) as [[v2|]|] eqn:Ha;
          [|discriminate|discriminate].
        destruct (askLayer_orders _ _ _ _ _ _ _ Ha) as (added & Hadd & Hlen & Hall).
        exists v2, added. repeat split; try assumption.
        revert Hall. apply Forall_impl. intros o (Hm & Hside & Hq).
        split; [exact Hm|]. split; [unfold sideOpen; rewrite Hside; exact Hd|].
        exists i, (askQuantity v1). split; [lia|exact Hq]. }
    destruct Hask as (v2 & added2 & Ha & Hadd2 & Hlen2 & Hall2).
    rewrite Ha in H. cbn [mbind option_bind] in H.
    destruct (IH (i + 1) v2 v' H) as (added3 & Hadd3 & Hlen3 & Hall3).
    exists (added1 ++ added2 ++ added3).
    split; [rewrite Hadd3, Hadd2, Hadd1, <- !app_assoc; reflexivity|].
    split; [rewrite !length_app; lia|].
    apply Forall_app. split; [exact Hall1|].
    apply Forall_app. split; [exact Hall2|].
    revert Hall3. apply Forall_impl. intros o.
    apply layerOrder_widen; lia.
Qed.

Lemma FormatOrder_formatted (session : ExchangeSession) o o' :
  FormatOrder session o = Some o' -> formatted session o o'.
Proof.
  unfold FormatOrder, formatted. intros H.
  destruct (sessionMarkets session !! soSymbol o) as [m|] eqn:Hm; [|discriminate].
  injection H as <-. cbn. repeat split; try reflexivity. eexists; reflexivity.
Qed.

Lemma FormatOrders_formatted (session : ExchangeSession)
    (orders orders' : list SubmitOrder) :
  FormatOrders session orders = Some orders' ->
  Forall2 (formatted session) orders orders'.
Proof.
  unfold FormatOrders. intros H. apply mapM_Some in H.
  revert H. apply Forall2_impl. intros o o'. apply FormatOrder_formatted.
Qed.

Lemma Forall2_Forall_r {A B} (P : A -> B -> Prop) (Q : A -> Prop)
    (l : list A) (k : list B) :
  Forall2 P l k -> Forall Q l -> Forall (fun y => exists x, P x y /\ Q x) k.
Proof.
  induction 1 as [|x y l k Hxy _ IH]; intros HQ; [constructor|].
  inversion HQ as [|? ? Hx Hl]; subst.
  constructor; [exists x; split; assumption|apply IH, Hl].
Qed.

(** Every order a tick hands to the venue is the formatted form of an order
    built by the layer loop under the gates of the tick. *)
Lemma updateQuote_orders env s (r : CallResult) :
  updateQuote env s = Some r ->
  (length (submitted r) <= 2 * Z.to_nat (NumLayers s))%nat
  /\ Forall (fun o => exists o0,
                formatted (makerSession env) o0 o
                /\ layerOrder s (quoteGates env s) 0 (Z.to_nat (NumLayers s)) o0)
       (submitted r).
Proof.
  intros Hrun.
  destruct (submitted r) as [|o1 l1] eqn:Hsub; [split; [simpl; lia|constructor]|].
  assert (Hne : submitted r <> []) by (rewrite Hsub; discriminate).
  destruct (updateQuote_placed env s r Hrun Hne)
    as (active & bidHB & askHB & last & solver & bestBid & bestAsk & bidMargin
        & askMargin & pips & v & H).
  cbv zeta in H. destruct H as (_ & _ & _ & _ & _ & _ & _ & _ & Hloop & Hfmt).
  rewrite Hsub in Hfmt.
  apply layerLoop_orders in Hloop as (added & Hadd & Hlen & Hall).
  cbn [firstLayer submitOrders app] in Hadd. rewrite Hadd in Hfmt.
  apply FormatOrders_formatted in Hfmt.
  split; [apply Forall2_length in Hfmt; rewrite <- Hfmt; exact Hlen|].
  exact (Forall2_Forall_r _ _ _ _ Hfmt Hall).
Qed.

(** X3.  A tick only hands orders to the maker venue when the graceful
    cancel succeeded and left no active order, the circuit breaker (when
    set) is not halted, the book has both best prices, neither heartbeat
    reports stale, the ten-level copy of the book is valid, and not both
    sides are disabled. *)
Theorem updateQuote_places_only_when_clear env s (r : CallResult) :
  updateQuote env s = Some r -> submitted r <> [] ->
  snd (GracefulCancel env (activeMakerOrders s)) = false
  /\ NumOfOrders (fst (GracefulCancel env (activeMakerOrders s))) = 0%nat
  /\ (CircuitBreaker s = true -> IsHalted env = false)
  /\ (exists bestBid bestAsk,
        BestBidAndAsk (book env) = Some (bestBid, bestAsk)
        /\ reportsStale (bidPriceHeartBeat s) bestBid (nowBid env) = false
        /\ reportsStale (askPriceHeartBeat s) bestAsk (nowAsk env) = false)
  /\ IsValid (CopyDepth (book env) 10) = true
  /\ disableMakerAsk (quoteGates env s) && disableMakerBid (quoteGates env s) = false.
Proof.
  intros Hrun Hne.
  destruct (updateQuote_placed env s r Hrun Hne)
    as (active & bidHB & askHB & last & solver & bestBid & bestAsk & bidMargin
        & askMargin & pips & v & H).
  cbv zeta in H.
  destruct H as (Hc & Hnum & Hhalt & Hbest & Hbid & Hask & Hvalid & Hboth & _ & _).
  rewrite Hc. cbn [fst snd].
  split; [reflexivity|]. split; [exact Hnum|].
  split; [intros Hcb; rewrite Hcb in Hhalt; exact Hhalt|].
  split; [exists bestBid, bestAsk; repeat split; assumption|].
  split; [exact Hvalid|exact Hboth].
Qed.

(** A flat position of 0 under the cap of 5: the tick places its bid. *)
Lemma updateQuote_places_only_when_clear_witness :
  exists r,
    updateQuote (sampleEnv (31 * Second) 100%Q) (sampleStrategy 0%Q 0%Q) = Some r
    /\ submitted r <> []
    /\ IsValid (CopyDepth (book (sampleEnv (31 * Second) 100%Q)) 10) = true.
Proof.
  destruct (updateQuote (sampleEnv (31 * Second) 100%Q) (sampleStrategy 0%Q 0%Q))
    as [r|] eqn:Hrun; [|vm_compute in Hrun; discriminate].
  assert (Hne : submitted r <> []).
  { pose proof Hrun as H. vm_compute in H. injection H as H. rewrite <- H.
    discriminate. }
  exists r. split; [reflexivity|]. split; [exact Hne|].
  apply (updateQuote_places_only_when_clear _ _ r Hrun Hne).
Defined.

Lemma makerBalanceGates_flags s (balances : BalanceMap) g :
  (disableMakerAsk g = true -> disableMakerAsk (makerBalanceGates s balances g) = true)
  /\ (disableMakerBid g = true -> disableMakerBid (makerBalanceGates s balances g) = true)
  /\ (forall b, balances !! BaseCurrency (makerMarket s) = Some b ->
        (Available b <= MinQuantity (makerMarket s))%Q ->
        disableMakerAsk (makerBalanceGates s balances g) = true)
  /\ (forall b, balances !! QuoteCurrency (makerMarket s) = Some b ->
        (Available b <= MinNotional (makerMarket s))%Q ->
        disableMakerBid (makerBalanceGates s balances g) = true).
Proof.
  unfold makerBalanceGates.
  repeat split; [intros H|intros H|intros b Hb Hle|intros b Hb Hle];
    try (rewrite Hb; apply Compare_gt0_false in Hle; rewrite Hle);
    repeat match goal with
           | |- context [match ?m !! ?k with _ => _ end] => destruct (m !! k)
           | |- context [if ?c then _ else _] => destruct c
           end; cbn; try assumption; reflexivity.
Qed.

Lemma hedgeBalanceGates_flags s (balances : BalanceMap) g :
  (disableMakerAsk g = true -> disableMakerAsk (hedgeBalanceGates s balances g) = true)
  /\ (disableMakerBid g = true -> disableMakerBid (hedgeBalanceGates s balances g) = true)
  /\ (forall b, balances !! BaseCurrency (sourceMarket s) = Some b ->
        (Available b
         <= hedgeFloor (StopHedgeBaseBalance s) (MinQuantity (sourceMarket s)))%Q ->
        disableMakerBid (hedgeBalanceGates s balances g) = true)
  /\ (forall b, balances !! QuoteCurrency (sourceMarket s) = Some b ->
        (Available b
         <= hedgeFloor (StopHedgeQuoteBalance s) (MinNotional (sourceMarket s)))%Q ->
        disableMakerAsk (hedgeBalanceGates s balances g) = true).
Proof.
  unfold hedgeBalanceGates, hedgeFloor.
  repeat split; [intros H|intros H|intros b Hb Hle|intros b Hb Hle];
    try (rewrite Hb; destruct (Sign _ >? 0);
         apply Compare_gt0_false in Hle; rewrite Hle);
    repeat match goal with
           | |- context [match ?m !! ?k with _ => _ end] => destruct (m !! k)
           | |- context [if ?c then _ else _] => destruct c
           end; cbn; try assumption; reflexivity.
Qed.

Lemma exposureGates_flags s g :
  (disableMakerAsk g = true -> disableMakerAsk (exposureGates s g) = true)
  /\ (disableMakerBid g = true -> disableMakerBid (exposureGates s g) = true).
Proof.
  unfold exposureGates. split; intros H;
    repeat match goal with
           | |- context [if ?c then _ else _] => destruct c
           end; cbn; try assumption; reflexivity.
Qed.

Lemma quoteGates_ask env s :
  lacksMakerBase env s \/ lacksSourceQuote env s ->
  disableMakerAsk (quoteGates env s) = true.
Proof.
  unfold quoteGates. intros [(b & Hb & Hle)|(b & Hb & Hle)].
  - apply exposureGates_flags, hedgeBalanceGates_flags.
    eapply makerBalanceGates_flags; eassumption.
  - apply exposureGates_flags.
    eapply hedgeBalanceGates_flags; eassumption.
Qed.

Lemma quoteGates_bid env s :
  lacksMakerQuote env s \/ lacksSourceBase env s ->
  disableMakerBid (quoteGates env s) = true.
Proof.
  unfold quoteGates. intros [(b & Hb & Hle)|(b & Hb & Hle)].
  - apply exposureGates_flags, hedgeBalanceGates_flags.
    eapply makerBalanceGates_flags; eassumption.
  - apply exposureGates_flags.
    eapply hedgeBalanceGates_flags; eassumption.
Qed.

(** X4.  Balance gates.  When the maker account's base balance is not above
    the maker market's minimum quantity, or the source account's quote
    balance is not above its floor, no sell is handed to the maker venue;
    when the maker account's quote balance is not above the minimum
    notional, or the source account's base balance is not above its floor,
    no buy is. *)
Theorem updateQuote_balance_gates env s (r : CallResult) (o : SubmitOrder) :
  updateQuote env s = Some r -> o ∈ submitted r ->
  (lacksMakerBase env s \/ lacksSourceQuote env s -> soSide o = SideTypeBuy)
  /\ (lacksMakerQuote env s \/ lacksSourceBase env s -> soSide o = SideTypeSell).
Proof.
  intros Hrun Hin.
  destruct (updateQuote_orders env s r Hrun) as [_ Hall].
  rewrite Forall_forall in Hall. apply list_elem_of_In in Hin.
  destruct (Hall o Hin) as (o0 & Hf & _ & Hopen & _).
  destruct Hf as (_ & _ & Hside & _). unfold sideOpen in Hopen.
  rewrite Hside. split; intros Hlack.
  - apply quoteGates_ask in Hlack.
    destruct (soSide o0); [reflexivity|congruence].
  - apply quoteGates_bid in Hlack.
    destruct (soSide o0); [congruence|reflexivity].
Qed.

(** With no base currency on the maker account only the bid is placed. *)
Lemma updateQuote_balance_gates_witness :
  exists r o,
    updateQuote noBaseEnv uncappedStrategy = Some r
    /\ o ∈ submitted r /\ soSide o = SideTypeBuy.
Proof.
  destruct (updateQuote noBaseEnv uncappedStrategy) as [r|] eqn:Hrun;
    [|vm_compute in Hrun; discriminate].
  assert (Hsub : exists o, submitted r = [o]).
  { pose proof Hrun as H. vm_compute in H. injection H as H. rewrite <- H.
    eexists. reflexivity. }
  destruct Hsub as (o & Hsub).
  assert (Hin : o ∈ submitted r) by (rewrite Hsub; apply list_elem_of_here).
  exists r, o. split; [reflexivity|]. split; [exact Hin|].
  apply (updateQuote_balance_gates _ _ r o Hrun Hin). left.
  exists (mkBalance 0%Q). split; [reflexivity|]. vm_compute. discriminate.
Defined.

(** X5.  The orders of a tick.  A tick hands at most two orders for each
    layer to the maker venue, none when [NumLayers] is zero or negative;
    each is a limit order, good till cancelled, on the strategy's symbol,
    with the strategy's group id and no margin side effect. *)
Theorem updateQuote_order_shape env s (r : CallResult) :
  updateQuote env s = Some r ->
  (length (submitted r) <= 2 * Z.to_nat (NumLayers s))%nat
  /\ (NumLayers s <= 0 -> submitted r = [])
  /\ forall o, o ∈ submitted r ->
       soSymbol o = Symbol s /\ soType o = OrderTypeLimit
       /\ soTimeInForce o = "GTC" /\ soGroupID o = groupID s
       /\ soMarginSideEffect o = "".
Proof.
  intros Hrun. destruct (updateQuote_orders env s r Hrun) as [Hlen Hall].
  split; [exact Hlen|]. split.
  - intros Hn. destruct (submitted r); [reflexivity|]. simpl in Hlen. lia.
  - intros o Hin. rewrite Forall_forall in Hall. apply list_elem_of_In in Hin.
    destruct (Hall o Hin) as (o0 & Hf & (Hsym & Hty & Htif & Hgid & Hmse) & _).
    destruct Hf as (Fsym & Fty & _ & _ & _ & Ftif & Fgid & Fmse & _).
    rewrite Fsym, Fty, Ftif, Fgid, Fmse.
    repeat split; assumption.
Qed.

(** One layer and a maker account without base currency: the tick hands
    over a single order, a limit buy, good till cancelled, on BTCUSDT, with
    the group id 7 of the strategy. *)
Lemma updateQuote_order_shape_witness :
  exists r o,
    updateQuote noBaseEnv uncappedStrategy = Some r
    /\ submitted r = [o]
    /\ soSide o = SideTypeBuy
    /\ soSymbol o = "BTCUSDT" /\ soType o = OrderTypeLimit
    /\ soTimeInForce o = "GTC" /\ soGroupID o = 7
    /\ soMarginSideEffect o = "".
Proof.
  destruct (updateQuote noBaseEnv uncappedStrategy) as [r|] eqn:Hrun;
    [|vm_compute in Hrun; discriminate].
  assert (Hsub : exists o, submitted r = [o] /\ soSide o = SideTypeBuy).
  { pose proof Hrun as H. vm_compute in H. injection H as H. rewrite <- H.
    eexists. split; reflexivity. }
  destruct Hsub as (o & Hsub & Hside).
  destruct (updateQuote_order_shape _ _ r Hrun) as (_ & _ & Hshape).
  destruct (Hshape o) as (Hsym & Hty & Htif & Hgid & Hmse).
  { rewrite Hsub. apply list_elem_of_here. }
  exists r, o. split; [reflexivity|]. split; [exact Hsub|]. split; [exact Hside|].
  split; [exact Hsym|]. split; [exact Hty|]. split; [exact Htif|].
  split; [exact Hgid|exact Hmse].
Defined.



End QuotingOrders.

(** ** What a hedge leaves behind *)

Section HedgingOutcome.

Implicit Types (s : Strategy) (env : Env) (pos : Value).

(** X7.  A hedge the source venue rejects.  When [Hedge] has handed its
    order to the venue and the venue created none, the body of [Hedge]
    leaves the position, the covered position, the order store and
    [activeMakerOrders] as they were and stores the reservation taken from
    the hedge-error limiter; when the venue did create the order, no
    reservation is left. *)
Theorem hedge_rejected_reserves env s pos (r : CallResult) (deferred : bool) :
  hedgeOrders env s pos = Some (r, deferred) -> submitted r <> [] ->
  (created r = [] ->
     hedgeErrorRateReservation (after r) = Some (hedgeErrorLimiterReserve env)
     /\ Position (after r) = Position s
     /\ CoveredPosition (after r) = CoveredPosition s
     /\ activeMakerOrders (after r) = activeMakerOrders s
     /\ orderStore (after r) = orderStore s)
  /\ (created r <> [] -> hedgeErrorRateReservation (after r) = None).
Proof.
  unfold hedgeOrders. intros Hrun Hne.
  assert (Hstop : forall s0 : Strategy,
            Some (mkResult s0 [] [], false) = Some (r, deferred) -> False).
  { intros s0 H. injection H as H _. rewrite <- H in Hne. apply Hne. reflexivity. }
  destruct (IsZero pos); [destruct (Hstop _ Hrun)|].
  destruct (Compare _ (MinNotional _) <=? 0); [destruct (Hstop _ Hrun)|].
  destruct (adjustToBalances _ _ _ _ _ _) as [quantity|]; [|discriminate].
  cbn [mbind option_bind] in Hrun.
  destruct (Compare _ (Mul (MinNotional _) minGap) <=? 0); [destruct (Hstop _ Hrun)|].
  destruct (Compare _ (Mul (MinQuantity _) minGap) <=? 0); [destruct (Hstop _ Hrun)|].
  destruct (waitReservation s) as [s'|] eqn:Hwait; [|destruct (Hstop _ Hrun)].
  destruct (waitReservation_frame s s' Hwait)
    as (Hsym & Hmkt & Hpos & Hcov & Hact & Hstore & Hres).
  unfold FormatOrders, FormatOrder, hedgeOrder in Hrun. simpl in Hrun.
  destruct (sessionMarkets (sourceSession env) !! Symbol s') as [m|];
    simpl in Hrun; [|destruct (Hstop _ Hrun)].
  destruct (exchangeSubmitOrder (sourceSession env) _) as [c|];
    simpl in Hrun; injection Hrun as <- <-; cbn.
  - split; [discriminate|]. intros _. exact Hres.
  - split; [|intros H; contradiction]. intros _. repeat split; assumption.
Qed.

(** A source venue that refuses every order. *)
Lemma hedge_rejected_reserves_witness :
  exists r deferred,
    hedgeOrders
      (mkEnv (sampleSession "max" 100 100%Q 1000000%Q)
             (mkSession "binance" (<["BTCUSDT" := btcusdt]> ∅)
                (sampleBalances 100%Q 1000000%Q) (fun _ => None))
             sampleBook 0 0 (fun _ => (∅, false)) false 0%Q 0%Q
             (mkReservation true) [])
      (sampleStrategy 2%Q 0%Q) (-2)%Q = Some (r, deferred)
    /\ hedgeErrorRateReservation (after r) = Some (mkReservation true)
    /\ CoveredPosition (after r) = 0%Q.
Proof.
  set (env := mkEnv _ _ _ _ _ _ _ _ _ _ _).
  destruct (hedgeOrders env (sampleStrategy 2%Q 0%Q) (-2)%Q) as [[r deferred]|]
    eqn:Hrun; [|vm_compute in Hrun; discriminate].
  assert (Hfacts : submitted r <> [] /\ created r = []).
  { pose proof Hrun as H. vm_compute in H. injection H as H _. rewrite <- H.
    split; [discriminate|reflexivity]. }
  destruct Hfacts as [Hne Hnone].
  destruct (hedge_rejected_reserves env _ _ r deferred Hrun Hne) as [Hrej _].
  destruct (Hrej Hnone) as (Hres & _ & Hcov & _).
  exists r, deferred. split; [reflexivity|]. split; [exact Hres|exact Hcov].
Defined.

(** X8.  [Hedge] declines.  For a position of zero, or when the quantity
    times the price of the hedge side is not above the source market's
    minimum notional, [Hedge] returns at once: nothing is submitted, the
    strategy is untouched and the collector is not run.  The same holds
    whenever it returns while the stored reservation is not OK. *)
Theorem Hedge_declines env s pos :
  (IsZero pos = true
   \/ (Mul (Abs pos) (hedgePrice env s (hedgeSide pos))
       <= MinNotional (sourceMarket s))%Q ->
   Hedge env s pos = Some (mkResult s [] []))
  /\ (forall res r,
        hedgeErrorRateReservation s = Some res -> reservationOK res = false ->
        Hedge env s pos = Some r -> r = mkResult s [] []).
Proof.
  split.
  - intros Hcase. unfold Hedge, hedgeOrders.
    destruct (IsZero pos); [reflexivity|].
    destruct Hcase as [H|H]; [discriminate|].
    assert (Hc : (Compare (Mul (Abs pos) (hedgePrice env s (hedgeSide pos)))
                    (MinNotional (sourceMarket s)) <=? 0) = true).
    { unfold Compare.
      destruct (Mul (Abs pos) (hedgePrice env s (hedgeSide pos))
                ?= MinNotional (sourceMarket s))%Q eqn:E; try reflexivity.
      exfalso. apply (proj1 (Qle_alt _ _) H). exact E. }
    rewrite Hc. reflexivity.
  - intros res r Hres Hok. unfold Hedge, hedgeOrders, waitReservation.
    rewrite Hres, Hok.
    destruct (IsZero pos); [intros H; injection H as <-; reflexivity|].
    destruct (_ <=? 0); [intros H; injection H as <-; reflexivity|].
    destruct (adjustToBalances _ _ _ _ _ _) as [quantity|]; [|discriminate].
    cbn [mbind option_bind].
    destruct (_ <=? 0); [intros H; injection H as <-; reflexivity|].
    destruct (_ <=? 0); intros H; injection H as <-; reflexivity.
Qed.

Lemma Hedge_declines_witness :
  Hedge (sampleEnv 0 100%Q) (sampleStrategy 0%Q 0%Q) 0%Q
  = Some (mkResult (sampleStrategy 0%Q 0%Q) [] [])
  /\ Hedge (sampleEnv 0 100%Q) (sampleStrategy 0%Q 0%Q) (1 # 1000)%Q
     = Some (mkResult (sampleStrategy 0%Q 0%Q) [] []).
Proof.
  split.
  - apply (proj1 (Hedge_declines _ _ _)). left. reflexivity.
  - apply (proj1 (Hedge_declines _ _ _)). right. vm_compute. discriminate.
Defined.

Lemma onTrade_positions (name : string) s (t : Trade) :
  Position (onTrade name s t) = Add (Position s) (PositionChange t)
  /\ CoveredPosition (onTrade name s t)
     = (if String.eqb (tradeExchange t) name
        then Add (CoveredPosition s) (PositionChange t) else CoveredPosition s).
Proof. split; reflexivity. Qed.

(** X9.  What the collector's run does to the books of the strategy: the
    covered position moves by the position changes of the source venue's
    trades only, the position by those of all trades, and so the uncovered
    position, [Position - CoveredPosition], moves by the changes of the
    other (maker) trades only: a fill on the source venue never changes
    it. *)
Theorem Process_positions env s :
  (CoveredPosition (Process env s)
   == CoveredPosition s + venueChange (fromSource env) (pendingTrades env))%Q
  /\ (Position (Process env s)
      == Position s + venueChange (fun _ => true) (pendingTrades env))%Q
  /\ (uncoverPosition (Process env s)
      == uncoverPosition s
         + venueChange (fun t => negb (fromSource env t)) (pendingTrades env))%Q.
Proof.
  assert (Hsplit : forall trades,
            (venueChange (fun _ => true) trades
             == venueChange (fromSource env) trades
                + venueChange (fun t => negb (fromSource env t)) trades)%Q).
  { induction trades as [|t trades IH]; cbn [venueChange foldr]; [ring|].
    fold (venueChange (fun _ => true) trades).
    fold (venueChange (fromSource env) trades).
    fold (venueChange (fun t => negb (fromSource env t)) trades).
    rewrite IH. destruct (fromSource env t); cbn [negb]; ring. }
  assert (Hboth : forall trades s0,
            (CoveredPosition (foldl (onTrade (ExchangeName (sourceSession env))) s0 trades)
             == CoveredPosition s0 + venueChange (fromSource env) trades)%Q
            /\ (Position (foldl (onTrade (ExchangeName (sourceSession env))) s0 trades)
                == Position s0 + venueChange (fun _ => true) trades)%Q).
  { induction trades as [|t trades IH]; intros s0.
    - cbn. split; ring.
    - cbn [foldl venueChange foldr].
      fold (venueChange (fun _ => true) trades).
      fold (venueChange (fromSource env) trades).
      destruct (IH (onTrade (ExchangeName (sourceSession env)) s0 t)) as [Hc Hp].
      destruct (onTrade_positions (ExchangeName (sourceSession env)) s0 t)
        as [Ep Ec].
      split.
      + rewrite Hc, Ec. unfold fromSource, Add.
        destruct (String.eqb _ _); ring.
      + rewrite Hp, Ep. unfold Add. ring. }
  unfold Process, uncoverPosition, Sub.
  destruct (Hboth (pendingTrades env) s) as [Hc Hp].
  split; [exact Hc|]. split; [exact Hp|].
  rewrite Hc, Hp, Hsplit. ring.
Qed.

End HedgingOutcome.

(** ** Defaults *)

Section DefaultValues.

Implicit Types (s : Strategy) (t : Intervals) (c : Intervals * Strategy).

Lemma Defaults_defaulted c : defaulted (Defaults c).
Proof.
  destruct c as [t s]. unfold defaulted, Defaults. cbn.
  repeat split.
  - destruct (IsZero (BidMargin s)) eqn:E; [|exact E].
    destruct (IsZero (Margin t)) eqn:E'; [reflexivity|exact E'].
  - destruct (IsZero (AskMargin s)) eqn:E; [|exact E].
    destruct (IsZero (Margin t)) eqn:E'; [reflexivity|exact E'].
  - destruct (IsZero (BollBandMargin s)) eqn:E; [reflexivity|exact E].
  - destruct (IsZero (BollBandMarginFactor s)) eqn:E; [reflexivity|exact E].
  - destruct (NumLayers s =? 0) eqn:E; [discriminate|apply Z.eqb_neq, E].
  - destruct (UpdateInterval t =? 0) eqn:E; [discriminate|apply Z.eqb_neq, E].
  - destruct (HedgeInterval t =? 0) eqn:E; [discriminate|apply Z.eqb_neq, E].
  - destruct (String.eqb (BollBandInterval t) "") eqn:E; [discriminate|].
    apply String.eqb_neq, E.
Qed.

Lemma Defaults_fixed c : defaulted c -> Defaults c = c.
Proof.
  destruct c as [t s]. unfold defaulted. cbn.
  intros (Hb & Ha & Hm & Hf & Hn & Hu & Hh & Hi & Hc).
  unfold Defaults. rewrite Hb, Ha, Hm, Hf.
  apply Z.eqb_neq in Hn, Hu, Hh. rewrite Hn, Hu, Hh.
  apply String.eqb_neq in Hi. rewrite Hi.
  destruct t, s. cbn in *. subst. reflexivity.
Qed.

(** X10.  [Defaults] fills every field it looks at that is still zero
    (margins, bollinger margin and factor, layers, the two intervals, the
    bollinger interval, the circuit breaker), leaves a configuration that
    is already filled exactly as it is, and is therefore idempotent; a
    negative [NumLayers] is not repaired. *)
Theorem Defaults_idempotent c :
  defaulted (Defaults c)
  /\ Defaults (Defaults c) = Defaults c
  /\ (defaulted c -> Defaults c = c)
  /\ (NumLayers c.2 < 0 -> NumLayers (Defaults c).2 = NumLayers c.2).
Proof.
  split; [apply Defaults_defaulted|].
  split; [apply Defaults_fixed, Defaults_defaulted|].
  split; [apply Defaults_fixed|].
  destruct c as [t s]. cbn. intros Hn.
  destruct (NumLayers s =? 0) eqn:E; [apply Z.eqb_eq in E; lia|reflexivity].
Qed.

Lemma Defaults_idempotent_witness :
  Defaults (mkIntervals 0%Q Second (10 * Second) "1m", sampleStrategy 0%Q 0%Q)
  = (mkIntervals 0%Q Second (10 * Second) "1m", sampleStrategy 0%Q 0%Q).
Proof.
  apply (proj1 (proj2 (proj2 (Defaults_idempotent _)))).
  repeat split; vm_compute; (reflexivity || discriminate).
Defined.

End DefaultValues.

(** ** The order handlers of the coinbase stream *)

Section OrderHandlers.

Import coinbase.

Context `{!Conversions}.

Implicit Types (us : UserStream) (query : string -> option Order)
  (m : gmap string Order) (o : Order) (id : string).

Lemma checkSequence_stale us t p n :
  staleFor us t p n -> checkSequence us t p n = (us, false).
Proof.
  unfold staleFor, checkSequence, checkAndUpdateSequenceNumber. intros Hst.
  apply N.leb_le in Hst. rewrite Hst. destruct us; reflexivity.
Qed.

Lemma checkSequence_fresh us t p n :
  ~ staleFor us t p n -> checkSequence us t p n = (advanced us t p n, true).
Proof.
  unfold staleFor, checkSequence, checkAndUpdateSequenceNumber, advanced.
  intros Hfr. apply N.nle_gt, N.leb_gt in Hfr. rewrite Hfr. reflexivity.
Qed.

Lemma updateWorkingOrder_other m o id :
  id <> UUID o -> updateWorkingOrder m o !! id = m !! id.
Proof.
  intros Hne. unfold updateWorkingOrder.
  destruct (m !! UUID o) as [existing|]; [destruct (negb (IsWorking o))|].
  - apply lookup_delete_ne. congruence.
  - apply lookup_insert_ne. congruence.
  - apply lookup_insert_ne. congruence.
Qed.

Lemma updateWorkingOrder_new m o :
  m !! UUID o = None -> updateWorkingOrder m o = <[UUID o := o]> m.
Proof. intros Hm. unfold updateWorkingOrder. rewrite Hm. reflexivity. Qed.

Lemma updateWorkingOrder_retired m o last :
  m !! UUID o = Some last -> IsWorking o = false ->
  updateWorkingOrder m o = delete (UUID o) m.
Proof.
  intros Hm Hw. unfold updateWorkingOrder. rewrite Hm, Hw. reflexivity.
Qed.

(** What [lastOrderOf] gives for a known order: the order, and a cache
    that holds it and is otherwise unchanged. *)
Lemma lastOrderOf_known query us id last :
  knownOrder query us id last ->
  exists us',
    lastOrderOf query us id = (us', Some last)
    /\ cursor us' = cursor us /\ orderUpdates us' = orderUpdates us
    /\ userOrderOnly us' = userOrderOnly us
    /\ workingOrdersMap us' = <[id := last]> (workingOrdersMap us).
Proof.
  unfold knownOrder, lastOrderOf, retrieveOrderById, getOrderById.
  intros [Hc|(Hc & Honly & Hq & Hid)]; rewrite Hc.
  - exists us. repeat split. symmetry. apply insert_id. exact Hc.
  - rewrite Honly, Hq. cbn [negb]. eexists. split; [reflexivity|].
    split; [reflexivity|]. split; [reflexivity|]. split; [exact Honly|].
    cbn. rewrite updateWorkingOrder_new by (rewrite Hid; exact Hc).
    rewrite Hid. reflexivity.
Qed.

Lemma lastOrderOf_unknown query us id :
  unknownOrder query us id -> lastOrderOf query us id = (us, None).
Proof.
  unfold unknownOrder, lastOrderOf, retrieveOrderById, getOrderById.
  intros [Hc [Honly|Hq]]; rewrite Hc.
  - rewrite Honly. reflexivity.
  - destruct (userOrderOnly us); [|reflexivity]. cbn [negb]. rewrite Hq. reflexivity.
Qed.

(** X11.  A message whose sequence number does not exceed the cursor of its
    type and product is ignored by each of the four order handlers: the
    cursor, the cache of working orders and the emitted updates all stay as
    they were. *)
Theorem stale_order_message_ignored us query
    (rm : ReceivedMessage) (om : OpenMessage) (dm : DoneMessage) (cm : ChangeMessage) :
  (staleFor us (rcvType rm) (rcvProductID rm) (rcvSequence rm) ->
   handleReceivedMessage us rm = us)
  /\ (staleFor us (opnType om) (opnProductID om) (opnSequence om) ->
      handleOpenMessage query us om = us)
  /\ (staleFor us (donType dm) (donProductID dm) (donSequence dm) ->
      handleDoneMessage query us dm = us)
  /\ (staleFor us (chgType cm) (chgProductID cm) (chgSequence cm) ->
      handleChangeMessage us cm = us).
Proof.
  unfold handleReceivedMessage, handleOpenMessage, handleDoneMessage,
    handleChangeMessage.
  repeat split; intros Hst; rewrite (checkSequence_stale _ _ _ _ Hst); reflexivity.
Qed.

(** X12.  A fresh message the handlers do not act on moves the cursor and
    nothing else: a [received] message that is not placeable (a stop order,
    an unknown order type, a market order without size), an [open] or
    [done] message for an order that is neither cached nor retrievable, and
    a [change] message for an order that is not cached. *)
Theorem dropped_order_message_moves_cursor_only us query
    (rm : ReceivedMessage) (om : OpenMessage) (dm : DoneMessage) (cm : ChangeMessage) :
  (~ staleFor us (rcvType rm) (rcvProductID rm) (rcvSequence rm) ->
   ~ placeable rm ->
   handleReceivedMessage us rm
   = advanced us (rcvType rm) (rcvProductID rm) (rcvSequence rm))
  /\ (~ staleFor us (opnType om) (opnProductID om) (opnSequence om) ->
      unknownOrder query us (opnOrderID om) ->
      handleOpenMessage query us om
      = advanced us (opnType om) (opnProductID om) (opnSequence om))
  /\ (~ staleFor us (donType dm) (donProductID dm) (donSequence dm) ->
      unknownOrder query us (donOrderID dm) ->
      handleDoneMessage query us dm
      = advanced us (donType dm) (donProductID dm) (donSequence dm))
  /\ (~ staleFor us (chgType cm) (chgProductID cm) (chgSequence cm) ->
      getOrderById us (chgOrderID cm) = None ->
      handleChangeMessage us cm
      = advanced us (chgType cm) (chgProductID cm) (chgSequence cm)).
Proof.
  unfold handleReceivedMessage, handleOpenMessage, handleDoneMessage,
    handleChangeMessage.
  split; [|split; [|split]]; intros Hfr Hun;
    rewrite (checkSequence_fresh _ _ _ _ Hfr); cbn [negb].
  - unfold placeable in Hun.
    destruct (String.eqb (rcvOrderType rm) "stop"); [reflexivity|].
    destruct (String.eqb_spec (rcvOrderType rm) "limit") as [Hl|_];
      [exfalso; apply Hun; left; exact Hl|].
    destruct (String.eqb_spec (rcvOrderType rm) "market") as [Hm|_]; [|reflexivity].
    destruct (fixedpoint.IsZero (rcvSize rm)) eqn:Hz; [reflexivity|].
    exfalso. apply Hun. right. split; [exact Hm|reflexivity].
  - rewrite lastOrderOf_unknown; [reflexivity|exact Hun].
  - rewrite lastOrderOf_unknown; [reflexivity|exact Hun].
  - unfold getOrderById in *. cbn [workingOrdersMap advanced]. rewrite Hun.
    reflexivity.
Qed.

(** X13.  A fresh placeable [received] message for an order that is not
    cached yet puts one order into the cache under the message's order id
    and emits that same order; it is new, working, unexecuted, of the
    message's size, priced as the message says for a limit order and at
    zero for a market order; the other cache entries are untouched. *)
Theorem received_order_cached_and_emitted us (msg : ReceivedMessage) :
  ~ staleFor us (rcvType msg) (rcvProductID msg) (rcvSequence msg) ->
  placeable msg ->
  getOrderById us (rcvOrderID msg) = None ->
  exists o,
    getOrderById (handleReceivedMessage us msg) (rcvOrderID msg) = Some o
    /\ orderUpdates (handleReceivedMessage us msg) = orderUpdates us ++ [o]
    /\ (forall id, id <> rcvOrderID msg ->
          getOrderById (handleReceivedMessage us msg) id = getOrderById us id)
    /\ UUID o = rcvOrderID msg /\ Quantity o = rcvSize msg
    /\ ExecutedQuantity o = fixedpoint.Zero
    /\ Status o = Some OrderStatusNew /\ IsWorking o = true
    /\ (rcvOrderType msg = "limit" ->
          Kind o = Some KindLimit /\ Price o = rcvPrice msg)
    /\ (rcvOrderType msg = "market" ->
          Kind o = Some KindMarket /\ Price o = fixedpoint.Zero).
Proof.
  intros Hfr Hpl Hnew. unfold handleReceivedMessage.
  rewrite (checkSequence_fresh _ _ _ _ Hfr). cbn [negb].
  unfold getOrderById in *.
  destruct Hpl as [Hl|[Hm Hz]].
  - rewrite Hl. cbn [String.eqb Ascii.eqb Bool.eqb].
    eexists. cbn. rewrite updateWorkingOrder_new by exact Hnew. cbn.
    split; [apply lookup_insert_eq|]. split; [reflexivity|].
    split; [intros id Hne; apply lookup_insert_ne; congruence|].
    repeat split; intros; discriminate.
  - rewrite Hm, Hz. cbn [String.eqb Ascii.eqb Bool.eqb].
    eexists. cbn. rewrite updateWorkingOrder_new by exact Hnew. cbn.
    split; [apply lookup_insert_eq|]. split; [reflexivity|].
    split; [intros id Hne; apply lookup_insert_ne; congruence|].
    repeat split; intros; discriminate.
Qed.

(** X14.  A fresh [done] message for a known order takes the order out of
    the cache, also when it had to be retrieved first, and leaves the other
    entries alone; the update it emits is not working, keeps the quantity
    of the known order, reports as executed that quantity less the
    remaining size, and is canceled exactly when the reason is
    ["canceled"], filled otherwise. *)
Theorem done_order_leaves_cache us query (msg : DoneMessage) last :
  ~ staleFor us (donType msg) (donProductID msg) (donSequence msg) ->
  knownOrder query us (donOrderID msg) last ->
  exists o,
    getOrderById (handleDoneMessage query us msg) (donOrderID msg) = None
    /\ (forall id, id <> donOrderID msg ->
          getOrderById (handleDoneMessage query us msg) id = getOrderById us id)
    /\ orderUpdates (handleDoneMessage query us msg) = orderUpdates us ++ [o]
    /\ UUID o = donOrderID msg /\ IsWorking o = false
    /\ Quantity o = Quantity last
    /\ ExecutedQuantity o = fixedpoint.Sub (Quantity last) (donRemainingSize msg)
    /\ (Status o = Some OrderStatusCanceled <-> donReason msg = "canceled")
    /\ (Status o = Some OrderStatusFilled <-> donReason msg <> "canceled").
Proof.
  intros Hfr Hknown. unfold handleDoneMessage.
  rewrite (checkSequence_fresh _ _ _ _ Hfr). cbn [negb].
  destruct (lastOrderOf_known query
              (advanced us (donType msg) (donProductID msg) (donSequence msg))
              (donOrderID msg) last) as (us' & Hlast & _ & Hupd & _ & Hmap).
  { exact Hknown. }
  rewrite Hlast. cbn [workingOrdersMap advanced] in Hmap.
  eexists. unfold getOrderById. cbn.
  erewrite updateWorkingOrder_retired;
    [|cbn; rewrite Hmap; apply lookup_insert_eq|reflexivity].
  cbn. rewrite Hmap, Hupd. cbn.
  split; [apply lookup_delete_eq|].
  split.
  { intros id Hne. rewrite lookup_delete_ne by congruence.
    apply lookup_insert_ne. congruence. }
  split; [reflexivity|].
  repeat split; unfold doneStatus;
    destruct (String.eqb_spec (donReason msg) "canceled"); cbn; congruence.
Qed.

(** X15.  A fresh [open] message for a known order leaves the order in the
    cache (it is put there when it had to be retrieved), leaves every other
    entry alone, and emits a new, working update that keeps the quantity of
    the known order and reports as executed that quantity less the
    remaining size. *)
Theorem open_order_stays_cached us query (msg : OpenMessage) last :
  ~ staleFor us (opnType msg) (opnProductID msg) (opnSequence msg) ->
  knownOrder query us (opnOrderID msg) last ->
  exists o,
    getOrderById (handleOpenMessage query us msg) (opnOrderID msg) = Some last
    /\ (forall id, id <> opnOrderID msg ->
          getOrderById (handleOpenMessage query us msg) id = getOrderById us id)
    /\ orderUpdates (handleOpenMessage query us msg) = orderUpdates us ++ [o]
    /\ UUID o = opnOrderID msg /\ IsWorking o = true
    /\ Status o = Some OrderStatusNew
    /\ Quantity o = Quantity last
    /\ ExecutedQuantity o = fixedpoint.Sub (Quantity last) (opnRemainingSize msg).
Proof.
  intros Hfr Hknown. unfold handleOpenMessage.
  rewrite (checkSequence_fresh _ _ _ _ Hfr). cbn [negb].
  destruct (lastOrderOf_known query
              (advanced us (opnType msg) (opnProductID msg) (opnSequence msg))
              (opnOrderID msg) last) as (us' & Hlast & _ & Hupd & _ & Hmap).
  { exact Hknown. }
  rewrite Hlast. cbn [workingOrdersMap advanced] in Hmap.
  eexists. unfold getOrderById. cbn. rewrite Hmap, Hupd.
  split; [apply lookup_insert_eq|].
  split; [intros id Hne; apply lookup_insert_ne; congruence|].
  repeat split.
Qed.

(** X16.  Round trip of an order through the cache: a placeable [received]
    message for an order that is not cached, followed by the [done] message
    of the same order, both fresh, leaves the cache of working orders
    exactly as it was before the two messages. *)
Theorem received_then_done_restores_cache us query
    (rm : ReceivedMessage) (dm : DoneMessage) :
  ~ staleFor us (rcvType rm) (rcvProductID rm) (rcvSequence rm) ->
  placeable rm ->
  getOrderById us (rcvOrderID rm) = None ->
  donOrderID dm = rcvOrderID rm ->
  ~ staleFor (handleReceivedMessage us rm)
      (donType dm) (donProductID dm) (donSequence dm) ->
  workingOrdersMap (handleDoneMessage query (handleReceivedMessage us rm) dm)
  = workingOrdersMap us.
Proof.
  intros Hfr Hpl Hnew Hid Hfr'.
  assert (Hcached : exists o,
            workingOrdersMap (handleReceivedMessage us rm)
            = <[rcvOrderID rm := o]> (workingOrdersMap us)).
  { unfold handleReceivedMessage.
    rewrite (checkSequence_fresh _ _ _ _ Hfr). cbn [negb].
    unfold getOrderById in Hnew.
    destruct Hpl as [Hl|[Hm Hz]].
    - rewrite Hl. cbn [String.eqb Ascii.eqb Bool.eqb]. eexists. cbn.
      rewrite updateWorkingOrder_new by exact Hnew. reflexivity.
    - rewrite Hm, Hz. cbn [String.eqb Ascii.eqb Bool.eqb]. eexists. cbn.
      rewrite updateWorkingOrder_new by exact Hnew. reflexivity. }
  destruct Hcached as [o Hcached].
  set (us1 := handleReceivedMessage us rm) in *.
  unfold handleDoneMessage.
  rewrite (checkSequence_fresh _ _ _ _ Hfr'). cbn [negb].
  unfold lastOrderOf, getOrderById. cbn [workingOrdersMap advanced].
  rewrite Hcached, Hid, lookup_insert_eq. cbn.
  erewrite updateWorkingOrder_retired;
    [|cbn; rewrite Hcached, ?Hid; apply lookup_insert_eq|reflexivity].
  cbn. rewrite Hcached, ?Hid. apply delete_insert_id. exact Hnew.
Qed.

(** X17.  A fresh [change] message for a cached order emits an update with
    the new price and the new size, working, unexecuted, and carrying
    neither an order type nor a status; the cache entry of the order
    becomes the cached order updated with it, and the other entries are
    untouched. *)
Theorem change_order_updates_cache us (msg : ChangeMessage) existing :
  ~ staleFor us (chgType msg) (chgProductID msg) (chgSequence msg) ->
  getOrderById us (chgOrderID msg) = Some existing ->
  exists o,
    getOrderById (handleChangeMessage us msg) (chgOrderID msg)
    = Some (OrderUpdate existing o)
    /\ (forall id, id <> chgOrderID msg ->
          getOrderById (handleChangeMessage us msg) id = getOrderById us id)
    /\ orderUpdates (handleChangeMessage us msg) = orderUpdates us ++ [o]
    /\ UUID o = chgOrderID msg /\ IsWorking o = true
    /\ Price o = chgNewPrice msg /\ Quantity o = chgNewSize msg
    /\ ExecutedQuantity o = fixedpoint.Zero
    /\ Kind o = None /\ Status o = None.
Proof.
  intros Hfr Hc. unfold handleChangeMessage.
  rewrite (checkSequence_fresh _ _ _ _ Hfr). cbn [negb].
  unfold getOrderById in *. cbn [workingOrdersMap advanced]. rewrite Hc.
  eexists. cbn. unfold updateWorkingOrder. cbn. rewrite Hc. cbn.
  split; [apply lookup_insert_eq|].
  split; [intros id Hne; apply lookup_insert_ne; congruence|].
  repeat split.
Qed.

Lemma bookChanges_live changes : forall bids asks bids' asks',
  bookChanges changes bids asks = Some (bids', asks') ->
  Forall liveLevel bids -> Forall liveLevel asks ->
  Forall liveLevel bids' /\ Forall liveLevel asks'
  /\ (length bids' + length asks'
      <= length bids + length asks + length changes)%nat.
Proof.
  induction changes as [|c rest IH]; intros bids asks bids' asks' Hrun Hb Ha.
  - injection Hrun as <- <-. repeat split; [assumption..|simpl; lia].
  - assert (Hskip : bookChanges rest bids asks = Some (bids', asks') ->
                    Forall liveLevel bids' /\ Forall liveLevel asks'
                    /\ (length bids' + length asks'
                        <= length bids + length asks + length (c :: rest))%nat).
    { intros Hrest. destruct (IH _ _ _ _ Hrest Hb Ha) as (? & ? & ?).
      repeat split; [assumption..|simpl; lia]. }
    destruct c as [|side [|c1 [|c2 [|]]]]; try (apply Hskip; exact Hrun).
    cbn [bookChanges] in Hrun.
    destruct (NewFromString c1) as [price|]; [|discriminate].
    destruct (NewFromString c2) as [volume|]; [|discriminate].
    cbn [mbind option_bind] in Hrun.
    destruct (fixedpoint.IsZero volume) eqn:Hz; [apply Hskip; exact Hrun|].
    assert (Hlive : Forall liveLevel [types.mkPV price volume]).
    { constructor; [exact Hz|constructor]. }
    destruct (String.eqb side "buy").
    { destruct (IH _ _ _ _ Hrun) as (? & ? & Hlen);
        [apply Forall_app; split; assumption|assumption|].
      rewrite length_app in Hlen. repeat split; [assumption..|simpl in *; lia]. }
    destruct (String.eqb side "sell"); [|apply Hskip; exact Hrun].
    destruct (IH _ _ _ _ Hrun) as (? & ? & Hlen);
      [assumption|apply Forall_app; split; assumption|].
    rewrite length_app in Hlen. repeat split; [assumption..|simpl in *; lia].
Qed.

(** X18.  When the order book update handler returns, it has emitted at
    most one book; an emitted book has a level on at least one side, no
    level of zero volume on either side, and no more levels than the
    message has changes. *)
Theorem book_update_has_live_levels (msg : OrderBookUpdateMessage) books :
  handleOrderbookUpdateMessage msg = Some books ->
  (length books <= 1)%nat
  /\ Forall (fun b =>
       (bookBids b <> [] \/ bookAsks b <> [])
       /\ Forall liveLevel (bookBids b) /\ Forall liveLevel (bookAsks b)
       /\ (length (bookBids b) + length (bookAsks b) <= length (bkChanges msg))%nat)
     books.
Proof.
  unfold handleOrderbookUpdateMessage. intros Hrun.
  destruct (bookChanges (bkChanges msg) [] []) as [[bids asks]|] eqn:Hloop;
    [|discriminate].
  cbn [mbind option_bind] in Hrun.
  destruct (bookChanges_live _ _ _ _ _ Hloop) as (Hb & Ha & Hlen);
    [constructor..|].
  destruct (decide _) as [Hsome|_]; injection Hrun as <-.
  - split; [simpl; lia|]. constructor; [|constructor]. cbn.
    split; [|split; [exact Hb|split; [exact Ha|simpl in Hlen; lia]]].
    destruct Hsome as [Hlt|Hlt]; [left|right]; intros ->; simpl in Hlt; lia.
  - split; [simpl; lia|constructor].
Qed.

Lemma addSubscriptions_lookup (subs : list Subscription) :
  forall (products : gmap string (list string)) channel,
  foldl addSubscription products subs !! channel
  = match productsOf channel subs with
    | [] => products !! channel
    | ps => Some (default [] (products !! channel) ++ ps)
    end.
Proof.
  induction subs as [|sub rest IH]; intros products channel; [reflexivity|].
  cbn [foldl]. rewrite IH.
  assert (Hcons : productsOf channel (sub :: rest)
                  = if skipsSubscription sub then productsOf channel rest
                    else if decide (Channel sub = channel)
                         then toLocalSymbol (subSymbol sub) :: productsOf channel rest
                         else productsOf channel rest).
  { unfold productsOf. rewrite filter_cons.
    destruct (skipsSubscription sub) eqn:Hskip.
    - rewrite decide_False by (intros [Hk _]; discriminate Hk). reflexivity.
    - destruct (decide (Channel sub = channel)) as [Hc|Hne].
      + rewrite decide_True by (split; [reflexivity|exact Hc]). reflexivity.
      + rewrite decide_False by (intros [_ Hc]; contradiction). reflexivity. }
  rewrite Hcons. unfold addSubscription.
  destruct (skipsSubscription sub); [reflexivity|].
  destruct (decide (Channel sub = channel)) as [<-|Hne].
  - rewrite lookup_insert_eq. cbn [default].
    destruct (productsOf (Channel sub) rest) as [|p ps]; [reflexivity|].
    unfold id. rewrite <- app_assoc. reflexivity.
  - rewrite lookup_insert_ne by exact Hne. reflexivity.
Qed.

(** X21.  The grouping loop of [handleConnect] collects, for every
    channel, the local symbols of its subscriptions in subscription order,
    leaving out the subscriptions without a symbol unless the channel is
    ["rfq_matches"] or ["status"]; a channel with nothing collected has no
    entry.  When there is a subscription at all, the stream is marked as
    carrying other users' orders exactly when some subscription of the
    ["full"] channel names a symbol. *)
Theorem subscriptions_grouped_by_channel us (subs : list Subscription) :
  (forall channel,
     subProductsMap subs !! channel
     = match productsOf channel subs with
       | [] => None
       | ps => Some ps
       end)
  /\ (subs <> [] ->
      (connectUserOrderOnly us subs = false
       <-> Exists (fun sub => Channel sub = fullChannel /\ subSymbol sub <> "") subs)).
Proof.
  assert (Hgroup : forall channel,
            subProductsMap subs !! channel
            = match productsOf channel subs with
              | [] => None
              | ps => Some ps
              end).
  { intros channel. unfold subProductsMap. rewrite addSubscriptions_lookup.
    rewrite lookup_empty. reflexivity. }
  split; [exact Hgroup|]. intros Hsome.
  assert (Hfull : connectUserOrderOnly us subs = false
                  <-> productsOf fullChannel subs <> []).
  { unfold connectUserOrderOnly. destruct subs as [|sub rest]; [contradiction|].
    rewrite Hgroup.
    destruct (productsOf fullChannel (sub :: rest)); split; congruence. }
  rewrite Hfull. unfold productsOf. rewrite Exists_exists.
  assert (Hkept : forall sub,
            (skipsSubscription sub = false /\ Channel sub = fullChannel)
            <-> (Channel sub = fullChannel /\ subSymbol sub <> "")).
  { intros sub. unfold skipsSubscription. split.
    - intros [Hk Hc]. split; [exact Hc|]. intros Hsym.
      rewrite Hc, Hsym in Hk. discriminate Hk.
    - intros [Hc Hsym]. split; [|exact Hc]. rewrite Hc.
      destruct (subSymbol sub); [contradiction|reflexivity]. }
  split.
  - intros Hne.
    destruct (filter _ subs) as [|sub kept] eqn:Hfilter; [contradiction|].
    assert (Hin : sub ∈ filter
              (fun sub => skipsSubscription sub = false /\ Channel sub = fullChannel)
              subs) by (rewrite Hfilter; apply list_elem_of_here).
    apply list_elem_of_filter in Hin. destruct Hin as [Hp Hin].
    exists sub. split; [apply list_elem_of_In; exact Hin|apply Hkept; exact Hp].
  - intros (sub & Hin & Hp) Hnil. apply fmap_nil_inv in Hnil.
    assert (Hmem : sub ∈ filter
              (fun sub => skipsSubscription sub = false /\ Channel sub = fullChannel)
              subs).
    { apply list_elem_of_filter. split; [apply Hkept; exact Hp|].
      apply list_elem_of_In. exact Hin. }
    rewrite Hnil in Hmem. inversion Hmem.
Qed.

End OrderHandlers.

Section OrderHandlersSample.

Import coinbase.

Ltac fresh_message := vm_compute; intros Hle; apply Hle; reflexivity.

Ltac stale_message := vm_compute; intros Hgt; discriminate Hgt.

(** After the four sample messages of ["order-1"], each of them is stale. *)
Lemma stale_order_message_ignored_witness :
  handleReceivedMessage busyStream sampleReceived = busyStream
  /\ handleOpenMessage sampleQuery busyStream sampleOpen = busyStream
  /\ handleDoneMessage sampleQuery busyStream sampleDone = busyStream
  /\ handleChangeMessage busyStream sampleChange = busyStream.
Proof.
  destruct (stale_order_message_ignored busyStream sampleQuery
              sampleReceived sampleOpen sampleDone sampleChange)
    as (Hr & Ho & Hd & Hc).
  split; [apply Hr; stale_message|].
  split; [apply Ho; stale_message|].
  split; [apply Hd; stale_message|apply Hc; stale_message].
Defined.

(** On the empty stream a stop order, and the open, done and change
    messages of an order nobody knows, move their cursors only. *)
Lemma dropped_order_message_moves_cursor_only_witness :
  handleReceivedMessage sampleUserStream sampleStop
  = advanced sampleUserStream "received" "BTC-USD" 10%N
  /\ handleOpenMessage sampleQuery sampleUserStream sampleOpen
     = advanced sampleUserStream "open" "BTC-USD" 11%N
  /\ handleDoneMessage sampleQuery sampleUserStream sampleDone
     = advanced sampleUserStream "done" "BTC-USD" 12%N
  /\ handleChangeMessage sampleUserStream sampleChange
     = advanced sampleUserStream "change" "BTC-USD" 13%N.
Proof.
  destruct (dropped_order_message_moves_cursor_only sampleUserStream sampleQuery
              sampleStop sampleOpen sampleDone sampleChange)
    as (Hr & Ho & Hd & Hc).
  split; [apply Hr; [fresh_message|]|].
  { intros [Hl|[Hm _]]; [discriminate Hl|discriminate Hm]. }
  split; [apply Ho; [fresh_message|split; [reflexivity|right; reflexivity]]|].
  split; [apply Hd; [fresh_message|split; [reflexivity|right; reflexivity]]|].
  apply Hc; [fresh_message|reflexivity].
Defined.

Lemma received_order_cached_and_emitted_witness :
  exists o,
    getOrderById placedStream "order-1" = Some o
    /\ orderUpdates placedStream = [o]
    /\ Quantity o = 2%Q /\ Price o = 30000%Q /\ Kind o = Some KindLimit.
Proof.
  destruct (received_order_cached_and_emitted sampleUserStream sampleReceived)
    as (o & Hc & He & _ & _ & Hq & _ & _ & _ & Hl & _).
  - fresh_message.
  - left. reflexivity.
  - reflexivity.
  - destruct (Hl eq_refl) as [Hk Hp]. exists o.
    split; [exact Hc|]. split; [exact He|]. split; [exact Hq|].
    split; [exact Hp|exact Hk].
Defined.

(** The placed order is canceled with half a unit remaining: it leaves the
    cache, and the update reports one and a half as executed. *)
Lemma done_order_leaves_cache_witness :
  exists o,
    getOrderById (handleDoneMessage sampleQuery placedStream sampleDone) "order-1" = None
    /\ orderUpdates (handleDoneMessage sampleQuery placedStream sampleDone)
       = orderUpdates placedStream ++ [o]
    /\ Status o = Some OrderStatusCanceled
    /\ ExecutedQuantity o = fixedpoint.Sub 2%Q (1 # 2)%Q.
Proof.
  destruct (done_order_leaves_cache placedStream sampleQuery sampleDone placedOrder)
    as (o & Hgone & _ & He & _ & _ & _ & Hx & Hcan & _).
  - fresh_message.
  - left. vm_compute. reflexivity.
  - exists o. split; [exact Hgone|]. split; [exact He|].
    split; [apply Hcan; reflexivity|exact Hx].
Defined.

(** An open message for ["order-9"], which only the exchange knows: the
    order is retrieved, cached, and reported with two of three executed. *)
Lemma open_order_stays_cached_witness :
  exists last o,
    sampleQuery "order-9" = Some last
    /\ getOrderById (handleOpenMessage sampleQuery sampleUserStream sampleOpenRetrieved)
         "order-9" = Some last
    /\ orderUpdates (handleOpenMessage sampleQuery sampleUserStream sampleOpenRetrieved)
       = [o]
    /\ ExecutedQuantity o = fixedpoint.Sub 3%Q 1%Q.
Proof.
  destruct (sampleQuery "order-9") as [last|] eqn:Hq; [|discriminate Hq].
  destruct (open_order_stays_cached sampleUserStream sampleQuery
              sampleOpenRetrieved last)
    as (o & Hc & _ & He & _ & _ & _ & _ & Hx).
  - fresh_message.
  - right. split; [reflexivity|]. split; [reflexivity|]. split; [exact Hq|].
    vm_compute in Hq. injection Hq as <-. reflexivity.
  - exists last, o. split; [reflexivity|]. split; [exact Hc|]. split; [exact He|].
    rewrite Hx. vm_compute in Hq. injection Hq as <-. reflexivity.
Defined.

Lemma received_then_done_restores_cache_witness :
  workingOrdersMap
    (handleDoneMessage sampleQuery
       (handleReceivedMessage sampleUserStream sampleReceived) sampleDone)
  = workingOrdersMap sampleUserStream.
Proof.
  apply (received_then_done_restores_cache sampleUserStream sampleQuery
           sampleReceived sampleDone).
  - fresh_message.
  - left. reflexivity.
  - reflexivity.
  - reflexivity.
  - fresh_message.
Defined.

Lemma change_order_updates_cache_witness :
  exists o,
    getOrderById (handleChangeMessage placedStream sampleChange) "order-1" = Some o
    /\ Price o = 29000%Q /\ Quantity o = 1%Q /\ Status o = None.
Proof.
  destruct (change_order_updates_cache placedStream sampleChange placedOrder)
    as (o & Hc & _ & _ & _ & _ & Hp & Hq & _ & _ & Hs).
  - fresh_message.
  - vm_compute. reflexivity.
  - exists o. split; [exact Hc|]. split; [exact Hp|]. split; [exact Hq|exact Hs].
Defined.

(** Of the four sample changes, the removal and the short entry are
    skipped: one bid and one ask are emitted. *)
Lemma book_update_has_live_levels_witness :
  exists b,
    handleOrderbookUpdateMessage sampleBookUpdate = Some [b]
    /\ length (bookBids b) = 1%nat /\ length (bookAsks b) = 1%nat
    /\ Forall liveLevel (bookBids b) /\ Forall liveLevel (bookAsks b).
Proof.
  destruct (handleOrderbookUpdateMessage sampleBookUpdate) as [books|] eqn:Hrun;
    [|vm_compute in Hrun; discriminate Hrun].
  destruct (book_update_has_live_levels sampleBookUpdate books Hrun) as [_ Hall].
  pose proof Hrun as Hval. vm_compute in Hval. injection Hval as Hval.
  destruct books as [|b [|b' rest]]; try discriminate Hval.
  inversion Hall as [|? ? (_ & Hb & Ha & _) _]; subst.
  exists b. split; [reflexivity|].
  injection Hval as Hval. rewrite <- Hval.
  split; [reflexivity|]. split; [reflexivity|].
  rewrite Hval. split; [exact Hb|exact Ha].
Defined.

(** The sample subscribes the full channel without a symbol: that
    subscription is skipped, the ticker symbols are grouped in order, and
    the stream stays one of the user's own orders. *)
Lemma subscriptions_grouped_by_channel_witness :
  subProductsMap sampleSubscriptions !! "ticker" = Some ["BTCUSDT"; "ETHUSDT"]
  /\ subProductsMap sampleSubscriptions !! "full" = None
  /\ connectUserOrderOnly sampleUserStream sampleSubscriptions <> false.
Proof.
  destruct (subscriptions_grouped_by_channel sampleUserStream sampleSubscriptions)
    as [Hgroup Hfull].
  split; [rewrite Hgroup; reflexivity|].
  split; [rewrite Hgroup; reflexivity|].
  intros Hoff. apply Hfull in Hoff; [|discriminate].
  apply Exists_exists in Hoff. destruct Hoff as (sub & Hin & Hc & Hsym).
  simpl in Hin.
  destruct Hin as [<-|[<-|[<-|[<-|[]]]]];
    solve [discriminate Hc | apply Hsym; reflexivity].
Defined.

End OrderHandlersSample.

(** ** Batch order responses that do not decode *)

Section BatchOrdersErrors.

Import binanceapi.

Context {T : Type} `{!OrderCodec T}.

Implicit Types (rawMsgs : list JSON) (msg : JSON)
  (f : FuturesBatchOrdersResponse T) (errs : list (option error)).

Lemma not_resultItem msg :
  ~ resultItem msg <-> apiErrorItem msg = false /\ unmarshalOrder msg = None.
Proof.
  unfold resultItem. split.
  - intros Hno. split.
    + destruct (apiErrorItem msg); [exfalso; apply Hno; left; reflexivity|reflexivity].
    + destruct (unmarshalOrder msg) as [order|]; [|reflexivity].
      exfalso. apply Hno. right. eexists. reflexivity.
  - intros [Ha Ho] [Ha'|[order Ho']]; congruence.
Qed.

Lemma markErrors_after rawMsgs : forall i errs k,
  (i + length rawMsgs <= k)%nat -> markErrors i rawMsgs errs !! k = errs !! k.
Proof.
  induction rawMsgs as [|msg rest IH]; intros i errs k Hk; simpl; [reflexivity|].
  simpl in Hk.
  destruct (unmarshalApiErr msg) as [e|]; [destruct (isAPIError e)|];
    rewrite IH by lia; try reflexivity.
  apply list_lookup_insert_ne. lia.
Qed.

(** The loop stops at the first item that is not a result item, with what
    it has built from the items before it. *)
Lemma unmarshalItems_bad pre : forall i f msg rest,
  Forall resultItem pre -> ~ resultItem msg ->
  unmarshalItems i (pre ++ msg :: rest) f
  = (mkResponse (Orders f ++ placedOrders pre) (markErrors i pre (Errors f)),
     Some (ErrItem (i + length pre))).
Proof.
  induction pre as [|m pre IH]; intros i f msg rest Hall Hbad.
  - apply not_resultItem in Hbad. destruct Hbad as [Ha Ho].
    unfold apiErrorItem in Ha. simpl. rewrite Ho, app_nil_r, Nat.add_0_r.
    destruct (unmarshalApiErr msg) as [e|]; [rewrite Ha|]; destruct f; reflexivity.
  - inversion Hall as [|? ? Hm Hpre]; subst.
    replace (i + length (m :: pre))%nat with (S i + length pre)%nat by (simpl; lia).
    unfold placedOrders. simpl. unfold apiErrorItem.
    destruct Hm as [Herr|[order Horder]].
    + unfold apiErrorItem in Herr.
      destruct (unmarshalApiErr m) as [e|]; [|discriminate].
      rewrite Herr. rewrite IH by assumption. reflexivity.
    + rewrite Horder.
      destruct (unmarshalApiErr m) as [e|]; [destruct (isAPIError e)|];
        rewrite IH by assumption; simpl; rewrite <- ?app_assoc; reflexivity.
Qed.

Lemma unmarshalItems_decoded rawMsgs : forall i f,
  snd (unmarshalItems i rawMsgs f) = None -> Forall resultItem rawMsgs.
Proof.
  induction rawMsgs as [|msg rest IH]; intros i f Hok; [constructor|].
  simpl in Hok.
  destruct (unmarshalApiErr msg) as [e|] eqn:He;
    [destruct (isAPIError e) eqn:Hapi|].
  - constructor; [|eapply IH, Hok].
    left. unfold apiErrorItem. rewrite He. exact Hapi.
  - destruct (unmarshalOrder msg) as [order|] eqn:Ho; [|discriminate].
    constructor; [|eapply IH, Hok]. right. rewrite Ho. eexists. reflexivity.
  - destruct (unmarshalOrder msg) as [order|] eqn:Ho; [|discriminate].
    constructor; [|eapply IH, Hok]. right. rewrite Ho. eexists. reflexivity.
Qed.

(** X19.  [Unmarshal] stops at the first item that is neither an API error
    object nor a decodable order and reports its index.  The receiver is
    left half filled: [Orders] holds the pre-allocated zero entries followed
    by the orders decoded before the failure, [Errors] keeps its full
    length, and its entries from the failing item on are nil, API error
    objects that come later included. *)
Theorem Unmarshal_stops_at_first_bad_item f (items : list JSON) i msg :
  items !! i = Some msg ->
  ~ resultItem msg ->
  Forall resultItem (take i items) ->
  exists f',
    Unmarshal f (JArray items) = (f', Some (ErrItem i))
    /\ Orders f'
       = replicate (length items) zeroOrder ++ placedOrders (take i items)
    /\ length (Errors f') = length items
    /\ (forall j, (i <= j < length items)%nat -> Errors f' !! j = Some None).
Proof.
  intros Hi Hbad Hpre. unfold Unmarshal. cbn [unmarshalRawMessages].
  pose proof (lookup_lt_Some _ _ _ Hi) as Hlt.
  set (f0 := mkResponse (replicate (length items) zeroOrder)
               (replicate (length items) None)).
  replace (unmarshalItems 0 items f0)
    with (unmarshalItems 0 (take i items ++ msg :: drop (S i) items) f0)
    by (rewrite take_drop_middle; [reflexivity|exact Hi]).
  rewrite unmarshalItems_bad by assumption.
  rewrite length_take, Nat.min_l by lia. cbn [Nat.add]. subst f0.
  eexists. split; [reflexivity|]. cbn [Orders Errors].
  split; [reflexivity|]. split.
  - rewrite markErrors_length. apply length_replicate.
  - intros j [Hij Hj]. rewrite markErrors_after.
    + apply lookup_replicate_2. exact Hj.
    + rewrite length_take. lia.
Qed.

(** X20.  [Unmarshal] returns without an error exactly when the document
    is an array (or [null]) all of whose items are result items: API error
    objects or decodable orders. *)
Theorem Unmarshal_succeeds_iff f (data : JSON) :
  snd (Unmarshal f data) = None
  <-> exists items,
        unmarshalRawMessages data = Some items /\ Forall resultItem items.
Proof.
  unfold Unmarshal. split.
  - destruct (unmarshalRawMessages data) as [items|]; [|discriminate].
    intros Hok. exists items. split; [reflexivity|].
    eapply unmarshalItems_decoded, Hok.
  - intros (items & -> & Hall). rewrite unmarshalItems_result by exact Hall.
    reflexivity.
Qed.

End BatchOrdersErrors.

Section BatchOrdersErrorsSample.

Import binanceapi.

(** The second of the three sample items is a string: the decoder reports
    item 1, keeps the order of item 0 behind three zero entries, and never
    records the rejection of item 2. *)
Lemma Unmarshal_stops_at_first_bad_item_witness :
  exists f',
    Unmarshal (mkResponse [] []) (JArray brokenItems) = (f', Some (ErrItem 1))
    /\ Orders f' = [zeroOrder; zeroOrder; zeroOrder; mkSampleOrder 7 "BTCUSDT"]
    /\ Errors f' = [None; None; None].
Proof.
  destruct (Unmarshal_stops_at_first_bad_item (mkResponse [] []) brokenItems 1
              (JString "oops")) as (f' & Hrun & Horders & _ & _).
  - reflexivity.
  - intros [Herr|[order Horder]]; discriminate.
  - constructor; [right; eexists; reflexivity|constructor].
  - exists f'. split; [exact Hrun|]. split; [exact Horders|].
    vm_compute in Hrun. injection Hrun as <-. reflexivity.
Defined.

(** Keys that differ from the field names by case only are matched: the
    item is an API error object and [Unmarshal] returns no error. *)
Remark Unmarshal_folds_key_case :
  Unmarshal (mkResponse [] []) (JArray shoutedItems)
  = (mkResponse [zeroOrder] [Some (ErrAPI (-2010) "rejected")], None).
Proof. reflexivity. Qed.

End BatchOrdersErrorsSample.
